(** * PostgreSQL connection bootstrap of the ledger storage

    A shallow embedding of [PgConnectionInit] (main/impl/pg_connection_init.cpp)
    and of the value-or-error type it returns (libs/common/result.hpp), with
    the properties of the storage-bootstrap specification stated over it.

    The C++ code talks to a database through the SOCI driver and signals
    faults with exceptions.  The embedding keeps both: the driver is an
    [Environment] that answers every call and may answer with a fault, and
    the code runs in a small state-and-exception monad [M] that records each
    call together with its answer. *)

From Stdlib Require Import String Ascii List ZArith Lia Bool Arith PeanoNat.
From Stdlib Require Import DecimalString Decimal.
Import ListNotations.
Local Open Scope list_scope.
Local Open Scope string_scope.

(* ===================================================================== *)
(** ** libs/common/result.hpp *)
(* ===================================================================== *)

Module expected.

(** [template <typename T> struct Value { T value; }] *)
Record Value (T : Type) : Type := Value_ { value : T }.
(** [template <typename E> struct Error { E error; }] *)
Record Error (E : Type) : Type := Error_ { error : E }.

Arguments Value_ {T} _.
Arguments value {T} _.
Arguments Error_ {E} _.
Arguments error {E} _.

(** [class Result : public boost::variant<Value<V>, Error<E>>]: exactly one
  of the two alternatives is held. *)
Inductive Result (V E : Type) : Type :=
| of_value (v : Value V)
| of_error (e : Error E).

Arguments of_value {V E} _.
Arguments of_error {V E} _.

(** Factory methods [makeValue] and [makeError]. *)
Definition makeValue {T : Type} (v : T) : Value T := Value_ v.
Definition makeError {E : Type} (e : E) : Error E := Error_ e.

(** A [Value<V>] or an [Error<E>] converts implicitly to a [Result<V, E>];
  the embedding writes the conversion out as [of_value] or [of_error]. *)

(** [Result::match(value_func, error_func)] *)
Definition match_ {V E R : Type} (r : Result V E)
  (value_func : Value V -> R) (error_func : Error E -> R) : R :=
match r with
| of_value v => value_func v
| of_error e => error_func e
end.

(** [Result::and_res]: error AND-chaining. *)
Definition and_res {V E V' : Type} (r : Result V E) (new_res : Result V' E)
  : Result V' E :=
match_ r (fun _ => new_res) (fun err => of_error err).

(** [Result::or_res]: error OR-chaining. *)
Definition or_res {V E : Type} (r : Result V E) (new_res : Result V E)
  : Result V E :=
match_ r (fun val => of_value val) (fun _ => new_res).

(** [map_error] *)
Definition map_error {V Err1 Err2 : Type} (res : Result V Err2)
  (map : Err2 -> Err1) : Result V Err1 :=
match_ res (fun val => of_value val)
           (fun err => of_error (Error_ (map (error err)))).

(** [hasValue], [hasError] *)
Definition hasValue {V E : Type} (result : Result V E) : bool :=
match result with of_value _ => true | of_error _ => false end.
Definition hasError {V E : Type} (result : Result V E) : bool :=
match result with of_value _ => false | of_error _ => true end.

(** [resultToOptionalValue], [resultToOptionalError] *)
Definition resultToOptionalValue {V E : Type} (res : Result V E) : option V :=
match res with of_value v => Some (value v) | of_error _ => None end.
Definition resultToOptionalError {V E : Type} (res : Result V E) : option E :=
match res with of_value _ => None | of_error e => Some (error e) end.

(** [BindReturnType<Transformed, ErrorType>]: the result type of the bind
  operator and the conversion [makeVaule] (spelt as in the source) of the
  transformation function's outcome into it.  The source selects one of
  three specialisations by the shape of [Transformed]; here they are
  three instances, the unwrapped one being the fallback. *)
Class BindReturnType (Transformed ErrorType : Type) : Type := {
InnerType : Type;
makeVaule : Transformed -> Result InnerType ErrorType
}.

(** Case when the transformation function returns an unwrapped value. *)
#[export] Instance BindReturnType_unwrapped (Transformed ErrorType : Type)
  : BindReturnType Transformed ErrorType | 10 :=
{| InnerType := Transformed;
   makeVaule := fun result => of_value (makeValue result) |}.

(** Case when the transformation function returns a [Result]. *)
#[export] Instance BindReturnType_result (T ErrorType : Type)
  : BindReturnType (Result T ErrorType) ErrorType | 1 :=
{| InnerType := T; makeVaule := fun result => result |}.

(** Case when the transformation function returns a [Value]. *)
#[export] Instance BindReturnType_value (T ErrorType : Type)
  : BindReturnType (Value T) ErrorType | 1 :=
{| InnerType := T; makeVaule := fun result => of_value result |}.

Section Bind.
(** A C++ callable may have effects; [S] is whatever state the
    transformation function of a bind reads and writes, so that whether the
    function was called at all shows in [S]. *)
Variable S : Type.

(** [operator|(Result<V, E>, Transform &&f)], the const-reference and the
    rvalue version alike (they differ in moves only). *)
Definition operator_bar {V E Transformed : Type}
    {TypeHelper : BindReturnType Transformed E}
    (r : Result V E) (f : V -> S -> Transformed * S)
    : S -> Result InnerType E * S :=
  match_ r
    (fun v s => let (t, s') := f (value v) s in (makeVaule t, s'))
    (fun e s => (of_error (makeError (error e)), s)).

(** [operator|(Result<T, E>, Procedure f)]: [f] takes no argument and
    returns a result. *)
Definition operator_bar_procedure {T E T' : Type}
    (r : Result T E) (f : S -> Result T' E * S) : S -> Result T' E * S :=
  match_ r
    (fun _ s => f s)
    (fun e s => (of_error (makeError (error e)), s)).
End Bind.

Arguments operator_bar {S V E Transformed TypeHelper} r f _.
Arguments operator_bar_procedure {S T E T'} r f _.

End expected.

Import expected.

(* ===================================================================== *)
(** ** Strings *)
(* ===================================================================== *)

(** [boost::is_any_of(set)] *)
Definition is_any_of (set : string) (c : ascii) : bool :=
existsb (Ascii.eqb c) (list_ascii_of_string set).

(** [boost::replace_if(s, pred, new_value)] (in place in the source). *)
Fixpoint replace_if (s : string) (pred : ascii -> bool) (new_value : ascii)
  : string :=
match s with
| EmptyString => EmptyString
| String c rest =>
    String (if pred c then new_value else c) (replace_if rest pred new_value)
end.

(** The two characters carriage return and line feed. *)
Definition CR : ascii := "013"%char.
Definition LF : ascii := "010"%char.
Definition CRLF : string := String CR (String LF EmptyString).

(** [formatPostgresMessage(message)]; [message] is the text of the C string. *)
Definition formatPostgresMessage (message : string) : string :=
replace_if message (is_any_of CRLF) " "%char.

(** [std::to_string] of an unsigned number. *)
Definition to_string (n : nat) : string :=
NilEmpty.string_of_uint (Nat.to_uint n).

(** The logger's format call with one argument: the first placeholder of
    [format] is replaced by [arg]. *)
Fixpoint fmt (format arg : string) : string :=
match format with
| String "{"%char (String "}"%char rest) => arg ++ rest
| String c rest => String c (fmt rest arg)
| EmptyString => EmptyString
end.

(** Control characters of ASCII: the codes below 32, and 127. *)
Definition is_control (c : ascii) : bool :=
(nat_of_ascii c <? 32)%nat || (nat_of_ascii c =? 127)%nat.

Definition has_control (s : string) : bool :=
existsb is_control (list_ascii_of_string s).

(** A single-line text: no carriage return and no line feed in it. *)
Definition single_line (s : string) : bool :=
negb (existsb (is_any_of CRLF) (list_ascii_of_string s)).

(** Conversion of an [int] to [size_t] on a 64-bit platform. *)
Definition to_size_t (z : Z) : nat := Z.to_nat (z mod 2 ^ 64).

(* ===================================================================== *)
(** ** The schema text *)
(* ===================================================================== *)

(** The three raw-string pieces of [PgConnectionInit::init_]; the widths of
    the two permission bit sets go between them. *)
Definition init_head : string :=
"
CREATE TABLE IF NOT EXISTS role (
    role_id character varying(32),
    PRIMARY KEY (role_id)
);
CREATE TABLE IF NOT EXISTS domain (
    domain_id character varying(255),
    default_role character varying(32) NOT NULL REFERENCES role(role_id),
    PRIMARY KEY (domain_id)
);
CREATE TABLE IF NOT EXISTS signatory (
    public_key varchar NOT NULL,
    PRIMARY KEY (public_key)
);
CREATE TABLE IF NOT EXISTS account (
    account_id character varying(288),
    domain_id character varying(255) NOT NULL REFERENCES domain,
    quorum int NOT NULL,
    data JSONB,
    PRIMARY KEY (account_id)
);
CREATE TABLE IF NOT EXISTS account_has_signatory (
    account_id character varying(288) NOT NULL REFERENCES account,
    public_key varchar NOT NULL REFERENCES signatory,
    PRIMARY KEY (account_id, public_key)
);
CREATE TABLE IF NOT EXISTS peer (
    public_key varchar NOT NULL,
    address character varying(261) NOT NULL UNIQUE,
    PRIMARY KEY (public_key)
);
CREATE TABLE IF NOT EXISTS asset (
    asset_id character varying(288),
    domain_id character varying(255) NOT NULL REFERENCES domain,
    precision int NOT NULL,
    data json,
    PRIMARY KEY (asset_id)
);
CREATE TABLE IF NOT EXISTS account_has_asset (
    account_id character varying(288) NOT NULL REFERENCES account,
    asset_id character varying(288) NOT NULL REFERENCES asset,
    amount decimal NOT NULL,
    PRIMARY KEY (account_id, asset_id)
);
CREATE TABLE IF NOT EXISTS role_has_permissions (
    role_id character varying(32) NOT NULL REFERENCES role,
    permission bit(".

Definition init_middle : string :=
") NOT NULL,
    PRIMARY KEY (role_id)
);
CREATE TABLE IF NOT EXISTS account_has_roles (
    account_id character varying(288) NOT NULL REFERENCES account,
    role_id character varying(32) NOT NULL REFERENCES role,
    PRIMARY KEY (account_id, role_id)
);
CREATE TABLE IF NOT EXISTS account_has_grantable_permissions (
    permittee_account_id character varying(288) NOT NULL REFERENCES account,
    account_id character varying(288) NOT NULL REFERENCES account,
    permission bit(".

Definition init_tail : string :=
") NOT NULL,
    PRIMARY KEY (permittee_account_id, account_id)
);
CREATE TABLE IF NOT EXISTS position_by_hash (
    hash varchar,
    height bigint,
    index bigint
);

CREATE TABLE IF NOT EXISTS tx_status_by_hash (
    hash varchar,
    status boolean
);
CREATE INDEX IF NOT EXISTS tx_status_by_hash_hash_index ON tx_status_by_hash USING hash (hash);

CREATE TABLE IF NOT EXISTS height_by_account_set (
    account_id text,
    height bigint
);
CREATE TABLE IF NOT EXISTS index_by_creator_height (
    id serial,
    creator_id text,
    height bigint,
    index bigint
);
CREATE TABLE IF NOT EXISTS position_by_account_asset (
    account_id text,
    asset_id text,
    height bigint,
    index bigint
);
".

(** [PgConnectionInit::init_], given [RolePermissionSet::size()] and
    [GrantablePermissionSet::size()]. *)
Definition init_ (role_permission_set_size grantable_permission_set_size : nat)
  : string :=
init_head ++ to_string role_permission_set_size ++ init_middle
  ++ to_string grantable_permission_set_size ++ init_tail.

(** [PgConnectionInit::kDefaultDatabaseName] *)
Definition kDefaultDatabaseName : string := "iroha_default".

(* ===================================================================== *)
(** ** The driver and the world outside *)
(* ===================================================================== *)

(** [std::exception]: the faults of the driver derive from it, and the code
    reads nothing of them but [what()]. *)
Record exception : Type := std_exception { what : string }.

(** The session objects the code holds. *)
Inductive session : Type :=
| pool_at (i : nat)   (* [connection_pool.at(i)] *)
| leased              (* [soci::session sql(pool)], a lease on the pool *)
| standalone.         (* [soci::session sql(backend, options)] *)

(** [ReconnectionStrategyFactory]: used through [create()] only, whose
    strategy goes straight into the failover callback; a handle. *)
Inductive ReconnectionStrategyFactory : Type :=
| strategy_factory (id : nat).

(** A node of the logger tree, by the tags that lead to it. *)
Definition LoggerManagerTree : Type := list string.
Definition getChild (log_manager : LoggerManagerTree) (tag : string)
  : LoggerManagerTree := (log_manager ++ [tag])%list.
Definition getLogger (log_manager : LoggerManagerTree) : list string :=
log_manager.

(** The levels of the logger. *)
Inductive level : Type := lvl_debug | lvl_warn | lvl_error.

(** What the code asks of the driver and of the objects around it, the
    logger among them.  These are the places where the world outside has a
    say.  Building the callback holder or a string in memory is taken to
    succeed; building the pool object is not, see [pool_error]. *)
Inductive call : Type :=
| Open (s : session) (options : string)
| Lease
| Query (s : session) (statement : string) (use : list string)
| Exec (s : session) (statement : string)
| SetNoticeProcessor (s : session) (logger : list string)
| MakeFailoverCallback (s : session) (options : string)
    (factory : ReconnectionStrategyFactory) (logger : list string)
| SetFailoverCallback (s : session)
| PrepareStatements (s : session)
| Log (lv : level) (logger : list string) (text : string).

(** What comes back: completion, one fetched number, or an exception. *)
Inductive reply : Type :=
| Done
| Row (z : Z)
| Fault (e : exception).

(** The world outside the program: the server, the network and the driver
    with a state [W] of their own, answering each call; the widths of the
    two permission bit sets; the value an uninitialised [int] holds; the
    exception with which the constructor of [soci::connection_pool]
    refuses the size 0; and what building a pool of a size other than 0
    throws, if anything (the sessions of the pool are allocated, its mutex
    and condition variable set up). *)
Record Environment : Type := {
  W : Type;
  respond : call -> W -> reply * W;
  RolePermissionSet_size : nat;
  GrantablePermissionSet_size : nat;
  indeterminate : Z;
  invalid_pool_size : exception;
  pool_allocation : nat -> W -> option exception
}.

(** What [std::make_shared<soci::connection_pool>(pool_size)] throws, if
    anything: the constructor refuses the size 0, and for another size it
    is the allocation that decides. *)
Definition pool_error (D : Environment) (pool_size : nat) (w : W D)
  : option exception :=
match pool_size with
| O => Some (invalid_pool_size D)
| S _ => pool_allocation D pool_size w
end.

(** How a run ends: with a value, with an exception in flight, or with the
    process aborted by a failed [assert]. *)
Inductive outcome (A : Type) : Type :=
| Normal (a : A)
| Thrown (e : exception)
| Aborted.

Arguments Normal {A} _.
Arguments Thrown {A} _.
Arguments Aborted {A}.

Section Monad.

Variable D : Environment.

(** The state a run threads: the world, and the function-local [static]
    counter [connection_index]. *)
Record state : Type := mkState {
  world : W D;
  connection_index : nat
}.

(** A run: how it ended, the calls it made with their replies, in order,
    and the state it left. *)
Record run (A : Type) : Type := mkRun {
  result : outcome A;
  events : list (call * reply);
  after : state
}.

Definition M (A : Type) : Type := state -> run A.

Definition ret {A : Type} (a : A) : M A := fun st => mkRun A (Normal a) [] st.

Definition bind {A B : Type} (m : M A) (k : A -> M B) : M B :=
fun st =>
  match m st with
  | mkRun _ (Normal a) evs st' =>
      match k a st' with
      | mkRun _ o evs' st'' => mkRun B o (evs ++ evs')%list st''
      end
  | mkRun _ (Thrown e) evs st' => mkRun B (Thrown e) evs st'
  | mkRun _ Aborted evs st' => mkRun B Aborted evs st'
  end.

Definition throw {A : Type} (e : exception) : M A :=
fun st => mkRun A (Thrown e) [] st.

(** [try { body } catch (const std::exception &e) { handler }] *)
Definition try_catch {A : Type} (body : M A) (handler : exception -> M A)
  : M A :=
fun st =>
  match body st with
  | mkRun _ (Thrown e) evs st' =>
      match handler e st' with
      | mkRun _ o evs' st'' => mkRun A o (evs ++ evs')%list st''
      end
  | other => other
  end.

(** [assert(condition)] *)
Definition assert (condition : bool) : M unit :=
fun st => mkRun unit (if condition then Normal tt else Aborted) [] st.

End Monad.

Arguments world {D} _.
Arguments connection_index {D} _.
Arguments mkState {D} _ _.
Arguments result {D A} _.
Arguments events {D A} _.
Arguments after {D A} _.
Arguments mkRun {D A} _ _ _.
Arguments ret {D A} _ _.
Arguments bind {D A B} _ _ _.
Arguments throw {D A} _ _.
Arguments try_catch {D A} _ _ _.
Arguments assert {D} _ _.

Notation "x <- m ;; k" := (bind m (fun x => k))
  (at level 61, m at next level, right associativity).
Notation "m ;; k" := (bind m (fun _ => k))
  (at level 61, right associativity).

Section Program.

Variable D : Environment.

(** A call that reaches the driver: the world answers, the call and its
    reply are recorded, and a fault is thrown as the exception it is. *)
Definition ask (c : call) : M D reply :=
fun st =>
  let (r, w) := respond D c (world st) in
  mkRun (Normal r) [(c, r)] (mkState w (connection_index st)).

Definition driver (c : call) : M D reply :=
r <- ask c ;;
match r with
| Fault e => throw e
| _ => ret r
end.

(** A call that stays inside the process (a setter of an object in memory,
    a line handed to the logger): recorded, never failing, the world
    untouched. *)
Definition local (c : call) : M D unit :=
fun st => mkRun (Normal tt) [(c, Done)] st.

(** [soci::into(variable)]: a fetched row overwrites the variable, no row
    leaves it as it was. *)
Definition into (variable : Z) (r : reply) : Z :=
match r with
| Row z => z
| _ => variable
end.

(** [logger->debug(...)], [logger->warn(...)] *)
Definition log_at (lv : level) (logger : list string) (text : string)
  : M D unit :=
local (Log lv logger text).

(** [connection_index++] on the [static] counter. *)
Definition post_increment_connection_index : M D nat :=
fun st =>
  mkRun (Normal (connection_index st)) []
    (mkState (world st) (S (connection_index st))).

(** [for (size_t i = first; ...; i++) body(i)], [count] rounds. *)
Fixpoint for_loop (i count : nat) (body : nat -> M D unit) : M D unit :=
match count with
| O => ret tt
| S rest => body i ;; for_loop (S i) rest body
end.

(* ===================================================================== *)
(** ** main/impl/pg_connection_init.cpp *)
(* ===================================================================== *)

(** [processPqNotice(arg, message)]: the notice processor attached to every
    session; [arg] is the logger. *)
Definition processPqNotice (arg : list string) (message : string) : M D unit :=
log_at lvl_debug arg (fmt "{}" (formatPostgresMessage message)).

(** [soci::connection_pool]: a fixed number of session slots, addressed by
    position.  The positions the code uses are those of its own loops. *)
Record connection_pool : Type := make_connection_pool { pool_size_of : nat }.

Definition at_ (pool : connection_pool) (i : nat) : session := pool_at i.

(** [std::make_shared<soci::connection_pool>(pool_size)]: the pool object,
    or the exception of its constructor.  No call is made on a session. *)
Definition make_shared_connection_pool (pool_size : nat)
  : M D connection_pool :=
fun st =>
  match pool_error D pool_size (world st) with
  | Some e => throw e st
  | None => ret (make_connection_pool pool_size) st
  end.

(** [PgConnectionInit::initPostgresConnection(options_str, pool_size)].
    The pool object is built before the [try] block, so that an exception
    of its constructor leaves the function.  The [return] of the pool
    follows the [try] block in the source; it cannot throw, so it is
    written as the last step of the body. *)
Definition initPostgresConnection (options_str : string) (pool_size : nat)
  : M D (Result connection_pool string) :=
pool <- make_shared_connection_pool pool_size ;;
try_catch
  (for_loop 0 pool_size
     (fun i =>
        let session := at_ pool i in
        driver (Open session options_str) ;; ret tt) ;;
   ret (of_value (makeValue pool)))
  (fun e => ret (of_error (makeError (formatPostgresMessage (what e))))).

(** [PgConnectionInit::preparedTransactionsAvailable(sql)] *)
Definition preparedTransactionsAvailable (sql : session) : M D bool :=
let prepared_txs_count := 0%Z in
try_catch
  (r <- driver (Query sql "SHOW max_prepared_transactions;" []) ;;
   let prepared_txs_count := into prepared_txs_count r in
   ret (negb (prepared_txs_count =? 0)%Z))
  (fun e => ret false).

(** [PgConnectionInit::rollbackPrepared(sql, prepared_block_name)] *)
Definition rollbackPrepared (sql : session) (prepared_block_name : string)
  : M D (Result unit string) :=
try_catch
  (driver (Exec sql ("ROLLBACK PREPARED '" ++ prepared_block_name ++ "';")) ;;
   ret (of_value (makeValue tt)))
  (fun e => ret (of_error (makeError (formatPostgresMessage (what e))))).

(** [PgConnectionInit::createDatabaseIfNotExist(dbname,
    options_str_without_dbname)] *)
Definition createDatabaseIfNotExist (dbname options_str_without_dbname : string)
  : M D (Result bool string) :=
try_catch
  (let sql := standalone in
   driver (Open sql options_str_without_dbname) ;;
   let size := indeterminate D in
   let name := dbname in
   r <- driver (Query sql
          "SELECT count(datname) FROM pg_catalog.pg_database WHERE datname = :dbname"
          [name]) ;;
   let size := into size r in
   if (size =? 0)%Z then
     let query := "CREATE DATABASE " in
     let query := query ++ dbname in
     driver (Exec sql query) ;;
     ret (of_value (makeValue true))
   else ret (of_value (makeValue false)))
  (fun e =>
     ret (of_error (makeError
            ("Connection to PostgreSQL broken: "
               ++ formatPostgresMessage (what e))))).

(** [[](auto &) {}], the hook that does nothing. *)
Definition no_hook (sess : session) : M D unit := ret tt.

(** The lambda [initialize_session] of [initializeConnectionPool]; [log] is
    the logger it captures.  [PQsetNoticeProcessor] attaches
    [processPqNotice] with that logger to the connection. *)
Definition initialize_session (log : list string) (sess : session)
    (on_init_db on_init_connection : session -> M D unit) : M D unit :=
local (SetNoticeProcessor sess log) ;;
on_init_connection sess ;;
on_init_db sess ;;
driver (PrepareStatements sess) ;;
ret tt.

(** The lambda [init_db]: "special actions which should be execute once". *)
Definition init_db (try_rollback : session -> M D unit)
    (prepare_tables_sql : string) (sess : session) : M D unit :=
try_rollback sess ;;
driver (Exec sess prepare_tables_sql) ;;
ret tt.

(** The local variable [log] of [initializeConnectionPool], as a closure
    that holds a reference to it finds it when it runs: the logger, while
    [initializeConnectionPool] has not returned; after that the variable
    is gone, the language does not define what reading it gives, and
    [remains] stands for whatever is found. *)
Inductive frame : Type :=
| alive (log : list string)
| gone (remains : list string).

Definition read_log (f : frame) : list string :=
match f with
| alive log => log
| gone remains => remains
end.

(** The lambda [restore_session], handed to every failover callback.  It
    holds a copy of the closure [initialize_session], which captured [log]
    by reference: the logger it attaches is what that reference reads when
    the callback runs it. *)
Definition restore_session (log : frame) (s : session) : M D unit :=
initialize_session (read_log log) s no_hook no_hook.

(** The lambda [init_failover_callback]: "actions which should be invoked
    once for each session".  The callback made is given [restore_session],
    the reconnection options, a strategy from the factory and a child
    logger named by the counter. *)
Definition init_failover_callback
    (reconnection_strategy_factory : ReconnectionStrategyFactory)
    (pg_reconnection_options : string) (log_manager : LoggerManagerTree)
    (sess : session) : M D unit :=
index <- post_increment_connection_index ;;
driver (MakeFailoverCallback sess pg_reconnection_options
          reconnection_strategy_factory
          (getLogger (getChild log_manager
                        ("SOCI connection " ++ to_string index)))) ;;
local (SetFailoverCallback sess).

(** [FailoverCallbackHolder]: the object that owns the callbacks made. *)
Inductive FailoverCallbackHolder : Type := make_FailoverCallbackHolder.

(** [PgConnectionInit::initializeConnectionPool(...)]; after the assertion
    the loop from 1 makes [pool_size - 1] rounds. *)
Definition initializeConnectionPool (connection_pool_ : connection_pool)
    (pool_size : nat) (prepare_tables_sql : string)
    (try_rollback : session -> M D unit)
    (callback_factory : FailoverCallbackHolder)
    (reconnection_strategy_factory : ReconnectionStrategyFactory)
    (pg_reconnection_options : string) (log_manager : LoggerManagerTree)
  : M D unit :=
let log := getLogger log_manager in
let init_failover_callback_ :=
  init_failover_callback reconnection_strategy_factory
    pg_reconnection_options log_manager in
assert (0 <? pool_size)%nat ;;
initialize_session log (at_ connection_pool_ 0)
  (init_db try_rollback prepare_tables_sql) init_failover_callback_ ;;
for_loop 1 (pool_size - 1)
  (fun i =>
     let sess := at_ connection_pool_ i in
     initialize_session log sess no_hook init_failover_callback_).

(** Modelled from the spec: [PostgresOptions], whose class is declared
    outside the sources: "target database name, full connection string,
    connection string without database name". *)
Record PostgresOptions : Type := {
  optionsString : string;
  optionsStringWithoutDbName : string;
  dbname : string
}.

(** Modelled from the spec: [PoolWrapper], whose struct is declared outside
    the sources: it "owns the ConnectionPool, the collection of
    FailoverCallbacks, and a boolean flag", in the order of the constructor
    call in [prepareConnectionPool]. *)
Record PoolWrapper : Type := {
  connection_pool_of : connection_pool;
  failover_callback_holder_of : FailoverCallbackHolder;
  enable_prepared_transactions_of : bool
}.

(** The lambda [try_rollback] of [prepareConnectionPool], with the three
    variables it captures. *)
Definition try_rollback (enable_prepared_transactions : bool)
    (prepared_block_name : string) (log_manager : LoggerManagerTree)
    (sess : session) : M D unit :=
if enable_prepared_transactions then
  r <- rollbackPrepared sess prepared_block_name ;;
  match_ r
    (fun v => ret tt)
    (fun e =>
       log_at lvl_warn (getLogger log_manager)
         (fmt "rollback on creation has failed: {}" (error e)))
else ret tt.

(** [PgConnectionInit::prepareConnectionPool(reconnection_strategy_factory,
    options, pool_size, log_manager)].  [pool_size] is an [int], converted
    where a [size_t] is asked for.  The call of [initPostgresConnection]
    and the lease of the scratch session stand outside the [try] block:
    an exception of either leaves the function. *)
Definition prepareConnectionPool
    (reconnection_strategy_factory : ReconnectionStrategyFactory)
    (options : PostgresOptions) (pool_size : Z)
    (log_manager : LoggerManagerTree) : M D (Result PoolWrapper string) :=
let options_str := optionsString options in
conn <- initPostgresConnection options_str (to_size_t pool_size) ;;
match conn with
| of_error e => ret (of_error e)
| of_value v =>
    let connection := value v in
    driver Lease ;;
    let sql := leased in
    enable_prepared_transactions <- preparedTransactionsAvailable sql ;;
    try_catch
      (let prepared_block_name := "prepared_block" ++ dbname options in
       let failover_callback_factory := make_FailoverCallbackHolder in
       initializeConnectionPool connection (to_size_t pool_size)
         (init_ (RolePermissionSet_size D) (GrantablePermissionSet_size D))
         (try_rollback enable_prepared_transactions prepared_block_name
            log_manager)
         failover_callback_factory reconnection_strategy_factory
         (optionsStringWithoutDbName options) log_manager ;;
       ret (of_value (makeValue
              {| connection_pool_of := connection;
                 failover_callback_holder_of := failover_callback_factory;
                 enable_prepared_transactions_of :=
                   enable_prepared_transactions |})))
      (fun e => ret (of_error (makeError (what e))))
end.

End Program.

Arguments ask {D} _ _.
Arguments driver {D} _ _.
Arguments local {D} _ _.
Arguments log_at {D} _ _ _ _.

(* ===================================================================== *)
(** ** A small server to run the code against *)
(* ===================================================================== *)

Module Sample.

(** The server keeps its databases, the prepared transactions left behind,
    and its setting [max_prepared_transactions]. *)
Record server : Type := {
  databases : list string;
  prepared_transactions : list string;
  max_prepared_transactions : Z
}.

Fixpoint strip_prefix (p s : string) : option string :=
match p, s with
| EmptyString, _ => Some s
| String a p', String b s' =>
    if Ascii.eqb a b then strip_prefix p' s' else None
| String _ _, EmptyString => None
end.

Definition mem (x : string) (l : list string) : bool :=
existsb (String.eqb x) l.

Definition remove (x : string) (l : list string) : list string :=
filter (fun y => negb (String.eqb x y)) l.

(** A message of the server ends its line. *)
Definition line (s : string) : string := s ++ String LF EmptyString.

Definition fault (s : string) : reply := Fault (std_exception (line s)).

(** One statement without result set. *)
Definition execute (statement : string) (w : server) : reply * server :=
match strip_prefix "CREATE DATABASE " statement with
| Some name =>
    if mem name (databases w)
    then (fault "ERROR:  database already exists", w)
    else (Done, {| databases := name :: databases w;
                   prepared_transactions := prepared_transactions w;
                   max_prepared_transactions := max_prepared_transactions w |})
| None =>
    match strip_prefix "ROLLBACK PREPARED " statement with
    | Some _ =>
        match find (fun n => String.eqb statement
                               ("ROLLBACK PREPARED '" ++ n ++ "';"))
                (prepared_transactions w) with
        | Some n =>
            (Done, {| databases := databases w;
                      prepared_transactions :=
                        remove n (prepared_transactions w);
                      max_prepared_transactions :=
                        max_prepared_transactions w |})
        | None =>
            (fault "ERROR:  prepared transaction with this identifier does not exist", w)
        end
    | None => (Done, w)
    end
end.

(** The answers of a server that accepts the option strings [valid].  The
    machine of the sample runs has memory for the pools they ask for. *)
Definition answer (valid : string -> bool) (c : call) (w : server)
  : reply * server :=
match c with
| Open _ options =>
    if valid options then (Done, w)
    else (fault "FATAL:  role does not exist", w)
| Query _ "SHOW max_prepared_transactions;" _ =>
    (Row (max_prepared_transactions w), w)
| Query _ _ (name :: _) =>
    (Row (Z.of_nat (length (filter (String.eqb name) (databases w)))), w)
| Exec _ statement => execute statement w
| _ => (Done, w)
end.

Definition env (valid : string -> bool) : Environment :=
{| W := server;
   respond := answer valid;
   RolePermissionSet_size := 48;
   GrantablePermissionSet_size := 5;
   indeterminate := 0;
   invalid_pool_size := std_exception "Invalid pool size";
   pool_allocation := fun _ _ => None |}.

(** A fresh process facing the server [w]. *)
Definition start (valid : string -> bool) (w : server) : state (env valid) :=
mkState (D := env valid) w 0.

Definition fresh_server : server :=
{| databases := ["postgres"];
   prepared_transactions := [];
   max_prepared_transactions := 100 |}.

Definition admin_options : string := "host=localhost port=5432 user=postgres".

Definition sample_options : PostgresOptions :=
{| optionsString := admin_options ++ " dbname=d1a2b3c4";
   optionsStringWithoutDbName := admin_options;
   dbname := "d1a2b3c4" |}.

Definition valid_options (options : string) : bool :=
mem options [admin_options; optionsString sample_options].

End Sample.

Module Scripted.

(** A driver without memory that fails every call picked by [bad] with
    the message [message]; a query that succeeds fetches [row]. *)
Definition answer (bad : call -> bool) (message : string) (row : Z)
    (c : call) (w : unit) : reply * unit :=
if bad c then (Fault (std_exception message), w)
else match c with
     | Query _ _ _ => (Row row, w)
     | _ => (Done, w)
     end.

Definition env (bad : call -> bool) (message : string) (row : Z)
  : Environment :=
{| W := unit;
   respond := answer bad message row;
   RolePermissionSet_size := 48;
   GrantablePermissionSet_size := 5;
   indeterminate := 0;
   invalid_pool_size := std_exception "Invalid pool size";
   pool_allocation := fun _ _ => None |}.

Definition start (bad : call -> bool) (message : string) (row : Z)
  : state (env bad message row) :=
mkState (D := env bad message row) tt 0.

Definition is_lease (c : call) : bool :=
match c with Lease => true | _ => false end.

Definition is_exec (c : call) : bool :=
match c with Exec _ _ => true | _ => false end.

Definition is_prepare (c : call) : bool :=
match c with PrepareStatements _ => true | _ => false end.

End Scripted.

(* ===================================================================== *)
(** ** Reading a run *)
(* ===================================================================== *)

Definition is_fault (r : reply) : bool :=
match r with Fault _ => true | _ => false end.

(** No call of [evs] was answered with a fault. *)
Definition faultless (evs : list (call * reply)) : bool :=
forallb (fun ev => negb (is_fault (snd ev))) evs.

(** The statements executed, with the session of each. *)
Fixpoint execs (evs : list (call * reply)) : list (session * string) :=
match evs with
| [] => []
| (Exec s statement, _) :: rest => (s, statement) :: execs rest
| _ :: rest => execs rest
end.

(** The sessions whose prepared statements were compiled. *)
Fixpoint prepared (evs : list (call * reply)) : list session :=
match evs with
| [] => []
| (PrepareStatements s, _) :: rest => s :: prepared rest
| _ :: rest => prepared rest
end.

(** What the capability probe makes of the reply to its query. *)
Definition reports_support (r : reply) : bool :=
match r with
| Row z => negb (z =? 0)%Z
| _ => false
end.

(** [starts_with p s]: the text [s] begins with [p]. *)
Fixpoint starts_with (p s : string) : bool :=
match p, s with
| EmptyString, _ => true
| String a p', String b s' => Ascii.eqb a b && starts_with p' s'
| String _ _, EmptyString => false
end.

(** The call that rolls a prepared transaction back. *)
Definition is_rollback (c : call) : bool :=
match c with
| Exec _ statement => starts_with "ROLLBACK PREPARED '" statement
| _ => false
end.

Definition not_rollback (c : call) : Prop := is_rollback c = false.
Definition rolls_back (c : call) : Prop := is_rollback c = true.

(** The outcome a driver call has on a given reply. *)
Definition outcome_of_reply (r : reply) : outcome reply :=
match r with
| Fault e => Thrown e
| _ => Normal r
end.

(* ===================================================================== *)
(** ** Sample runs *)
(* ===================================================================== *)

Module Runs.

(** The server after a crash between prepare and commit: the prepared
    transaction of the sample database is still there. *)
Definition crashed_server : Sample.server :=
{| Sample.databases := ["d1a2b3c4"; "postgres"];
   Sample.prepared_transactions := ["prepared_blockd1a2b3c4"];
   Sample.max_prepared_transactions := 100 |}.

(** Options that name a role the server does not know. *)
Definition bad_options : PostgresOptions :=
{| optionsString := "host=localhost port=5432 users=nonexistinguser dbname=test";
   optionsStringWithoutDbName := "host=localhost port=5432 users=nonexistinguser";
   dbname := "test" |}.

Definition E : Environment := Sample.env Sample.valid_options.

(** [prepareConnectionPool] for the sample database, from a fresh process
    facing the server [w]. *)
Definition pool_of (options : PostgresOptions) (pool_size : Z)
    (w : Sample.server) : run E (Result PoolWrapper string) :=
prepareConnectionPool E (strategy_factory 0) options pool_size ["Storage"]
  (Sample.start Sample.valid_options w).

(** [initializeConnectionPool] alone, with two-phase commit enabled. *)
Definition construction_of (pool_size : nat) (w : Sample.server)
  : run E unit :=
initializeConnectionPool E (make_connection_pool pool_size) pool_size
  (init_ 48 5)
  (try_rollback E true "prepared_blockd1a2b3c4" ["Storage"])
  make_FailoverCallbackHolder (strategy_factory 0) Sample.admin_options
  ["Storage"] (Sample.start Sample.valid_options w).

(** A message of two lines. *)
Definition two_lines : string :=
Sample.line "ERROR:  permission denied" ++ "DETAIL:  schema public".

(** A driver that loses the connection when the scratch session is
    leased, and one that fails to compile the prepared statements. *)
Definition L : Environment := Scripted.env Scripted.is_lease "connection lost" 1.
Definition P : Environment := Scripted.env Scripted.is_prepare two_lines 1.

(** A message with a horizontal tab in it. *)
Definition tab_message : string :=
String "a" (String "009" (String "b" EmptyString)).

(** A driver that fails every statement with [tab_message]. *)
Definition F : Environment := Scripted.env Scripted.is_exec tab_message 1.


End Runs.

(* ===================================================================== *)
(** ** Properties of runs *)
(* ===================================================================== *)

(** The calls that open the slots [first], ..., [first + count - 1]. *)
Definition opens (options_str : string) (first count : nat) : list call :=
map (fun i => Open (pool_at i) options_str) (seq first count).

(** The statements [init_db] executes: the rollback when two-phase commit
    is there, then the schema text; both on the session it is given. *)
Definition database_init (enable : bool) (name prepare_tables_sql : string)
    (sess : session) : list (session * string) :=
((if enable
 then [(sess, ("ROLLBACK PREPARED '" ++ name ++ "';")%string)]
 else [])
++ [(sess, prepare_tables_sql)])%list.

(** The error and the catalog query of [createDatabaseIfNotExist]. *)
Definition broken (e : exception) : Result bool string :=
of_error (makeError
  ("Connection to PostgreSQL broken: " ++ formatPostgresMessage (what e))%string).

Definition count_datname (name : string) : call :=
Query standalone
  "SELECT count(datname) FROM pg_catalog.pg_database WHERE datname = :dbname"
  [name].

(** [warns logger l ev]: if [ev] is a rollback answered with a fault, the
    calls [l] hold the warning about it, written to [logger]. *)
Definition warns (logger : list string) (l : list (call * reply))
    (ev : call * reply) : Prop :=
forall e : exception,
  snd ev = Fault e -> is_rollback (fst ev) = true ->
  In (Log lvl_warn logger
        ("rollback on creation has failed: "
           ++ formatPostgresMessage (what e))%string, Done) l.

(** [sound D P Q m]: a run of [m] never aborts; an exception it ends with is
    the fault some call of the run was answered with, a call that satisfies
    [P]; and when it returns, the calls of the run that were answered with
    a fault all satisfy [Q]. *)
Definition sound (D : Environment) {A : Type} (P Q : call -> Prop)
    (m : M D A) : Prop :=
forall st : state D,
  match result (m st) with
  | Normal _ => forall c e, In (c, Fault e) (events (m st)) -> Q c
  | Thrown e => exists c : call, In (c, Fault e) (events (m st)) /\ P c
  | Aborted => False
  end.

(** [every D R m]: each call of a run of [m], with its reply, stands in [R]
    to the calls of that run.  [R] is [extensible] when it survives calls
    added before and after. *)
Definition every (D : Environment) {A : Type}
    (R : list (call * reply) -> call * reply -> Prop) (m : M D A) : Prop :=
forall (st : state D) (ev : call * reply),
  In ev (events (m st)) -> R (events (m st)) ev.

Definition extensible (R : list (call * reply) -> call * reply -> Prop)
  : Prop :=
forall l1 l l2 ev, R l ev -> R (l1 ++ l ++ l2)%list ev.

(** The pool construction [prepareConnectionPool] runs once the probe has
    answered [enable], for the pool [pool]. *)
Definition construction (D : Environment)
    (factory : ReconnectionStrategyFactory) (options : PostgresOptions)
    (pool_size : Z) (log_manager : LoggerManagerTree) (enable : bool)
    (pool : connection_pool) : M D unit :=
initializeConnectionPool D pool (to_size_t pool_size)
  (init_ (RolePermissionSet_size D) (GrantablePermissionSet_size D))
  (try_rollback D enable ("prepared_block" ++ dbname options)%string
     log_manager)
  make_FailoverCallbackHolder factory
  (optionsStringWithoutDbName options) log_manager.



(* ===================================================================== *)
(** ** Chains of results, and further readings of a run *)
(* ===================================================================== *)

(** [r | f1 | f2 | ... | fn] for procedures that take no argument: the
    procedure bind, applied from the left. *)
Fixpoint chain {S T E : Type} (procedures : list (S -> Result T E * S))
    (r : Result T E) (s : S) : Result T E * S :=
match procedures with
| [] => (r, s)
| f :: rest =>
    let (r', s') := operator_bar_procedure r f s in chain rest r' s'
end.

Definition is_log (c : call) : bool :=
match c with Log _ _ _ => true | _ => false end.

(** The calls of a run, those to the logger left out. *)
Definition calls_made (evs : list (call * reply)) : list call :=
filter (fun c => negb (is_log c)) (map fst evs).

(** The failover callbacks asked for: session, reconnection options,
    strategy factory and logger of each. *)
Fixpoint callbacks (evs : list (call * reply))
  : list (session * string * ReconnectionStrategyFactory * list string) :=
match evs with
| [] => []
| (MakeFailoverCallback s options factory logger, _) :: rest =>
    (s, options, factory, logger) :: callbacks rest
| _ :: rest => callbacks rest
end.

(** The calls that bring up slot [i] when the counter stands at [c]; the
    first slot has the database-level initialisation among them. *)
Definition slot_calls (first enable : bool) (name prepare_tables_sql : string)
    (factory : ReconnectionStrategyFactory) (options : string)
    (log_manager : LoggerManagerTree) (i c : nat) : list call :=
([SetNoticeProcessor (pool_at i) (getLogger log_manager);
  MakeFailoverCallback (pool_at i) options factory
    (getLogger (getChild log_manager
                  ("SOCI connection " ++ to_string c)%string));
  SetFailoverCallback (pool_at i)]
 ++ (if first
     then (if enable
           then [Exec (pool_at i)
                   ("ROLLBACK PREPARED '" ++ name ++ "';")%string]
           else [])
          ++ [Exec (pool_at i) prepare_tables_sql]
     else [])
 ++ [PrepareStatements (pool_at i)])%list.

(** The calls that bring up the slots [first], ..., [first + count - 1],
    none of them the first slot of the pool, from the counter [c] on. *)
Fixpoint rest_calls (name prepare_tables_sql : string)
    (factory : ReconnectionStrategyFactory) (options : string)
    (log_manager : LoggerManagerTree) (first count c : nat) : list call :=
match count with
| O => []
| S rest =>
    (slot_calls false false name prepare_tables_sql factory options
       log_manager first c
     ++ rest_calls name prepare_tables_sql factory options log_manager
          (S first) rest (S c))%list
end.

(** The callback asked for slot [i] when the counter stands at [c]. *)
Definition callback_of (factory : ReconnectionStrategyFactory)
    (options : string) (log_manager : LoggerManagerTree) (i c : nat)
  : session * string * ReconnectionStrategyFactory * list string :=
(pool_at i, options, factory,
 getLogger (getChild log_manager ("SOCI connection " ++ to_string c)%string)).

Definition is_open (c : call) : bool :=
match c with Open _ _ => true | _ => false end.

(** The calls of a pool construction that can end it with their exception:
    the making of a callback, the schema text, the prepared statements. *)
Definition initialises (prepare_tables_sql : string) (c : call) : bool :=
match c with
| MakeFailoverCallback _ _ _ _ => true
| PrepareStatements _ => true
| Exec _ statement => String.eqb statement prepare_tables_sql
| _ => false
end.

(** [stops_at D P m]: a run of [m] that ends with an exception in flight
    ends with the call that was answered with it, a call picked by [P]. *)
Definition stops_at (D : Environment) {A : Type} (P : call -> bool)
    (m : M D A) : Prop :=
forall (st : state D) (e : exception),
  result (m st) = Thrown e ->
  exists (before : list (call * reply)) (c : call),
    events (m st) = (before ++ [(c, Fault e)])%list /\ P c = true.

(** The session a call is made on; the lease and the logger have none. *)
Definition session_of (c : call) : option session :=
match c with
| Open s _ => Some s
| Query s _ _ => Some s
| Exec s _ => Some s
| SetNoticeProcessor s _ => Some s
| MakeFailoverCallback s _ _ _ => Some s
| SetFailoverCallback s => Some s
| PrepareStatements s => Some s
| Lease => None
| Log _ _ _ => None
end.

(** A call that stays within a pool of [pool_size] slots: on a slot the
    pool has, on the session leased from it, or on no session. *)
Definition within (pool_size : nat) (c : call) : bool :=
match session_of c with
| Some (pool_at i) => (i <? pool_size)%nat
| Some leased => true
| Some standalone => false
| None => true
end.

Definition on_standalone (c : call) : bool :=
match session_of c with
| Some standalone => true
| _ => false
end.

Definition all_calls (P : call -> bool) (evs : list (call * reply)) : bool :=
forallb (fun ev => P (fst ev)) evs.

(** The number of places of the text [s] at which [p] begins. *)
Fixpoint occurrences (p s : string) : nat :=
match s with
| EmptyString => 0
| String c rest =>
    ((if starts_with p s then 1 else 0) + occurrences p rest)%nat
end.

Definition is_digit (c : ascii) : bool :=
(48 <=? nat_of_ascii c)%nat && (nat_of_ascii c <=? 57)%nat.

(** Whether the character [c] stands in the text [s]. *)
Definition has_char (c : ascii) (s : string) : bool :=
existsb (Ascii.eqb c) (list_ascii_of_string s).

(** A text without a digit in it. *)
Definition digit_free (s : string) : bool :=
negb (existsb is_digit (list_ascii_of_string s)).

(** A text of digits only. *)
Definition all_digits (s : string) : bool :=
forallb is_digit (list_ascii_of_string s).

Fixpoint last_char (s : string) : option ascii :=
match s with
| EmptyString => None
| String c EmptyString => Some c
| String _ rest => last_char rest
end.

(* ===================================================================== *)
(** ** The monad's equations *)
(* ===================================================================== *)

Section Equations.

Variable D : Environment.

Local Open Scope list_scope.

Lemma bind_run (A B : Type) (m : M D A) (k : A -> M D B) (st : state D) :
  bind m k st =
  match result (m st) with
  | Normal a =>
      mkRun (result (k a (after (m st))))
        (events (m st) ++ events (k a (after (m st))))
        (after (k a (after (m st))))
  | Thrown e => mkRun (Thrown e) (events (m st)) (after (m st))
  | Aborted => mkRun Aborted (events (m st)) (after (m st))
  end.
Proof.
  unfold bind. destruct (m st) as [[a | e |] evs st']; simpl; try reflexivity.
  destruct (k a st'); reflexivity.
Qed.

Lemma try_catch_run (A : Type) (body : M D A) (handler : exception -> M D A)
    (st : state D) :
  try_catch body handler st =
  match result (body st) with
  | Thrown e =>
      mkRun (result (handler e (after (body st))))
        (events (body st) ++ events (handler e (after (body st))))
        (after (handler e (after (body st))))
  | _ => body st
  end.
Proof.
  unfold try_catch. destruct (body st) as [[a | e |] evs st']; simpl;
    try reflexivity.
  destruct (handler e st'); reflexivity.
Qed.

Lemma driver_run (c : call) (st : state D) :
  driver c st =
  mkRun (outcome_of_reply (fst (respond D c (world st))))
    [(c, fst (respond D c (world st)))]
    (mkState (snd (respond D c (world st))) (connection_index st)).
Proof.
  unfold driver, ask, bind. destruct (respond D c (world st)) as [r w].
  destruct r; reflexivity.
Qed.

(** A step that returns nothing: the call, then [ret tt]. *)
Lemma driver_unit_run (c : call) (st : state D) :
  (driver c ;; ret tt) st =
  mkRun (match fst (respond D c (world st)) with
         | Fault e => Thrown e
         | _ => Normal tt
         end)
    [(c, fst (respond D c (world st)))]
    (mkState (snd (respond D c (world st))) (connection_index st)).
Proof.
  rewrite bind_run, driver_run. simpl.
  destruct (fst (respond D c (world st))); reflexivity.
Qed.

Lemma faultless_app (l1 l2 : list (call * reply)) :
  faultless (l1 ++ l2) = faultless l1 && faultless l2.
Proof. apply forallb_app. Qed.

Lemma faultless_In (evs : list (call * reply)) (c : call) (e : exception) :
  faultless evs = true -> ~ In (c, Fault e) evs.
Proof.
  unfold faultless. rewrite forallb_forall. intros H Hin.
  specialize (H _ Hin). discriminate H.
Qed.

Lemma execs_app (l1 l2 : list (call * reply)) :
  execs (l1 ++ l2) = execs l1 ++ execs l2.
Proof.
  induction l1 as [| [c r] l1 IH]; simpl; [reflexivity |].
  destruct c; simpl; rewrite ?IH; reflexivity.
Qed.

Lemma prepared_app (l1 l2 : list (call * reply)) :
  prepared (l1 ++ l2) = prepared l1 ++ prepared l2.
Proof.
  induction l1 as [| [c r] l1 IH]; simpl; [reflexivity |].
  destruct c; simpl; rewrite ?IH; reflexivity.
Qed.

(** *** The open loop of [initPostgresConnection] *)

(** The loop either opens every slot in order, or stops at the first slot
    whose opening throws, with that exception in flight. *)
Lemma open_loop_run (options_str : string) (count first : nat)
    (st : state D) :
  let r := for_loop D first count
             (fun i => driver (Open (pool_at i) options_str) ;; ret tt) st in
  (result r = Normal tt
   /\ map fst (events r) = opens options_str first count
   /\ faultless (events r) = true)
  \/ (exists (k : nat) (e : exception) (before : list (call * reply)),
        k < count
        /\ result r = Thrown e
        /\ events r = before ++ [(Open (pool_at (first + k)) options_str, Fault e)]
        /\ map fst before = opens options_str first k
        /\ faultless before = true).
Proof.
  revert first st. induction count as [| count IH]; intros first st.
  - left. repeat split; reflexivity.
  - cbn [for_loop]. rewrite bind_run, driver_unit_run.
    cbn [result events after].
    set (w := respond D (Open (pool_at first) options_str) (world st)).
    specialize (IH (S first) (mkState (snd w) (connection_index st))).
    cbv zeta in IH.
    set (rest := for_loop D (S first) count _ _) in *.
    assert (Hnext :
      let r := mkRun (result rest) ([(Open (pool_at first) options_str, fst w)] ++ events rest) (after rest) in
      is_fault (fst w) = false ->
      (result r = Normal tt
       /\ map fst (events r) = opens options_str first (S count)
       /\ faultless (events r) = true)
      \/ (exists (k : nat) (e : exception) (before : list (call * reply)),
            k < S count
            /\ result r = Thrown e
            /\ events r = before ++ [(Open (pool_at (first + k)) options_str, Fault e)]
            /\ map fst before = opens options_str first k
            /\ faultless before = true)).
    { cbn [result events]. intros Hw.
      destruct IH as [(Hres & Hcalls & Hok)
                     | (k & e & before & Hk & Hres & Hev & Hcalls & Hok)].
      - left. repeat split.
        + exact Hres.
        + unfold opens in *. simpl. rewrite Hcalls. reflexivity.
        + simpl. rewrite Hw, Hok. reflexivity.
      - right. exists (S k), e, ((Open (pool_at first) options_str, fst w) :: before).
        repeat split.
        + lia.
        + exact Hres.
        + rewrite Hev. replace (first + S k) with (S first + k) by lia.
          reflexivity.
        + unfold opens in *. simpl. rewrite Hcalls. reflexivity.
        + simpl. rewrite Hw, Hok. reflexivity. }
    destruct (fst w) as [| z | e] eqn:Hr.
    + apply Hnext. reflexivity.
    + apply Hnext. reflexivity.
    + right. exists 0, e, []. repeat split; try reflexivity; try lia.
      cbn [events]. rewrite Nat.add_0_r. reflexivity.
Qed.


(** *** Projections of a sequence *)

Lemma result_bind (A B : Type) (m : M D A) (k : A -> M D B) (st : state D) :
  result (bind m k st) =
  match result (m st) with
  | Normal a => result (k a (after (m st)))
  | Thrown e => Thrown e
  | Aborted => Aborted
  end.
Proof. rewrite bind_run. destruct (result (m st)); reflexivity. Qed.

Lemma events_bind (A B : Type) (m : M D A) (k : A -> M D B) (st : state D) :
  events (bind m k st) =
  events (m st) ++
  match result (m st) with
  | Normal a => events (k a (after (m st)))
  | _ => []
  end.
Proof.
  rewrite bind_run. destruct (result (m st)); simpl;
    rewrite ?app_nil_r; reflexivity.
Qed.

Lemma after_bind (A B : Type) (m : M D A) (k : A -> M D B) (st : state D) :
  after (bind m k st) =
  match result (m st) with
  | Normal a => after (k a (after (m st)))
  | _ => after (m st)
  end.
Proof. rewrite bind_run. destruct (result (m st)); reflexivity. Qed.

(** *** Who is to blame for an exception *)

Lemma sound_ret (A : Type) (P Q : call -> Prop) (a : A) :
  sound D P Q (ret (D := D) a).
Proof. intros st c e []. Qed.

Lemma sound_bind (A B : Type) (P Q : call -> Prop) (m : M D A)
    (k : A -> M D B) :
  sound D P Q m -> (forall a, sound D P Q (k a)) -> sound D P Q (bind m k).
Proof.
  intros Hm Hk st. specialize (Hm st).
  rewrite result_bind, events_bind.
  destruct (result (m st)) as [a | e |].
  - specialize (Hk a (after (m st))).
    destruct (result (k a (after (m st)))) as [b | e |]; try exact Hk.
    + intros c e Hin. apply in_app_or in Hin. destruct Hin as [Hin | Hin].
      * exact (Hm c e Hin).
      * exact (Hk c e Hin).
    + destruct Hk as (c & Hin & Hc). exists c. split; [| exact Hc].
      apply in_or_app. right. exact Hin.
  - destruct Hm as (c & Hin & Hc). exists c. split; [| exact Hc].
    apply in_or_app. left. exact Hin.
  - exact Hm.
Qed.

Lemma sound_driver (P Q : call -> Prop) (c : call) :
  P c -> sound D P Q (driver c).
Proof.
  intros Hc st. rewrite driver_run. cbn [result events].
  destruct (fst (respond D c (world st))) as [| z | e]; simpl.
  - intros c' e' [H | []]. discriminate H.
  - intros c' e' [H | []]. discriminate H.
  - exists c. split; [left; reflexivity | exact Hc].
Qed.

Lemma sound_local (P Q : call -> Prop) (c : call) :
  sound D P Q (local (D := D) c).
Proof. intros st c' e' [H | []]. discriminate H. Qed.

Lemma sound_for_loop (P Q : call -> Prop) (body : nat -> M D unit) :
  (forall i, sound D P Q (body i)) ->
  forall count first, sound D P Q (for_loop D first count body).
Proof.
  intros Hbody. induction count as [| count IH]; intros first.
  - apply sound_ret.
  - cbn [for_loop]. apply sound_bind; [apply Hbody |]. intros _. apply IH.
Qed.

(** *** What holds of every call of a run *)

Lemma every_ret (A : Type) R (a : A) : every D R (ret (D := D) a).
Proof. intros st ev []. Qed.

Lemma every_bind (A B : Type) R (m : M D A) (k : A -> M D B) :
  extensible R -> every D R m -> (forall a, every D R (k a)) ->
  every D R (bind m k).
Proof.
  intros Hext Hm Hk st ev. rewrite events_bind. intros Hin.
  apply in_app_or in Hin. destruct Hin as [Hin | Hin].
  - specialize (Hext [] (events (m st))). cbn [app] in Hext.
    apply Hext. apply Hm. exact Hin.
  - destruct (result (m st)) as [a | e |]; try contradiction.
    specialize (Hext (events (m st)) (events (k a (after (m st)))) []).
    rewrite app_nil_r in Hext. apply Hext. apply Hk. exact Hin.
Qed.

Lemma every_driver R (c : call) :
  (forall r, R [(c, r)] (c, r)) -> every D R (driver c).
Proof.
  intros Hc st ev. rewrite driver_run. cbn [events].
  intros [<- | []]. apply Hc.
Qed.

Lemma every_local R (c : call) :
  R [(c, Done)] (c, Done) -> every D R (local (D := D) c).
Proof. intros Hc st ev [<- | []]. exact Hc. Qed.

Lemma every_for_loop R (body : nat -> M D unit) :
  extensible R -> (forall i, every D R (body i)) ->
  forall count first, every D R (for_loop D first count body).
Proof.
  intros Hext Hbody. induction count as [| count IH]; intros first.
  - apply every_ret.
  - cbn [for_loop]. apply every_bind; [exact Hext | apply Hbody |].
    intros _. apply IH.
Qed.

End Equations.

(* ===================================================================== *)
(** ** The runs of the functions *)
(* ===================================================================== *)

Section FunctionRuns.

Variable D : Environment.

Local Open Scope list_scope.

Lemma append_empty_r (s : string) : (s ++ "")%string = s.
Proof. induction s as [| c s IH]; simpl; [| rewrite IH]; reflexivity. Qed.

Lemma fmt_placeholder (s : string) : fmt "{}" s = s.
Proof. simpl. apply append_empty_r. Qed.

Lemma fmt_rollback_failed (s : string) :
  fmt "rollback on creation has failed: {}" s
  = ("rollback on creation has failed: " ++ s)%string.
Proof. simpl. rewrite append_empty_r. reflexivity. Qed.

Lemma make_shared_connection_pool_run (pool_size : nat) (st : state D) :
  make_shared_connection_pool D pool_size st
  = match pool_error D pool_size (world st) with
    | Some e => mkRun (Thrown e) [] st
    | None => mkRun (Normal (make_connection_pool pool_size)) [] st
    end.
Proof.
  unfold make_shared_connection_pool.
  destruct (pool_error D pool_size (world st)); reflexivity.
Qed.

(** [initPostgresConnection], once the pool object is built, returns: the
    pool when every slot was opened, the sanitized message of the first
    failure otherwise.  When the pool object is not built, the exception
    of its constructor leaves the function, and no call was made. *)
Lemma initPostgresConnection_run (options_str : string) (pool_size : nat)
    (st : state D) :
  let r := initPostgresConnection D options_str pool_size st in
  (result r = Normal (of_value (makeValue (make_connection_pool pool_size)))
   /\ map fst (events r) = opens options_str 0 pool_size
   /\ faultless (events r) = true)
  \/ (exists (k : nat) (e : exception) (before : list (call * reply)),
        k < pool_size
        /\ result r
           = Normal (of_error (makeError (formatPostgresMessage (what e))))
        /\ events r = before ++ [(Open (pool_at k) options_str, Fault e)]
        /\ map fst before = opens options_str 0 k
        /\ faultless before = true)
  \/ (exists e : exception,
        pool_error D pool_size (world st) = Some e
        /\ r = mkRun (Thrown e) [] st).
Proof.
  cbv zeta. unfold initPostgresConnection, at_.
  rewrite bind_run, make_shared_connection_pool_run.
  destruct (pool_error D pool_size (world st)) as [e |];
    cbn [result events after app].
  { right. right. exists e. split; reflexivity. }
  rewrite try_catch_run, bind_run.
  destruct (open_loop_run D options_str pool_size 0 st)
    as [(Hres & Hcalls & Hok) | (k & e & before & Hk & Hres & Hev & Hcalls & Hok)];
    cbv zeta in *; rewrite Hres; cbn [result events after ret].
  - left. rewrite app_nil_r. repeat split; assumption.
  - right. left. exists k, e, before. rewrite app_nil_r.
    repeat split; assumption.
Qed.

(** The pool object was built exactly when no exception left
    [initPostgresConnection]. *)
Lemma initPostgresConnection_built (options_str : string) (pool_size : nat)
    (st : state D) :
  let r := initPostgresConnection D options_str pool_size st in
  (forall x, result r = Normal x ->
             pool_error D pool_size (world st) = None)
  /\ (pool_error D pool_size (world st) = None ->
      exists x, result r = Normal x)
  /\ result r <> Aborted.
Proof.
  cbv zeta.
  destruct (initPostgresConnection_run options_str pool_size st)
    as [(Hres & _) | [(k & e & before & _ & Hres & _) | (e & He & Hr)]];
    cbv zeta in *.
  - split; [| split].
    + intros x _.
      unfold initPostgresConnection in Hres. rewrite bind_run in Hres.
      rewrite make_shared_connection_pool_run in Hres.
      destruct (pool_error D pool_size (world st));
        [discriminate Hres | reflexivity].
    + intros _. eexists. exact Hres.
    + rewrite Hres. discriminate.
  - split; [| split].
    + intros x _.
      unfold initPostgresConnection in Hres. rewrite bind_run in Hres.
      rewrite make_shared_connection_pool_run in Hres.
      destruct (pool_error D pool_size (world st));
        [discriminate Hres | reflexivity].
    + intros _. eexists. exact Hres.
    + rewrite Hres. discriminate.
  - rewrite Hr. cbn [result]. split; [| split].
    + intros x H. discriminate H.
    + intros H. rewrite H in He. discriminate He.
    + discriminate.
Qed.

Lemma every_make_shared_connection_pool
    (R : list (call * reply) -> call * reply -> Prop) (pool_size : nat) :
  every D R (make_shared_connection_pool D pool_size).
Proof.
  intros st ev. rewrite make_shared_connection_pool_run.
  destruct (pool_error D pool_size (world st)); intros [].
Qed.

Lemma preparedTransactionsAvailable_run (sql : session) (st : state D) :
  let a := respond D (Query sql "SHOW max_prepared_transactions;" []) (world st) in
  preparedTransactionsAvailable D sql st
  = mkRun (Normal (reports_support (fst a)))
      [(Query sql "SHOW max_prepared_transactions;" [], fst a)]
      (mkState (snd a) (connection_index st)).
Proof.
  cbv zeta. unfold preparedTransactionsAvailable.
  rewrite try_catch_run, bind_run, driver_run. cbn [result events after].
  destruct (fst (respond D _ (world st))) as [| z | e]; reflexivity.
Qed.

Lemma rollbackPrepared_run (sql : session) (prepared_block_name : string)
    (st : state D) :
  let c := Exec sql ("ROLLBACK PREPARED '" ++ prepared_block_name ++ "';") in
  let a := respond D c (world st) in
  rollbackPrepared D sql prepared_block_name st
  = mkRun
      (Normal (match fst a with
               | Fault e =>
                   of_error (makeError (formatPostgresMessage (what e)))
               | _ => of_value (makeValue tt)
               end))
      [(c, fst a)]
      (mkState (snd a) (connection_index st)).
Proof.
  cbv zeta. unfold rollbackPrepared.
  rewrite try_catch_run, bind_run, driver_run. cbn [result events after].
  destruct (fst (respond D _ (world st))) as [| z | e]; reflexivity.
Qed.

(** [try_rollback] never throws: a failed rollback leaves a warning. *)
Lemma try_rollback_run (enable : bool) (prepared_block_name : string)
    (log_manager : LoggerManagerTree) (sess : session) (st : state D) :
  let c := Exec sess ("ROLLBACK PREPARED '" ++ prepared_block_name ++ "';") in
  let a := respond D c (world st) in
  try_rollback D enable prepared_block_name log_manager sess st
  = if enable then
      mkRun (Normal tt)
        ((c, fst a) ::
         match fst a with
         | Fault e =>
             [(Log lvl_warn (getLogger log_manager)
                 ("rollback on creation has failed: "
                    ++ formatPostgresMessage (what e)), Done)]
         | _ => []
         end)
        (mkState (snd a) (connection_index st))
    else mkRun (Normal tt) [] st.
Proof.
  cbv zeta. unfold try_rollback. destruct enable; [| reflexivity].
  rewrite bind_run, rollbackPrepared_run. cbn [result events after].
  destruct (fst (respond D _ (world st))) as [| z | e]; try reflexivity.
  unfold match_, log_at, local. cbn [result events after error makeError].
  rewrite fmt_rollback_failed. reflexivity.
Qed.

End FunctionRuns.

Section PoolRuns.

Variable D : Environment.

Local Open Scope list_scope.

Lemma init_failover_callback_run
    (factory : ReconnectionStrategyFactory) (options : string)
    (log_manager : LoggerManagerTree) (sess : session) (st : state D) :
  let c := MakeFailoverCallback sess options factory
             (getLogger (getChild log_manager
                ("SOCI connection " ++ to_string (connection_index st)))) in
  let a := respond D c (world st) in
  init_failover_callback D factory options log_manager sess st
  = mkRun (match fst a with Fault e => Thrown e | _ => Normal tt end)
      ((c, fst a) ::
       match fst a with
       | Fault _ => []
       | _ => [(SetFailoverCallback sess, Done)]
       end)
      (mkState (snd a) (S (connection_index st))).
Proof.
  cbv zeta. unfold init_failover_callback, post_increment_connection_index.
  rewrite bind_run. cbn [result events after].
  rewrite bind_run, driver_run. cbn [result events after world connection_index].
  destruct (fst (respond D _ (world st))) as [| z | e]; reflexivity.
Qed.

(** The four steps of [initialize_session], whatever the two hooks are:
    the notice processor, then [on_init_connection], then [on_init_db],
    then the prepared statements; a step that throws ends the sequence. *)
Lemma initialize_session_run (log : list string) (sess : session)
    (on_init_db on_init_connection : session -> M D unit) (st : state D) :
  let r1 := on_init_connection sess st in
  let r2 := on_init_db sess (after r1) in
  let a := respond D (PrepareStatements sess) (world (after r2)) in
  initialize_session D log sess on_init_db on_init_connection st
  = match result r1 with
    | Normal _ =>
        match result r2 with
        | Normal _ =>
            mkRun (match fst a with Fault e => Thrown e | _ => Normal tt end)
              ((SetNoticeProcessor sess log, Done)
                 :: events r1 ++ events r2
                 ++ [(PrepareStatements sess, fst a)])
              (mkState (snd a) (connection_index (after r2)))
        | Thrown e =>
            mkRun (Thrown e)
              ((SetNoticeProcessor sess log, Done) :: events r1 ++ events r2)
              (after r2)
        | Aborted =>
            mkRun Aborted
              ((SetNoticeProcessor sess log, Done) :: events r1 ++ events r2)
              (after r2)
        end
    | Thrown e =>
        mkRun (Thrown e) ((SetNoticeProcessor sess log, Done) :: events r1)
          (after r1)
    | Aborted =>
        mkRun Aborted ((SetNoticeProcessor sess log, Done) :: events r1)
          (after r1)
    end.
Proof.
  cbv zeta. unfold initialize_session.
  rewrite bind_run. cbn [local result events after].
  rewrite bind_run.
  destruct (result (on_init_connection sess st)) as [[] | e |];
    cbn [result events after]; try reflexivity.
  rewrite bind_run.
  destruct (result (on_init_db sess (after (on_init_connection sess st))))
    as [[] | e |]; cbn [result events after]; try reflexivity.
  rewrite driver_unit_run. cbn [result events after]. reflexivity.
Qed.

(** [restore_session] always reaches the prepared statements. *)
Lemma restore_session_run (log : frame) (s : session) (st : state D) :
  let a := respond D (PrepareStatements s) (world st) in
  restore_session D log s st
  = mkRun (match fst a with Fault e => Thrown e | _ => Normal tt end)
      [(SetNoticeProcessor s (read_log log), Done);
       (PrepareStatements s, fst a)]
      (mkState (snd a) (connection_index st)).
Proof.
  cbv zeta. unfold restore_session. rewrite initialize_session_run.
  reflexivity.
Qed.

Lemma init_db_run (enable : bool) (name : string)
    (log_manager : LoggerManagerTree) (prepare_tables_sql : string)
    (sess : session) (st : state D) :
  let r1 := try_rollback D enable name log_manager sess st in
  let a := respond D (Exec sess prepare_tables_sql) (world (after r1)) in
  init_db D (try_rollback D enable name log_manager) prepare_tables_sql sess st
  = mkRun (match fst a with Fault e => Thrown e | _ => Normal tt end)
      (events r1 ++ [(Exec sess prepare_tables_sql, fst a)])
      (mkState (snd a) (connection_index (after r1))).
Proof.
  cbv zeta. unfold init_db. rewrite bind_run.
  assert (Hres : result (try_rollback D enable name log_manager sess st)
                 = Normal tt).
  { rewrite try_rollback_run. destruct enable; reflexivity. }
  rewrite Hres. rewrite driver_unit_run. reflexivity.
Qed.

Lemma init_db_execs (enable : bool) (name : string)
    (log_manager : LoggerManagerTree) (prepare_tables_sql : string)
    (sess : session) (st : state D) :
  execs (events (init_db D (try_rollback D enable name log_manager)
                   prepare_tables_sql sess st))
  = database_init enable name prepare_tables_sql sess.
Proof.
  rewrite init_db_run. cbn [events]. rewrite execs_app, try_rollback_run.
  unfold database_init. destruct enable; cbn [events execs]; [| reflexivity].
  destruct (fst (respond D _ (world st))); reflexivity.
Qed.

Lemma init_db_prepared (enable : bool) (name : string)
    (log_manager : LoggerManagerTree) (prepare_tables_sql : string)
    (sess : session) (st : state D) :
  prepared (events (init_db D (try_rollback D enable name log_manager)
                      prepare_tables_sql sess st)) = [].
Proof.
  rewrite init_db_run. cbn [events]. rewrite prepared_app, try_rollback_run.
  destruct enable; cbn [events prepared]; [| reflexivity].
  destruct (fst (respond D _ (world st))); reflexivity.
Qed.

Lemma init_failover_callback_execs factory options log_manager sess
    (st : state D) :
  execs (events (init_failover_callback D factory options log_manager sess st))
  = [].
Proof.
  rewrite init_failover_callback_run. cbn [events execs].
  destruct (fst (respond D _ (world st))); reflexivity.
Qed.

Lemma init_failover_callback_prepared factory options log_manager sess
    (st : state D) :
  prepared (events (init_failover_callback D factory options log_manager
                      sess st)) = [].
Proof.
  rewrite init_failover_callback_run. cbn [events prepared].
  destruct (fst (respond D _ (world st))); reflexivity.
Qed.

End PoolRuns.

Section PoolConstruction.

Variable D : Environment.

Local Open Scope list_scope.

Variable factory : ReconnectionStrategyFactory.
Variable options : string.
Variable log_manager : LoggerManagerTree.

(** The hook every fresh session gets for [on_init_connection]. *)
Let attach : session -> M D unit :=
init_failover_callback D factory options log_manager.

Lemma for_loop_execs (body : nat -> M D unit) :
  (forall i st, execs (events (body i st)) = []) ->
  forall count first st, execs (events (for_loop D first count body st)) = [].
Proof.
  intros Hbody. induction count as [| count IH]; intros first st.
  - reflexivity.
  - cbn [for_loop]. rewrite events_bind, execs_app, Hbody.
    destruct (result (body first st)); cbn [app execs]; [apply IH | | ];
      reflexivity.
Qed.

(** A slot other than the first executes no statement of database-level
    initialisation. *)
Lemma other_slot_execs (log : list string) (sess : session) (st : state D) :
  execs (events (initialize_session D log sess (no_hook D) attach st)) = [].
Proof.
  rewrite initialize_session_run. cbv zeta.
  pose proof (init_failover_callback_execs D factory options log_manager
                sess st) as Ha. fold attach in Ha.
  destruct (result (attach sess st)) as [[] | e |];
    cbn [no_hook ret result events after execs]; rewrite ?app_nil_l;
    rewrite ?execs_app, ?Ha; reflexivity.
Qed.

Lemma other_slot_prepared (log : list string) (sess : session) (st : state D) :
  result (initialize_session D log sess (no_hook D) attach st) = Normal tt ->
  prepared (events (initialize_session D log sess (no_hook D) attach st))
  = [sess].
Proof.
  rewrite initialize_session_run. cbv zeta.
  pose proof (init_failover_callback_prepared D factory options log_manager
                sess st) as Ha. fold attach in Ha.
  destruct (result (attach sess st)) as [[] | e |];
    cbn [no_hook ret result events after prepared]; try discriminate.
  intros _. rewrite app_nil_l, prepared_app, Ha. reflexivity.
Qed.

Lemma rest_prepared (log : list string) (pool : connection_pool)
    (count first : nat) (st : state D) :
  let body := fun i => initialize_session D log (at_ pool i) (no_hook D) attach in
  result (for_loop D first count body st) = Normal tt ->
  prepared (events (for_loop D first count body st))
  = map pool_at (seq first count).
Proof.
  cbv zeta. revert first st. induction count as [| count IH]; intros first st.
  - reflexivity.
  - cbn [for_loop]. rewrite result_bind, events_bind, prepared_app.
    pose proof (other_slot_prepared log (at_ pool first) st) as Hp.
    destruct (result (initialize_session D log (at_ pool first) (no_hook D)
                        attach st)) as [[] | e |]; try discriminate.
    intros Hrest. rewrite (Hp eq_refl), (IH _ _ Hrest). reflexivity.
Qed.

Variable enable : bool.
Variable name : string.
Variable prepare_tables_sql : string.

(** The hook the first slot gets for [on_init_db]. *)
Let once : session -> M D unit :=
init_db D (try_rollback D enable name log_manager) prepare_tables_sql.

Lemma first_slot_execs (log : list string) (sess : session) (st : state D) :
  execs (events (initialize_session D log sess once attach st))
  = match result (attach sess st) with
    | Normal _ => database_init enable name prepare_tables_sql sess
    | _ => []
    end.
Proof.
  rewrite initialize_session_run. cbv zeta.
  pose proof (init_failover_callback_execs D factory options log_manager
                sess st) as Ha. fold attach in Ha.
  pose proof (init_db_execs D enable name log_manager prepare_tables_sql sess
                (after (attach sess st))) as Hd. fold once in Hd.
  destruct (result (attach sess st)) as [[] | e |];
    cbn [result events after execs]; rewrite ?Ha; try reflexivity.
  destruct (result (once sess (after (attach sess st)))) as [[] | e |];
    cbn [result events after execs];
    rewrite ?execs_app, ?Ha, ?Hd; cbn [execs app];
    rewrite ?app_nil_r; reflexivity.
Qed.

Lemma first_slot_prepared (log : list string) (sess : session) (st : state D) :
  result (initialize_session D log sess once attach st) = Normal tt ->
  prepared (events (initialize_session D log sess once attach st)) = [sess].
Proof.
  rewrite initialize_session_run. cbv zeta.
  pose proof (init_failover_callback_prepared D factory options log_manager
                sess st) as Ha. fold attach in Ha.
  pose proof (init_db_prepared D enable name log_manager prepare_tables_sql
                sess (after (attach sess st))) as Hd. fold once in Hd.
  destruct (result (attach sess st)) as [[] | e |];
    cbn [result events after]; try discriminate.
  destruct (result (once sess (after (attach sess st)))) as [[] | e |];
    cbn [result events after]; try discriminate.
  intros _. cbn [prepared]. rewrite !prepared_app, Ha, Hd. reflexivity.
Qed.

Lemma assert_true_run (A : Type) (m : M D A) (st : state D) :
  (assert true ;; m) st = m st.
Proof.
  rewrite bind_run. cbn [assert result events after app].
  destruct (m st); reflexivity.
Qed.

Lemma assert_false_run (A : Type) (m : M D A) (st : state D) :
  (assert false ;; m) st = mkRun Aborted [] st.
Proof. rewrite bind_run. reflexivity. Qed.

(** One pool construction: the statements of database-level initialisation
    are executed on slot 0 and nowhere else, all of them or (when the
    construction fails before) none; a construction that succeeds has
    executed them and compiled the prepared statements of every slot. *)
Lemma pool_construction_run (pool : connection_pool) (pool_size : nat)
    (holder : FailoverCallbackHolder) (st : state D) :
  let r := initializeConnectionPool D pool pool_size prepare_tables_sql
             (try_rollback D enable name log_manager) holder factory options
             log_manager st in
  (execs (events r) = []
   \/ execs (events r)
      = database_init enable name prepare_tables_sql (pool_at 0))
  /\ (result r = Normal tt ->
      execs (events r)
      = database_init enable name prepare_tables_sql (pool_at 0)
      /\ prepared (events r) = map pool_at (seq 0 pool_size)).
Proof.
  cbv zeta. unfold initializeConnectionPool. cbv zeta.
  fold attach. fold once.
  destruct pool_size as [| n]; cbn [Nat.ltb Nat.leb].
  { rewrite assert_false_run. split; [left; reflexivity | discriminate]. }
  rewrite assert_true_run.
  rewrite result_bind, events_bind, execs_app, prepared_app.
  change (at_ pool 0) with (pool_at 0). rewrite first_slot_execs.
  pose proof (first_slot_prepared (getLogger log_manager) (pool_at 0) st) as Hp.
  replace (S n - 1) with n by lia.
  set (first := initialize_session D (getLogger log_manager) (pool_at 0) once
                  attach st) in *.
  pose proof (for_loop_execs
                (fun i => initialize_session D (getLogger log_manager)
                            (at_ pool i) (no_hook D) attach)
                (fun i st' => other_slot_execs (getLogger log_manager)
                                (at_ pool i) st')
                n 1 (after first)) as Hrest.
  pose proof (rest_prepared (getLogger log_manager) pool n 1 (after first))
    as Hrp. cbv zeta in Hrp.
  assert (Hattach : result first = Normal tt ->
                    exists u, result (attach (pool_at 0) st) = Normal u).
  { subst first. rewrite initialize_session_run. cbv zeta.
    destruct (result (attach (pool_at 0) st)) as [u | e |]; try discriminate.
    intros _. exists u. reflexivity. }
  split.
  - destruct (result (attach (pool_at 0) st)) as [u | e |].
    + right. destruct (result first) as [[] | e |];
        rewrite ?Hrest; cbn [execs]; rewrite app_nil_r; reflexivity.
    + left. destruct (result first) as [[] | e' |];
        rewrite ?Hrest; reflexivity.
    + left. destruct (result first) as [[] | e' |];
        rewrite ?Hrest; reflexivity.
  - destruct (result first) as [[] | e |] eqn:Hfirst; try discriminate.
    intros Hloop. destruct (Hattach eq_refl) as (u & Hu). rewrite Hu.
    rewrite Hrest, app_nil_r, (Hp eq_refl), (Hrp Hloop).
    split; reflexivity.
Qed.

End PoolConstruction.

Section Blame.

Variable D : Environment.

Local Open Scope list_scope.

Lemma sound_assert (P Q : call -> Prop) (b : bool) :
  b = true -> sound D P Q (assert b).
Proof. intros -> st c e []. Qed.

Lemma sound_try_rollback (P : call -> Prop) enable name log_manager sess :
  sound D P rolls_back (try_rollback D enable name log_manager sess).
Proof.
  intros st. rewrite try_rollback_run.
  destruct enable; cbn [result events]; [| intros c e []].
  intros c e [H | H].
  - injection H as Hc _. subst c. reflexivity.
  - destruct (fst (respond D _ (world st))); [destruct H | destruct H |].
    destruct H as [H | []]. discriminate H.
Qed.

Lemma sound_init_failover_callback factory options log_manager sess :
  sound D not_rollback rolls_back
    (init_failover_callback D factory options log_manager sess).
Proof.
  unfold init_failover_callback. apply sound_bind.
  - intros st c e [].
  - intros index. apply sound_bind; [| intros _; apply sound_local].
    apply sound_driver. reflexivity.
Qed.

Lemma sound_initialize_session (log : list string) (sess : session)
    (on_init_db on_init_connection : session -> M D unit) :
  sound D not_rollback rolls_back (on_init_connection sess) ->
  sound D not_rollback rolls_back (on_init_db sess) ->
  sound D not_rollback rolls_back
    (initialize_session D log sess on_init_db on_init_connection).
Proof.
  intros Hc Hd. unfold initialize_session.
  apply sound_bind; [apply sound_local | intros _].
  apply sound_bind; [exact Hc | intros _].
  apply sound_bind; [exact Hd | intros _].
  apply sound_bind; [| intros _; apply sound_ret].
  apply sound_driver. reflexivity.
Qed.

Lemma sound_init_db enable name log_manager prepare_tables_sql sess :
  starts_with "ROLLBACK PREPARED '" prepare_tables_sql = false ->
  sound D not_rollback rolls_back
    (init_db D (try_rollback D enable name log_manager) prepare_tables_sql
       sess).
Proof.
  intros Hsql. unfold init_db.
  apply sound_bind; [apply sound_try_rollback | intros _].
  apply sound_bind; [| intros _; apply sound_ret].
  apply sound_driver. exact Hsql.
Qed.

(** A pool construction for at least one slot never aborts, and throws
    only what a call other than the rollback was answered with. *)
Lemma sound_initializeConnectionPool pool pool_size prepare_tables_sql
    enable name holder factory options log_manager :
  pool_size <> 0 ->
  starts_with "ROLLBACK PREPARED '" prepare_tables_sql = false ->
  sound D not_rollback rolls_back
    (initializeConnectionPool D pool pool_size prepare_tables_sql
       (try_rollback D enable name log_manager) holder factory options
       log_manager).
Proof.
  intros Hsize Hsql. unfold initializeConnectionPool. cbv zeta.
  apply sound_bind.
  { apply sound_assert. apply Nat.ltb_lt. lia. }
  intros _. apply sound_bind.
  - apply sound_initialize_session.
    + apply sound_init_failover_callback.
    + apply sound_init_db. exact Hsql.
  - intros _. apply sound_for_loop. intros i.
    apply sound_initialize_session.
    + apply sound_init_failover_callback.
    + apply sound_ret.
Qed.

Lemma init_is_not_rollback (a b : nat) :
  starts_with "ROLLBACK PREPARED '" (init_ a b) = false.
Proof. reflexivity. Qed.

End Blame.

Section Orchestration.

Variable D : Environment.

Local Open Scope list_scope.

Variable factory : ReconnectionStrategyFactory.
Variable options : PostgresOptions.
Variable pool_size : Z.
Variable log_manager : LoggerManagerTree.

(** [prepareConnectionPool], stage by stage. *)
Lemma prepareConnectionPool_run (st : state D) :
  let r0 := initPostgresConnection D (optionsString options)
              (to_size_t pool_size) st in
  let al := respond D Lease (world (after r0)) in
  let aq := respond D (Query leased "SHOW max_prepared_transactions;" [])
              (snd al) in
  let enable := reports_support (fst aq) in
  prepareConnectionPool D factory options pool_size log_manager st
  = match result r0 with
    | Normal (of_error e) => mkRun (Normal (of_error e)) (events r0) (after r0)
    | Normal (of_value v) =>
        match fst al with
        | Fault e =>
            mkRun (Thrown e) (events r0 ++ [(Lease, Fault e)])
              (mkState (snd al) (connection_index (after r0)))
        | _ =>
            let body :=
              construction D factory options pool_size log_manager enable
                (value v)
                (mkState (snd aq) (connection_index (after r0))) in
            mkRun
              (match result body with
               | Normal _ =>
                   Normal (of_value (makeValue
                     {| connection_pool_of := value v;
                        failover_callback_holder_of :=
                          make_FailoverCallbackHolder;
                        enable_prepared_transactions_of := enable |}))
               | Thrown e => Normal (of_error (makeError (what e)))
               | Aborted => Aborted
               end)
              (events r0
                 ++ (Lease, fst al)
                 :: (Query leased "SHOW max_prepared_transactions;" [], fst aq)
                 :: events body)
              (after body)
        end
    | Thrown e => mkRun (Thrown e) (events r0) (after r0)
    | Aborted => mkRun Aborted (events r0) (after r0)
    end.
Proof.
  cbv zeta. unfold prepareConnectionPool. cbv zeta. rewrite bind_run.
  set (r0 := initPostgresConnection D (optionsString options)
               (to_size_t pool_size) st).
  destruct (result r0) as [[v | e] | e |]; try reflexivity.
  - rewrite bind_run, driver_run. cbn [result events after].
    set (al := respond D Lease (world (after r0))).
    destruct (fst al) as [| z | e] eqn:Hl; cbn [outcome_of_reply];
      try (rewrite ?app_nil_r; reflexivity).
    all: rewrite bind_run, preparedTransactionsAvailable_run;
      cbn [result events after world connection_index];
      rewrite try_catch_run, bind_run; unfold construction;
      match goal with
      | |- context [result (initializeConnectionPool ?a ?b ?c ?d ?e ?f ?g ?h ?i ?j)] =>
          destruct (initializeConnectionPool a b c d e f g h i j)
            as [[[] | e' |] evs st']
      end; cbn [result events after ret]; rewrite ?app_nil_r; reflexivity.
  - cbn [result events after ret]. rewrite app_nil_r. reflexivity.
Qed.

End Orchestration.

Section OrchestrationFacts.

Variable D : Environment.

Local Open Scope list_scope.

Lemma opens_execs (options_str : string) (evs : list (call * reply)) :
  forall first count,
    map fst evs = opens options_str first count -> execs evs = [].
Proof.
  induction evs as [| [c r] evs IH]; intros first count H; [reflexivity |].
  destruct count as [| count]; [discriminate H |].
  unfold opens in H. cbn [seq map fst] in H. injection H as Hc Hrest.
  subst c. cbn [execs]. exact (IH (S first) count Hrest).
Qed.

Lemma opens_prepared (options_str : string) (evs : list (call * reply)) :
  forall first count,
    map fst evs = opens options_str first count -> prepared evs = [].
Proof.
  induction evs as [| [c r] evs IH]; intros first count H; [reflexivity |].
  destruct count as [| count]; [discriminate H |].
  unfold opens in H. cbn [seq map fst] in H. injection H as Hc Hrest.
  subst c. cbn [prepared]. exact (IH (S first) count Hrest).
Qed.

Lemma In_execs (evs : list (call * reply)) (s : session) (statement : string)
    (r : reply) :
  In (Exec s statement, r) evs -> In (s, statement) (execs evs).
Proof.
  induction evs as [| [c r'] evs IH]; intros Hin; [destruct Hin |].
  destruct Hin as [Heq | Hin].
  - injection Heq as -> _. left. reflexivity.
  - specialize (IH Hin). destruct c; cbn [execs]; try exact IH.
    right. exact IH.
Qed.

(** The events of [initPostgresConnection] hold no executed statement. *)
Lemma initPostgresConnection_execs (options_str : string) (pool_size : nat)
    (st : state D) :
  execs (events (initPostgresConnection D options_str pool_size st)) = [].
Proof.
  destruct (initPostgresConnection_run D options_str pool_size st)
    as [(_ & Hcalls & _)
       | [(k & e & before & _ & _ & Hev & Hcalls & _) | (e & _ & Hr)]];
    cbv zeta in *.
  - exact (opens_execs _ _ _ _ Hcalls).
  - rewrite Hev, execs_app, (opens_execs _ _ _ _ Hcalls). reflexivity.
  - rewrite Hr. reflexivity.
Qed.

Variable factory : ReconnectionStrategyFactory.
Variable options : PostgresOptions.
Variable pool_size : Z.
Variable log_manager : LoggerManagerTree.

(** The statements one [prepareConnectionPool] executes: none, or those of
    the database-level initialisation on slot 0, with the rollback among
    them exactly when the probe, whose query is part of the run, reported
    support. *)
Lemma prepareConnectionPool_execs (st : state D) :
  let r := prepareConnectionPool D factory options pool_size log_manager st in
  execs (events r) = []
  \/ exists q : reply,
       In (Query leased "SHOW max_prepared_transactions;" [], q) (events r)
       /\ execs (events r)
          = database_init (reports_support q)
              ("prepared_block" ++ dbname options)%string
              (init_ (RolePermissionSet_size D)
                 (GrantablePermissionSet_size D))
              (pool_at 0).
Proof.
  cbv zeta. rewrite prepareConnectionPool_run. cbv zeta.
  pose proof (initPostgresConnection_execs (optionsString options)
                (to_size_t pool_size) st) as H0.
  set (r0 := initPostgresConnection D (optionsString options)
               (to_size_t pool_size) st) in *.
  destruct (result r0) as [[v | e] | e |]; cbn [events];
    try (left; exact H0).
  set (al := respond D Lease (world (after r0))).
  set (aq := respond D (Query leased "SHOW max_prepared_transactions;" [])
               (snd al)).
  assert (Hbody :
    let body := construction D factory options pool_size log_manager
                  (reports_support (fst aq)) (value v)
                  (mkState (snd aq) (connection_index (after r0))) in
    execs (events r0 ++ (Lease, fst al)
             :: (Query leased "SHOW max_prepared_transactions;" [], fst aq)
             :: events body) = []
    \/ exists q : reply,
         In (Query leased "SHOW max_prepared_transactions;" [], q)
           (events r0 ++ (Lease, fst al)
              :: (Query leased "SHOW max_prepared_transactions;" [], fst aq)
              :: events body)
         /\ execs (events r0 ++ (Lease, fst al)
                     :: (Query leased "SHOW max_prepared_transactions;" [],
                         fst aq)
                     :: events body)
            = database_init (reports_support q)
                ("prepared_block" ++ dbname options)%string
                (init_ (RolePermissionSet_size D)
                   (GrantablePermissionSet_size D))
                (pool_at 0)).
  { cbv zeta. rewrite execs_app, H0. cbn [execs app].
    unfold construction.
    destruct (pool_construction_run D factory
                (optionsStringWithoutDbName options) log_manager
                (reports_support (fst aq))
                ("prepared_block" ++ dbname options)%string
                (init_ (RolePermissionSet_size D)
                   (GrantablePermissionSet_size D))
                (value v) (to_size_t pool_size) make_FailoverCallbackHolder
                (mkState (snd aq) (connection_index (after r0))))
      as [[Hnone | Hall] _].
    - left. exact Hnone.
    - right. exists (fst aq). split; [| exact Hall].
      apply in_or_app. right. right. left. reflexivity. }
  destruct (fst al) as [| z | e] eqn:Hl; cbn [events].
  - exact Hbody.
  - exact Hbody.
  - left. rewrite execs_app, H0. reflexivity.
Qed.

End OrchestrationFacts.

Section OrchestrationOutcome.

Variable D : Environment.

Local Open Scope list_scope.

Variable factory : ReconnectionStrategyFactory.
Variable options : PostgresOptions.
Variable pool_size : Z.
Variable log_manager : LoggerManagerTree.

(** What a successful [prepareConnectionPool] went through. *)
Lemma prepareConnectionPool_value (st : state D) (pw : Value PoolWrapper) :
  let r0 := initPostgresConnection D (optionsString options)
              (to_size_t pool_size) st in
  let al := respond D Lease (world (after r0)) in
  let aq := respond D (Query leased "SHOW max_prepared_transactions;" [])
              (snd al) in
  let body := construction D factory options pool_size log_manager
                (reports_support (fst aq))
                (make_connection_pool (to_size_t pool_size))
                (mkState (snd aq) (connection_index (after r0))) in
  let r := prepareConnectionPool D factory options pool_size log_manager st in
  result r = Normal (of_value pw) ->
  result r0
  = Normal (of_value (makeValue (make_connection_pool (to_size_t pool_size))))
  /\ faultless (events r0) = true
  /\ is_fault (fst al) = false
  /\ result body = Normal tt
  /\ pw = makeValue
            {| connection_pool_of := make_connection_pool (to_size_t pool_size);
               failover_callback_holder_of := make_FailoverCallbackHolder;
               enable_prepared_transactions_of := reports_support (fst aq) |}
  /\ events r
     = events r0
         ++ (Lease, fst al)
         :: (Query leased "SHOW max_prepared_transactions;" [], fst aq)
         :: events body.
Proof.
  cbv zeta. rewrite prepareConnectionPool_run. cbv zeta.
  destruct (initPostgresConnection_run D (optionsString options)
              (to_size_t pool_size) st)
    as [(Hres & _ & Hok)
       | [(k & e & before & _ & Hres & _) | (e & _ & Hr0)]];
    cbv zeta in *; try rewrite Hres; cbn [value makeValue].
  - destruct (fst (respond D Lease _)) as [| z | e] eqn:Hl;
      cbn [result events]; try discriminate.
    all: match goal with
         | |- context [result ?b] =>
             destruct (result b) as [[] | e' |] eqn:Hb
         end; try discriminate;
      intros Hpw; injection Hpw as <-;
      repeat split; try assumption; reflexivity.
  - cbn [result]. discriminate.
  - rewrite Hr0. cbn [result]. discriminate.
Qed.

(** A successful [prepareConnectionPool] has run the database-level
    initialisation on slot 0, with the rollback exactly when its flag is
    set, and has compiled the prepared statements of every slot. *)
Lemma prepareConnectionPool_value_statements (st : state D)
    (pw : Value PoolWrapper) :
  let r := prepareConnectionPool D factory options pool_size log_manager st in
  result r = Normal (of_value pw) ->
  execs (events r)
  = database_init (enable_prepared_transactions_of (value pw))
      ("prepared_block" ++ dbname options)%string
      (init_ (RolePermissionSet_size D) (GrantablePermissionSet_size D))
      (pool_at 0)
  /\ prepared (events r) = map pool_at (seq 0 (to_size_t pool_size)).
Proof.
  cbv zeta. intros Hr.
  destruct (prepareConnectionPool_value st pw Hr)
    as (Hr0 & Hok & Hl & Hbody & Hpw & Hev).
  rewrite Hev, Hpw. cbn [value makeValue enable_prepared_transactions_of].
  unfold construction in Hbody |- *.
  destruct (proj2 (pool_construction_run D _ _ _ _ _ _ _ _ _ _) Hbody)
    as [Hexecs Hprepared].
  rewrite execs_app, prepared_app, initPostgresConnection_execs.
  cbn [execs prepared app]. rewrite Hexecs, Hprepared.
  split; [reflexivity |].
  destruct (initPostgresConnection_run D (optionsString options)
              (to_size_t pool_size) st)
    as [(_ & Hcalls & _)
       | [(k & e & before & _ & Hres & _) | (e & _ & Hthrown)]];
    cbv zeta in *.
  - rewrite (opens_prepared _ _ _ _ Hcalls). reflexivity.
  - rewrite Hres in Hr0. discriminate Hr0.
  - rewrite Hthrown in Hr0. discriminate Hr0.
Qed.

End OrchestrationOutcome.

Section Bootstrap.

Variable D : Environment.

Local Open Scope list_scope.

(** [createDatabaseIfNotExist], call by call. *)
Lemma createDatabaseIfNotExist_run (name options_str : string) (st : state D) :
  let a1 := respond D (Open standalone options_str) (world st) in
  let a2 := respond D (count_datname name) (snd a1) in
  let a3 := respond D (Exec standalone ("CREATE DATABASE " ++ name)) (snd a2) in
  let ci := connection_index st in
  createDatabaseIfNotExist D name options_str st
  = match fst a1 with
    | Fault e =>
        mkRun (Normal (broken e)) [(Open standalone options_str, fst a1)]
          (mkState (snd a1) ci)
    | _ =>
        match fst a2 with
        | Fault e =>
            mkRun (Normal (broken e))
              [(Open standalone options_str, fst a1);
               (count_datname name, fst a2)]
              (mkState (snd a2) ci)
        | _ =>
            if (into (indeterminate D) (fst a2) =? 0)%Z then
              match fst a3 with
              | Fault e =>
                  mkRun (Normal (broken e))
                    [(Open standalone options_str, fst a1);
                     (count_datname name, fst a2);
                     (Exec standalone ("CREATE DATABASE " ++ name), fst a3)]
                    (mkState (snd a3) ci)
              | _ =>
                  mkRun (Normal (of_value (makeValue true)))
                    [(Open standalone options_str, fst a1);
                     (count_datname name, fst a2);
                     (Exec standalone ("CREATE DATABASE " ++ name), fst a3)]
                    (mkState (snd a3) ci)
              end
            else
              mkRun (Normal (of_value (makeValue false)))
                [(Open standalone options_str, fst a1);
                 (count_datname name, fst a2)]
                (mkState (snd a2) ci)
        end
    end.
Proof.
  cbv zeta. unfold createDatabaseIfNotExist. cbv zeta.
  fold (count_datname name).
  rewrite try_catch_run, bind_run, driver_run.
  cbn [result events after world connection_index].
  set (a1 := respond D (Open standalone options_str) (world st)).
  destruct (fst a1) as [| z1 | e1]; cbn [outcome_of_reply result events after];
    try reflexivity.
  all: rewrite bind_run, driver_run;
    cbn [result events after world connection_index];
    set (a2 := respond D (count_datname name) (snd a1));
    destruct (fst a2) as [| z2 | e2];
    cbn [outcome_of_reply result events after into]; try reflexivity.
  all: try (destruct (indeterminate D =? 0)%Z);
    try (destruct (z2 =? 0)%Z);
    cbn [ret result events after app]; try reflexivity.
  all: rewrite bind_run, driver_run;
    cbn [result events after world connection_index];
    destruct (fst (respond D _ (snd a2))); reflexivity.
Qed.

End Bootstrap.

Section Warnings.

Variable D : Environment.

Local Open Scope list_scope.

Lemma every_try_catch (A : Type) R (body : M D A)
    (handler : exception -> M D A) :
  extensible R -> every D R body -> (forall e, every D R (handler e)) ->
  every D R (try_catch body handler).
Proof.
  intros Hext Hb Hh st ev. rewrite try_catch_run.
  destruct (result (body st)) as [a | e |] eqn:Hr; try apply Hb.
  cbn [events]. intros Hin. apply in_app_or in Hin.
  destruct Hin as [Hin | Hin].
  - specialize (Hext [] (events (body st))). cbn [app] in Hext.
    apply Hext. apply Hb. exact Hin.
  - specialize (Hext (events (body st))
                  (events (handler e (after (body st)))) []).
    rewrite app_nil_r in Hext. apply Hext. apply Hh. exact Hin.
Qed.

Lemma warns_extensible (logger : list string) : extensible (warns logger).
Proof.
  intros l1 l l2 ev H e He Hrb. apply in_or_app. right.
  apply in_or_app. left. exact (H e He Hrb).
Qed.

Lemma warns_other (logger : list string) (c : call) (r : reply) :
  is_rollback c = false -> warns logger [(c, r)] (c, r).
Proof. intros Hc e _ Hrb. cbn [fst] in Hrb. congruence. Qed.

Lemma warns_done (logger : list string) (c : call) :
  warns logger [(c, Done)] (c, Done).
Proof. intros e He. discriminate He. Qed.

Variable log_manager : LoggerManagerTree.

(** In this section [R] is "a failed rollback has its warning". *)
Let R := warns (getLogger log_manager).

Lemma every_try_rollback enable name sess :
  every D R (try_rollback D enable name log_manager sess).
Proof.
  intros st ev. rewrite try_rollback_run. cbv zeta.
  destruct enable; cbn [events]; [| intros []].
  destruct (fst (respond D _ (world st))) as [| z | e] eqn:Ha.
  - intros [<- | []] e He. discriminate He.
  - intros [<- | []] e He. discriminate He.
  - intros [<- | [<- | []]] e' He.
    + injection He as <-. intros _. right. left. reflexivity.
    + discriminate He.
Qed.

Lemma every_initialize_session (log : list string) (sess : session)
    (on_init_db on_init_connection : session -> M D unit) :
  every D R (on_init_connection sess) -> every D R (on_init_db sess) ->
  every D R (initialize_session D log sess on_init_db on_init_connection).
Proof.
  intros Hc Hd. unfold initialize_session.
  apply every_bind; [apply warns_extensible | | intros _].
  { apply every_local. apply warns_done. }
  apply every_bind; [apply warns_extensible | exact Hc | intros _].
  apply every_bind; [apply warns_extensible | exact Hd | intros _].
  apply every_bind; [apply warns_extensible | | intros _; apply every_ret].
  apply every_driver. intros r. apply warns_other. reflexivity.
Qed.

Lemma every_init_failover_callback factory options sess :
  every D R (init_failover_callback D factory options log_manager sess).
Proof.
  unfold init_failover_callback.
  apply every_bind; [apply warns_extensible | | intros index].
  { intros st ev []. }
  apply every_bind; [apply warns_extensible | | intros _].
  - apply every_driver. intros r. apply warns_other. reflexivity.
  - apply every_local. apply warns_done.
Qed.

Lemma every_initializeConnectionPool pool pool_size prepare_tables_sql
    enable name holder factory options :
  starts_with "ROLLBACK PREPARED '" prepare_tables_sql = false ->
  every D R
    (initializeConnectionPool D pool pool_size prepare_tables_sql
       (try_rollback D enable name log_manager) holder factory options
       log_manager).
Proof.
  intros Hsql. unfold initializeConnectionPool. cbv zeta.
  apply every_bind; [apply warns_extensible | | intros _].
  { intros st ev []. }
  apply every_bind; [apply warns_extensible | | intros _].
  - apply every_initialize_session.
    + apply every_init_failover_callback.
    + unfold init_db.
      apply every_bind;
        [apply warns_extensible | apply every_try_rollback | intros _].
      apply every_bind; [apply warns_extensible | | intros _; apply every_ret].
      apply every_driver. intros r. apply warns_other. exact Hsql.
  - apply every_for_loop; [apply warns_extensible |]. intros i.
    apply every_initialize_session.
    + apply every_init_failover_callback.
    + apply every_ret.
Qed.

(** Every rollback that fails in a run of [prepareConnectionPool] has its
    warning in that run. *)
Lemma every_prepareConnectionPool factory options pool_size :
  every D R (prepareConnectionPool D factory options pool_size log_manager).
Proof.
  unfold prepareConnectionPool. cbv zeta.
  apply every_bind; [apply warns_extensible | | intros [v | e]].
  - unfold initPostgresConnection. cbv zeta.
    apply every_bind;
      [ apply warns_extensible
      | apply every_make_shared_connection_pool
      | intros pool ].
    apply every_try_catch;
      [apply warns_extensible | | intros e; apply every_ret].
    apply every_bind; [apply warns_extensible | | intros _; apply every_ret].
    apply every_for_loop; [apply warns_extensible |]. intros i.
    apply every_bind; [apply warns_extensible | | intros _; apply every_ret].
    apply every_driver. intros r. apply warns_other. reflexivity.
  - apply every_bind; [apply warns_extensible | | intros _].
    { apply every_driver. intros r. apply warns_other. reflexivity. }
    apply every_bind; [apply warns_extensible | | intros enable].
    { unfold preparedTransactionsAvailable.
      apply every_try_catch;
        [apply warns_extensible | | intros e; apply every_ret].
      apply every_bind; [apply warns_extensible | | intros r; apply every_ret].
      apply every_driver. intros r. apply warns_other. reflexivity. }
    apply every_try_catch;
      [apply warns_extensible | | intros e; apply every_ret].
    apply every_bind; [apply warns_extensible | | intros _; apply every_ret].
    apply every_initializeConnectionPool. apply init_is_not_rollback.
  - apply every_ret.
Qed.

End Warnings.

Section Conversion.

Variable D : Environment.

Local Open Scope list_scope.

(** The calls of [initPostgresConnection] open slots of the pool. *)
Lemma initPostgresConnection_calls (options_str : string) (pool_size : nat)
    (st : state D) (c : call) (r : reply) :
  In (c, r) (events (initPostgresConnection D options_str pool_size st)) ->
  exists i : nat, c = Open (pool_at i) options_str.
Proof.
  assert (Hopens : forall evs first count,
             map fst evs = opens options_str first count ->
             In (c, r) evs -> exists i, c = Open (pool_at i) options_str).
  { intros evs first count Hcalls Hin.
    apply (in_map fst) in Hin. rewrite Hcalls in Hin. unfold opens in Hin.
    apply in_map_iff in Hin. destruct Hin as (i & Hi & _).
    exists i. symmetry. exact Hi. }
  destruct (initPostgresConnection_run D options_str pool_size st)
    as [(_ & Hcalls & _)
       | [(k & e & before & _ & _ & Hev & Hcalls & _) | (e & _ & Hr)]];
    cbv zeta in *.
  - apply (Hopens _ _ _ Hcalls).
  - rewrite Hev. intros Hin. apply in_app_or in Hin.
    destruct Hin as [Hin | [Heq | []]].
    + exact (Hopens _ _ _ Hcalls Hin).
    + injection Heq as <- _. exists k. reflexivity.
  - rewrite Hr. intros [].
Qed.

(** The pool construction of [prepareConnectionPool], for a pool of at
    least one slot, never aborts, throws only the fault of a call other
    than the rollback, and returns only when every fault was a rollback's. *)
Lemma construction_sound factory options pool_size log_manager :
  to_size_t pool_size <> 0 ->
  forall enable pool,
    sound D not_rollback rolls_back
      (construction D factory options pool_size log_manager enable pool).
Proof.
  intros Hsize enable pool. unfold construction.
  apply sound_initializeConnectionPool; [exact Hsize |].
  apply init_is_not_rollback.
Qed.

End Conversion.

Section Messages.

Local Open Scope list_scope.

(** The three ways [createDatabaseIfNotExist] ends. *)
Lemma createDatabaseIfNotExist_cases (D : Environment)
    (name options_str : string) (st : state D) :
  let r := createDatabaseIfNotExist D name options_str st in
  let connect := Open standalone options_str in
  let create := Exec standalone ("CREATE DATABASE " ++ name)%string in
  (exists a1 a2 a3 : reply,
      result r = Normal (of_value (makeValue true))
      /\ events r
         = [(connect, a1); (count_datname name, a2); (create, a3)]
      /\ into (indeterminate D) a2 = 0%Z
      /\ faultless (events r) = true)
  \/ (exists a1 a2 : reply,
         result r = Normal (of_value (makeValue false))
         /\ events r = [(connect, a1); (count_datname name, a2)]
         /\ into (indeterminate D) a2 <> 0%Z
         /\ faultless (events r) = true)
  \/ (exists (before : list (call * reply)) (c : call) (e : exception),
         result r
         = Normal (of_error (makeError
             ("Connection to PostgreSQL broken: "
                ++ formatPostgresMessage (what e))%string))
         /\ events r = before ++ [(c, Fault e)]
         /\ faultless before = true).
Proof.
  intros r connect create. subst r connect create.
  rewrite createDatabaseIfNotExist_run. cbv zeta.
  set (a1 := respond D (Open standalone options_str) (world st)).
  set (a2 := respond D (count_datname name) (snd a1)).
  set (a3 := respond D (Exec standalone ("CREATE DATABASE " ++ name)%string)
               (snd a2)).
  assert (Hcount :
    is_fault (fst a1) = false -> is_fault (fst a2) = false ->
    let r := if (into (indeterminate D) (fst a2) =? 0)%Z then
               match fst a3 with
               | Fault e =>
                   mkRun (D := D) (Normal (broken e))
                     [(Open standalone options_str, fst a1);
                      (count_datname name, fst a2);
                      (Exec standalone ("CREATE DATABASE " ++ name)%string, fst a3)]
                     (mkState (snd a3) (connection_index st))
               | _ =>
                   mkRun (Normal (of_value (makeValue true)))
                     [(Open standalone options_str, fst a1);
                      (count_datname name, fst a2);
                      (Exec standalone ("CREATE DATABASE " ++ name)%string, fst a3)]
                     (mkState (snd a3) (connection_index st))
               end
             else
               mkRun (Normal (of_value (makeValue false)))
                 [(Open standalone options_str, fst a1);
                  (count_datname name, fst a2)]
                 (mkState (snd a2) (connection_index st)) in
    (exists b1 b2 b3 : reply,
        result r = Normal (of_value (makeValue true))
        /\ events r
           = [(Open standalone options_str, b1); (count_datname name, b2);
              (Exec standalone ("CREATE DATABASE " ++ name)%string, b3)]
        /\ into (indeterminate D) b2 = 0%Z
        /\ faultless (events r) = true)
    \/ (exists b1 b2 : reply,
           result r = Normal (of_value (makeValue false))
           /\ events r
              = [(Open standalone options_str, b1);
                 (count_datname name, b2)]
           /\ into (indeterminate D) b2 <> 0%Z
           /\ faultless (events r) = true)
    \/ (exists (before : list (call * reply)) (c : call) (e : exception),
           result r = Normal (broken e)
           /\ events r = before ++ [(c, Fault e)]
           /\ faultless before = true)).
  { intros H1 H2. cbv zeta.
    destruct (Z.eqb_spec (into (indeterminate D) (fst a2)) 0) as [Hz | Hz].
    - destruct (fst a3) as [| z3 | e3] eqn:H3.
      + left. exists (fst a1), (fst a2), Done. cbn [result events].
        repeat split; try assumption.
        unfold faultless. cbn [forallb snd]. rewrite H1, H2. reflexivity.
      + left. exists (fst a1), (fst a2), (Row z3). cbn [result events].
        repeat split; try assumption.
        unfold faultless. cbn [forallb snd]. rewrite H1, H2. reflexivity.
      + right. right.
        exists [(Open standalone options_str, fst a1);
                (count_datname name, fst a2)],
               (Exec standalone ("CREATE DATABASE " ++ name)%string), e3.
        cbn [result events]. repeat split.
        unfold faultless. cbn [forallb snd]. rewrite H1, H2. reflexivity.
    - right. left. exists (fst a1), (fst a2). cbn [result events].
      repeat split; try assumption.
      unfold faultless. cbn [forallb snd]. rewrite H1, H2. reflexivity. }
  destruct (fst a1) as [| z1 | e1] eqn:H1.
  + destruct (fst a2) as [| z2 | e2] eqn:H2.
    * apply Hcount; reflexivity.
    * apply Hcount; reflexivity.
    * right. right.
      exists [(Open standalone options_str, fst a1)], (count_datname name),
             e2.
      rewrite H1. repeat split.
  + destruct (fst a2) as [| z2 | e2] eqn:H2.
    * apply Hcount; reflexivity.
    * apply Hcount; reflexivity.
    * right. right.
      exists [(Open standalone options_str, fst a1)], (count_datname name),
             e2.
      rewrite H1. repeat split.
  + right. right. exists [], (Open standalone options_str), e1.
    repeat split.
Qed.

Lemma single_line_format (message : string) :
  single_line (formatPostgresMessage message) = true.
Proof.
  unfold single_line, formatPostgresMessage. apply negb_true_iff.
  induction message as [| c message IH]; [reflexivity |].
  cbn [replace_if list_ascii_of_string existsb]. rewrite IH, orb_false_r.
  destruct (is_any_of CRLF c) eqn:Hc; [reflexivity | exact Hc].
Qed.

Lemma single_line_append (a b : string) :
  single_line (a ++ b)%string = single_line a && single_line b.
Proof.
  unfold single_line. rewrite <- negb_orb. f_equal.
  induction a as [| c a IH]; [reflexivity |].
  cbn [append list_ascii_of_string existsb]. rewrite IH, orb_assoc.
  reflexivity.
Qed.

Lemma length_format (message : string) :
  String.length (formatPostgresMessage message) = String.length message.
Proof.
  unfold formatPostgresMessage.
  induction message as [| c message IH]; [reflexivity |].
  cbn [replace_if String.length]. rewrite IH. reflexivity.
Qed.

Lemma get_format (message : string) (i : nat) :
  String.get i (formatPostgresMessage message)
  = option_map (fun c => if is_any_of CRLF c then " "%char else c)
      (String.get i message).
Proof.
  unfold formatPostgresMessage. revert i.
  induction message as [| c message IH]; intros i; [reflexivity |].
  destruct i as [| i]; cbn [replace_if String.get option_map];
    [reflexivity | apply IH].
Qed.

End Messages.

(* ===================================================================== *)
(** ** The properties *)
(* ===================================================================== *)

Local Open Scope list_scope.

(** C1: the claim does not hold of the code.  Two exceptions leave
    [prepareConnectionPool]: that of the constructor of the pool object,
    which [initPostgresConnection] builds before its [try] block, and that
    of the lease of the scratch session, which stands between the two
    [try] blocks; and no other.  For the pool size 0 the constructor
    always throws, before any call is made.  The run is never ended by the
    assertion of [initializeConnectionPool].  Every other exception is
    converted: a call other than the lease that was answered with an
    exception, the rollback and the probe apart (which absorb their own),
    makes the result an error, and an error returned carries the message
    of an exception some call of the run was answered with, as it is or
    sanitized. *)
Theorem prepareConnectionPool_lets_two_exceptions_leave :
  forall (D : Environment) (factory : ReconnectionStrategyFactory)
         (options : PostgresOptions) (pool_size : Z)
         (log_manager : LoggerManagerTree) (st : state D),
    let r0 := initPostgresConnection D (optionsString options)
                (to_size_t pool_size) st in
    let lease := fst (respond D Lease (world (after r0))) in
    let r := prepareConnectionPool D factory options pool_size log_manager
               st in
    (forall e : exception,
        result r = Thrown e
        <-> pool_error D (to_size_t pool_size) (world st) = Some e
            \/ (result r0
                = Normal (of_value (makeValue
                    (make_connection_pool (to_size_t pool_size))))
                /\ lease = Fault e))
    /\ (to_size_t pool_size = 0 ->
        result r = Thrown (invalid_pool_size D) /\ events r = [])
    /\ result r <> Aborted
    /\ (forall (c : call) (e : exception),
           In (c, Fault e) (events r) ->
           c <> Lease ->
           is_rollback c = false ->
           c <> Query leased "SHOW max_prepared_transactions;" [] ->
           exists msg : Error string, result r = Normal (of_error msg))
    /\ (forall msg : Error string,
           result r = Normal (of_error msg) ->
           exists (c : call) (e : exception),
             In (c, Fault e) (events r)
             /\ is_rollback c = false
             /\ (error msg = what e
                 \/ error msg = formatPostgresMessage (what e))).
Proof.
  intros D factory options pool_size log_manager st r0 lease r.
  subst r0 lease r. rewrite prepareConnectionPool_run. cbv zeta.
  destruct (initPostgresConnection_built D (optionsString options)
              (to_size_t pool_size) st) as (Hbuilt & _ & _).
  cbv zeta in Hbuilt.
  destruct (initPostgresConnection_run D (optionsString options)
              (to_size_t pool_size) st)
    as [(Hres & _ & Hok)
       | [(k & e0 & before & Hk & Hres & Hev & _) | (e0 & He0 & Hr0)]];
    cbv zeta in *.
  - (* the pool is open *)
    pose proof (Hbuilt _ Hres) as Hnone.
    assert (Hsize : to_size_t pool_size <> 0).
    { intros H. rewrite H in Hnone. discriminate Hnone. }
    rewrite Hres, Hnone. cbn [value makeValue].
    destruct (fst (respond D Lease _)) as [| z | e'] eqn:Hl.
    3: { cbn [result events]. split; [| split; [| split; [| split]]].
         - intros e. split.
           + intros H. injection H as ->. right. split; reflexivity.
           + intros [H | [_ H]]; [discriminate H |].
             injection H as ->. reflexivity.
         - intros H. contradiction.
         - discriminate.
         - intros c e Hin Hc _ _. exfalso.
           apply in_app_or in Hin. destruct Hin as [Hin | [Heq | []]].
           + exact (faultless_In _ _ _ Hok Hin).
           + injection Heq as Hc' _. apply Hc. symmetry. exact Hc'.
         - intros msg H. discriminate H. }
    all: cbn [result events];
      match goal with
      | |- context [result (construction ?a ?b ?c ?d ?e ?en ?pl ?s)] =>
          pose proof (construction_sound a b c d e Hsize en pl s) as Hsound;
          set (body := construction a b c d e en pl s) in *
      end;
      destruct (result body) as [[] | e' |]; [| | contradiction].
    all: split; [| split; [| split; [| split]]].
    all: try (intros e; split;
              [ intros H; discriminate H
              | intros [H | [_ H]]; discriminate H ]).
    all: try (intros H; contradiction).
    all: try discriminate.
    (* the lease answered Done: a value *)
    + intros c e Hin _ Hc Hq. exfalso.
      apply in_app_or in Hin. destruct Hin as [Hin | [Heq | [Heq | Hin]]].
      * exact (faultless_In _ _ _ Hok Hin).
      * discriminate Heq.
      * injection Heq as Hc' _. apply Hq. symmetry. exact Hc'.
      * specialize (Hsound c e Hin). unfold rolls_back in Hsound. congruence.
    (* the lease answered Done: an error *)
    + intros c e Hin _ Hc Hq. eexists. reflexivity.
    + intros msg Hmsg. injection Hmsg as <-.
      destruct Hsound as (c & Hin & Hc). exists c, e'.
      split; [| split; [exact Hc | left; reflexivity]].
      apply in_or_app. right. right. right. exact Hin.
    (* the lease answered with a number: a value *)
    + intros c e Hin _ Hc Hq. exfalso.
      apply in_app_or in Hin. destruct Hin as [Hin | [Heq | [Heq | Hin]]].
      * exact (faultless_In _ _ _ Hok Hin).
      * discriminate Heq.
      * injection Heq as Hc' _. apply Hq. symmetry. exact Hc'.
      * specialize (Hsound c e Hin). unfold rolls_back in Hsound. congruence.
    (* the lease answered with a number: an error *)
    + intros c e Hin _ Hc Hq. eexists. reflexivity.
    + intros msg Hmsg. injection Hmsg as <-.
      destruct Hsound as (c & Hin & Hc). exists c, e'.
      split; [| split; [exact Hc | left; reflexivity]].
      apply in_or_app. right. right. right. exact Hin.
  - (* a slot was refused *)
    pose proof (Hbuilt _ Hres) as Hnone.
    rewrite Hres, Hnone. cbn [result events].
    split; [| split; [| split; [| split]]].
    + intros e. split; [intros H; discriminate H |].
      intros [H | [H _]]; discriminate H.
    + intros H. lia.
    + discriminate.
    + intros c e Hin _ _ _. eexists. reflexivity.
    + intros msg Hmsg. injection Hmsg as <-.
      exists (Open (pool_at k) (optionsString options)), e0.
      split; [| split; [reflexivity | right; reflexivity]].
      rewrite Hev. apply in_or_app. right. left. reflexivity.
  - (* the pool object was not built *)
    rewrite Hr0, He0. cbn [result events after].
    split; [| split; [| split; [| split]]].
    + intros e. split.
      * intros H. injection H as ->. left. reflexivity.
      * intros [H | [H _]]; [| discriminate H].
        injection H as ->. reflexivity.
    + intros H. rewrite H in He0. cbn [pool_error] in He0.
      injection He0 as <-. split; reflexivity.
    + discriminate.
    + intros c e [].
    + intros msg H. discriminate H.
Qed.

(** C2: the claim holds of the open loop and not of the function.  The
    pool object is built before the [try] block: when its constructor
    throws, as it always does for the pool size 0, the exception leaves
    [initPostgresConnection] with no call made, and the caller gets
    neither a value nor an error.  Once the pool object is built the
    function returns, and in one of two ways.  Either every slot of the
    pool was opened, in order and without a fault, and the pool is
    returned as a value; or the opening of some slot [k] threw, no slot
    after [k] was touched, and the result is an error carrying the
    sanitized message of that exception, with no pool in it. *)
Theorem initPostgresConnection_all_or_nothing :
  forall (D : Environment) (options_str : string) (pool_size : nat)
         (st : state D),
    let r := initPostgresConnection D options_str pool_size st in
    ((pool_error D pool_size (world st) = None
      /\ ((result r
           = Normal (of_value (makeValue (make_connection_pool pool_size)))
           /\ map fst (events r) = opens options_str 0 pool_size
           /\ faultless (events r) = true)
          \/ (exists (k : nat) (e : exception)
                     (before : list (call * reply)),
                k < pool_size
                /\ result r
                   = Normal (of_error (makeError
                       (formatPostgresMessage (what e))))
                /\ events r
                   = before ++ [(Open (pool_at k) options_str, Fault e)]
                /\ map fst before = opens options_str 0 k
                /\ faultless before = true)))
     \/ (exists e : exception,
           pool_error D pool_size (world st) = Some e
           /\ result r = Thrown e
           /\ events r = []))
    /\ (pool_size = 0 ->
        result r = Thrown (invalid_pool_size D) /\ events r = []).
Proof.
  intros D options_str pool_size st r. subst r.
  destruct (initPostgresConnection_built D options_str pool_size st)
    as (Hbuilt & _ & _).
  cbv zeta in Hbuilt.
  destruct (initPostgresConnection_run D options_str pool_size st)
    as [(Hres & Hcalls & Hok)
       | [(k & e & before & Hk & Hres & Hev & Hcalls & Hok)
         | (e & He & Hr)]];
    cbv zeta in *.
  - pose proof (Hbuilt _ Hres) as Hnone. split.
    + left. split; [exact Hnone |]. left. repeat split; assumption.
    + intros H. rewrite H in Hnone. discriminate Hnone.
  - pose proof (Hbuilt _ Hres) as Hnone. split.
    + left. split; [exact Hnone |]. right. exists k, e, before.
      repeat split; assumption.
    + intros H. lia.
  - rewrite Hr. cbn [result events]. split.
    + right. exists e. repeat split. exact He.
    + intros H. rewrite H in He. cbn [pool_error] in He.
      injection He as <-. split; reflexivity.
Qed.

(** C3: in a pool construction by [initializeConnectionPool] the statements
    executed are those of the database-level initialisation and no other:
    the rollback (when two-phase commit is enabled) followed by the schema
    text, each once and both on slot 0, or nothing at all when the
    construction ends before slot 0 gets there (a fault of its failover
    callback; the assertion, for a pool of no slot).  A construction that
    succeeds has executed them, on slot 0 alone, and has brought up every
    slot.  A reconnection restore executes no statement. *)
Theorem database_init_runs_once_on_slot_0 :
  forall (D : Environment) (pool : connection_pool) (pool_size : nat)
         (prepare_tables_sql : string) (enable : bool) (name : string)
         (log_manager : LoggerManagerTree) (holder : FailoverCallbackHolder)
         (factory : ReconnectionStrategyFactory) (options : string)
         (st : state D),
    let r := initializeConnectionPool D pool pool_size prepare_tables_sql
               (try_rollback D enable name log_manager) holder factory
               options log_manager st in
    let once :=
      (if enable
       then [(pool_at 0, ("ROLLBACK PREPARED '" ++ name ++ "';")%string)]
       else [])
      ++ [(pool_at 0, prepare_tables_sql)] in
    (execs (events r) = [] \/ execs (events r) = once)
    /\ (result r = Normal tt ->
        execs (events r) = once
        /\ prepared (events r) = map pool_at (seq 0 pool_size))
    /\ (forall (log : frame) (s : session) (st' : state D),
           execs (events (restore_session D log s st')) = []).
Proof.
  intros D pool pool_size prepare_tables_sql enable name log_manager holder
    factory options st r once.
  destruct (pool_construction_run D factory options log_manager enable name
              prepare_tables_sql pool pool_size holder st) as [Hany Hdone].
  split; [exact Hany | split; [exact Hdone |]].
  intros log s st'. rewrite restore_session_run. reflexivity.
Qed.

(** C4: the session-initialisation sequence runs its steps in one order,
    whatever the two hooks are: first the notice processor is attached,
    then [on_init_connection] runs, then [on_init_db] from the state the
    former left, then the prepared statements are compiled; a step runs
    when the steps before it have returned.  A reconnection restore, whose
    hooks are empty, always attaches the notice processor, with the logger
    its reference to [log] reads at that time, and compiles the prepared
    statements, and makes no other call.  A pool construction
    that succeeds has compiled the prepared statements of every slot, in
    the order of the slots.  The notice processor writes the sanitized
    notice to its logger at debug level. *)
Theorem initialize_session_steps_in_order :
  forall D : Environment,
    (forall (log : list string) (sess : session)
            (on_init_db on_init_connection : session -> M D unit)
            (st : state D),
        let r1 := on_init_connection sess st in
        let r2 := on_init_db sess (after r1) in
        let r := initialize_session D log sess on_init_db on_init_connection
                   st in
        (exists rest,
            events r = (SetNoticeProcessor sess log, Done) :: events r1 ++ rest)
        /\ (result r1 = Normal tt ->
            exists rest,
              events r
              = (SetNoticeProcessor sess log, Done)
                  :: events r1 ++ events r2 ++ rest)
        /\ (result r1 = Normal tt -> result r2 = Normal tt ->
            events r
            = (SetNoticeProcessor sess log, Done)
                :: events r1 ++ events r2
                ++ [(PrepareStatements sess,
                     fst (respond D (PrepareStatements sess)
                            (world (after r2))))]))
    /\ (forall (log : frame) (s : session) (st : state D),
           events (restore_session D log s st)
           = [(SetNoticeProcessor s (read_log log), Done);
              (PrepareStatements s,
               fst (respond D (PrepareStatements s) (world st)))])
    /\ (forall (pool : connection_pool) (pool_size : nat)
               (prepare_tables_sql : string) (enable : bool) (name : string)
               (log_manager : LoggerManagerTree)
               (holder : FailoverCallbackHolder)
               (factory : ReconnectionStrategyFactory) (options : string)
               (st : state D),
           let r := initializeConnectionPool D pool pool_size
                      prepare_tables_sql
                      (try_rollback D enable name log_manager) holder factory
                      options log_manager st in
           result r = Normal tt ->
           prepared (events r) = map pool_at (seq 0 pool_size))
    /\ (forall (log : list string) (message : string) (st : state D),
           processPqNotice D log message st
           = mkRun (Normal tt)
               [(Log lvl_debug log (formatPostgresMessage message), Done)]
               st).
Proof.
  intros D. split; [| split; [| split]].
  - intros log sess on_init_db on_init_connection st r1 r2 r.
    subst r. rewrite initialize_session_run. cbv zeta. fold r1. fold r2.
    split; [| split].
    + destruct (result r1) as [[] | e |];
        [| exists []; rewrite app_nil_r; reflexivity ..].
      destruct (result r2) as [[] | e |]; eexists; reflexivity.
    + intros H1. rewrite H1.
      destruct (result r2) as [[] | e |]; cbn [events].
      * eexists; reflexivity.
      * exists []. rewrite app_nil_r. reflexivity.
      * exists []. rewrite app_nil_r. reflexivity.
    + intros H1 H2. rewrite H1, H2. reflexivity.
  - intros log s st. rewrite restore_session_run. reflexivity.
  - intros pool pool_size prepare_tables_sql enable name log_manager holder
      factory options st r Hr.
    exact (proj2 (proj2 (pool_construction_run D factory options log_manager
                           enable name prepare_tables_sql pool pool_size
                           holder st) Hr)).
  - intros log message st. unfold processPqNotice, log_at, local.
    rewrite fmt_placeholder. reflexivity.
Qed.

(** C5: [preparedTransactionsAvailable] always returns, with [true] exactly
    when the query for [max_prepared_transactions] fetched a number other
    than zero; a query that fails gives [false] and no exception.  The
    capability flag of the [PoolWrapper] that [prepareConnectionPool]
    returns is the value this probe returns on the scratch session, run in
    the state the lease of that session left.  And the wrapper is
    returned: once the pool is open and the scratch session leased,
    [prepareConnectionPool] runs the probe, whose query is a call of the
    run, and, when the pool construction that follows with the probe's
    result returns, the result is the wrapper of that pool with that
    result as its flag. *)
Theorem capability_flag_is_the_probe_result :
  forall D : Environment,
    (forall (sql : session) (st : state D),
        let a := fst (respond D
                        (Query sql "SHOW max_prepared_transactions;" [])
                        (world st)) in
        exists b : bool,
          result (preparedTransactionsAvailable D sql st) = Normal b
          /\ (b = true <-> exists z : Z, a = Row z /\ z <> 0%Z)
          /\ (forall e, a = Fault e -> b = false))
    /\ (forall (factory : ReconnectionStrategyFactory)
               (options : PostgresOptions) (pool_size : Z)
               (log_manager : LoggerManagerTree) (st : state D)
               (pw : Value PoolWrapper),
           let r0 := initPostgresConnection D (optionsString options)
                       (to_size_t pool_size) st in
           let al := respond D Lease (world (after r0)) in
           result (prepareConnectionPool D factory options pool_size
                     log_manager st) = Normal (of_value pw) ->
           result (preparedTransactionsAvailable D leased
                     (mkState (snd al) (connection_index (after r0))))
           = Normal (enable_prepared_transactions_of (value pw)))
    /\ (forall (factory : ReconnectionStrategyFactory)
               (options : PostgresOptions) (pool_size : Z)
               (log_manager : LoggerManagerTree) (st : state D),
           let r0 := initPostgresConnection D (optionsString options)
                       (to_size_t pool_size) st in
           let al := respond D Lease (world (after r0)) in
           let probe := preparedTransactionsAvailable D leased
                          (mkState (snd al) (connection_index (after r0))) in
           let r := prepareConnectionPool D factory options pool_size
                      log_manager st in
           result r0
           = Normal (of_value (makeValue
               (make_connection_pool (to_size_t pool_size)))) ->
           is_fault (fst al) = false ->
           exists b : bool,
             result probe = Normal b
             /\ (forall ev : call * reply,
                    In ev (events probe) -> In ev (events r))
             /\ (result (construction D factory options pool_size
                           log_manager b
                           (make_connection_pool (to_size_t pool_size))
                           (after probe)) = Normal tt ->
                 result r
                 = Normal (of_value (makeValue
                     {| connection_pool_of :=
                          make_connection_pool (to_size_t pool_size);
                        failover_callback_holder_of :=
                          make_FailoverCallbackHolder;
                        enable_prepared_transactions_of := b |})))).
Proof.
  intros D. split; [| split].
  - intros sql st a. rewrite preparedTransactionsAvailable_run. cbv zeta.
    fold a. exists (reports_support a). split; [reflexivity | split].
    + destruct a as [| z | e]; cbn [reports_support].
      * split; [discriminate | intros (z & Hz & _); discriminate Hz].
      * rewrite negb_true_iff, Z.eqb_neq. split.
        -- intros Hz. exists z. split; [reflexivity | exact Hz].
        -- intros (z' & Hz' & Hne). injection Hz' as ->. exact Hne.
      * split; [discriminate | intros (z & Hz & _); discriminate Hz].
    + intros e ->. reflexivity.
  - intros factory options pool_size log_manager st pw r0 al Hr.
    destruct (prepareConnectionPool_value D factory options pool_size
                log_manager st pw Hr) as (_ & _ & _ & _ & Hpw & _).
    rewrite preparedTransactionsAvailable_run. cbv zeta.
    rewrite Hpw. reflexivity.
  - intros factory options pool_size log_manager st r0 al probe r Hr0 Hl.
    subst probe r. rewrite preparedTransactionsAvailable_run.
    rewrite prepareConnectionPool_run. cbv zeta.
    subst al r0. rewrite Hr0. cbn [value makeValue result events after].
    eexists. split; [reflexivity |].
    destruct (fst (respond D Lease _)) as [| z | e];
      try discriminate Hl; cbn [result events].
    all: split;
      [ intros ev [<- | []]; apply in_or_app; right; right; left;
        reflexivity
      | intros Hbody; cbn [world connection_index after] in Hbody;
        rewrite Hbody; reflexivity ].
Qed.


(** C7: [rollbackPrepared] makes exactly one call, the execution on the
    session it is given of the text [ROLLBACK PREPARED '] followed by the
    name and by [';], the name taken as it is, whatever characters it
    holds.  In [prepareConnectionPool] the statements executed are none, or
    the schema text alone, or the rollback of the transaction named
    ["prepared_block"] followed by the database name as it is and then the
    schema text, on slot 0; a pool returned with the capability flag set
    has executed that rollback. *)
Theorem rollback_names_prepared_block_of_database :
  forall D : Environment,
    (forall (sql : session) (prepared_block_name : string) (st : state D),
        events (rollbackPrepared D sql prepared_block_name st)
        = [(Exec sql ("ROLLBACK PREPARED '" ++ prepared_block_name ++ "';"),
            fst (respond D
                   (Exec sql
                      ("ROLLBACK PREPARED '" ++ prepared_block_name ++ "';"))
                   (world st)))])
    /\ (forall (factory : ReconnectionStrategyFactory)
               (options : PostgresOptions) (pool_size : Z)
               (log_manager : LoggerManagerTree) (st : state D),
           let r := prepareConnectionPool D factory options pool_size
                      log_manager st in
           let schema := init_ (RolePermissionSet_size D)
                           (GrantablePermissionSet_size D) in
           let rollback :=
             ("ROLLBACK PREPARED '" ++ ("prepared_block" ++ dbname options)
                ++ "';")%string in
           (execs (events r) = []
            \/ execs (events r) = [(pool_at 0, schema)]
            \/ execs (events r) = [(pool_at 0, rollback); (pool_at 0, schema)])
           /\ (forall pw : Value PoolWrapper,
                  result r = Normal (of_value pw) ->
                  enable_prepared_transactions_of (value pw) = true ->
                  execs (events r)
                  = [(pool_at 0, rollback); (pool_at 0, schema)])).
Proof.
  intros D. split.
  - intros sql prepared_block_name st. rewrite rollbackPrepared_run.
    reflexivity.
  - intros factory options pool_size log_manager st r schema rollback.
    subst r schema rollback. split.
    + destruct (prepareConnectionPool_execs D factory options pool_size
                  log_manager st) as [Hnone | (q & _ & Hall)];
        cbv zeta in *.
      * left. exact Hnone.
      * right. rewrite Hall. unfold database_init.
        destruct (reports_support q); [right | left]; reflexivity.
    + intros pw Hr Hflag.
      destruct (prepareConnectionPool_value_statements D factory options
                  pool_size log_manager st pw Hr) as [Hexecs _].
      rewrite Hexecs, Hflag. reflexivity.
Qed.

(** C8: in a run of [prepareConnectionPool] a rollback of the prepared
    transaction is executed only when the capability probe of that run
    reported support; [try_rollback] always returns, and executes nothing
    when the capability is off; a rollback that fails has its warning,
    with the sanitized message, written at warning level to the logger of
    the log manager; and a run in which the pool object was built and no
    call other than the rollback was answered with a fault returns a
    [PoolWrapper], not an error. *)
Theorem rollback_failure_is_logged_and_not_fatal :
  forall (D : Environment) (factory : ReconnectionStrategyFactory)
         (options : PostgresOptions) (pool_size : Z)
         (log_manager : LoggerManagerTree) (st : state D),
    let r := prepareConnectionPool D factory options pool_size log_manager
               st in
    (forall (s : session) (statement : string) (a : reply),
        In (Exec s statement, a) (events r) ->
        starts_with "ROLLBACK PREPARED '" statement = true ->
        exists q : reply,
          In (Query leased "SHOW max_prepared_transactions;" [], q) (events r)
          /\ reports_support q = true)
    /\ (forall (enable : bool) (name : string) (s : session) (st' : state D),
           result (try_rollback D enable name log_manager s st') = Normal tt
           /\ (enable = false ->
               events (try_rollback D enable name log_manager s st') = []))
    /\ (forall (s : session) (statement : string) (e : exception),
           In (Exec s statement, Fault e) (events r) ->
           starts_with "ROLLBACK PREPARED '" statement = true ->
           In (Log lvl_warn (getLogger log_manager)
                 ("rollback on creation has failed: "
                    ++ formatPostgresMessage (what e))%string, Done)
             (events r))
    /\ (pool_error D (to_size_t pool_size) (world st) = None ->
        (forall (c : call) (e : exception),
            In (c, Fault e) (events r) -> is_rollback c = true) ->
        exists pw : Value PoolWrapper, result r = Normal (of_value pw)).
Proof.
  intros D factory options pool_size log_manager st r. subst r.
  split; [| split; [| split]].
  - intros s statement a Hin Hrb. apply In_execs in Hin.
    destruct (prepareConnectionPool_execs D factory options pool_size
                log_manager st) as [Hnone | (q & Hq & Hall)];
      cbv zeta in *.
    + rewrite Hnone in Hin. destruct Hin.
    + exists q. split; [exact Hq |].
      rewrite Hall in Hin. unfold database_init in Hin.
      destruct (reports_support q); [reflexivity |].
      destruct Hin as [Heq | []]. injection Heq as _ <-.
      rewrite init_is_not_rollback in Hrb. discriminate Hrb.
  - intros enable name s st'. rewrite try_rollback_run. cbv zeta.
    destruct enable; split; try reflexivity. discriminate.
  - intros s statement e Hin Hrb.
    exact (every_prepareConnectionPool D log_manager factory options
             pool_size st _ Hin e eq_refl Hrb).
  - intros Hbuilt Honly.
    assert (Hsize : to_size_t pool_size <> 0).
    { intros H. rewrite H in Hbuilt. discriminate Hbuilt. }
    rewrite prepareConnectionPool_run in Honly |- *. cbv zeta in Honly |- *.
    destruct (initPostgresConnection_run D (optionsString options)
                (to_size_t pool_size) st)
      as [(Hres & _ & _)
         | [(k & e & before & _ & Hres & Hev & _) | (e & He & _)]];
      cbv zeta in *;
      [ | | rewrite He in Hbuilt; discriminate Hbuilt ];
      rewrite Hres in Honly |- *.
    + assert (Hbody :
        forall enable st',
          let body := construction D factory options pool_size log_manager
                        enable
                        (value (makeValue
                                  (make_connection_pool
                                     (to_size_t pool_size)))) st' in
          forall pre : list (call * reply),
            (forall c e, In (c, Fault e) (pre ++ events body) ->
                         is_rollback c = true) ->
            exists u, result body = Normal u).
      { intros enable st' body pre Hpre.
        pose proof (construction_sound D factory options pool_size
                      log_manager Hsize enable
                      (value (makeValue
                                (make_connection_pool (to_size_t pool_size))))
                      st') as Hsound.
        fold body in Hsound.
        destruct (result body) as [u | e' |].
        - exists u. reflexivity.
        - destruct Hsound as (c & Hin & Hc).
          assert (Hc' : is_rollback c = true).
          { apply (Hpre c e'). apply in_or_app. right. exact Hin. }
          unfold not_rollback in Hc. congruence.
        - contradiction. }
      destruct (fst (respond D Lease _)) as [| z | e] eqn:Hl.
      3: { specialize (Honly Lease e). cbn [events] in Honly.
           discriminate Honly. apply in_or_app. right. left. reflexivity. }
      all: cbn [result events] in Honly |- *;
        match type of Honly with
        | forall c e,
            In _ (?pre ++ ?x :: ?y
                    :: events (construction _ _ _ _ _ ?en _ ?s)) -> _ =>
            destruct (Hbody en s (pre ++ [x; y])) as (u & Hu);
              [ intros c e Hin; apply (Honly c e);
                rewrite <- app_assoc in Hin; exact Hin
              | cbv zeta in Hu; rewrite Hu; eexists; reflexivity ]
        end.
    + specialize (Honly (Open (pool_at k) (optionsString options)) e).
      cbn [events] in Honly. rewrite Hev in Honly.
      discriminate Honly. apply in_or_app. right. left. reflexivity.
Qed.

(** C9, as amended: [formatPostgresMessage] replaces each carriage return
    and each line feed of a message by a space and changes nothing else, so
    that its result is a single line of the same length; the other control
    characters stay.  Every error that [rollbackPrepared],
    [initPostgresConnection] and [createDatabaseIfNotExist] return carries
    the message, so sanitized, of the exception a call was answered with
    (after a fixed single-line prefix, for the last of the three), and
    every notice is written to the logger so sanitized, at debug level. *)
Theorem errors_and_notices_have_line_breaks_replaced :
  forall D : Environment,
    (forall message : string,
        single_line (formatPostgresMessage message) = true
        /\ String.length (formatPostgresMessage message)
           = String.length message
        /\ (forall i : nat,
               String.get i (formatPostgresMessage message)
               = option_map
                   (fun c => if is_any_of CRLF c then " "%char else c)
                   (String.get i message)))
    /\ (forall (sql : session) (name : string) (st : state D)
               (msg : Error string),
           let r := rollbackPrepared D sql name st in
           result r = Normal (of_error msg) ->
           single_line (error msg) = true
           /\ exists (c : call) (e : exception),
                In (c, Fault e) (events r)
                /\ error msg = formatPostgresMessage (what e))
    /\ (forall (options_str : string) (pool_size : nat) (st : state D)
               (msg : Error string),
           let r := initPostgresConnection D options_str pool_size st in
           result r = Normal (of_error msg) ->
           single_line (error msg) = true
           /\ exists (c : call) (e : exception),
                In (c, Fault e) (events r)
                /\ error msg = formatPostgresMessage (what e))
    /\ (forall (name options_str : string) (st : state D)
               (msg : Error string),
           let r := createDatabaseIfNotExist D name options_str st in
           result r = Normal (of_error msg) ->
           single_line (error msg) = true
           /\ exists (c : call) (e : exception),
                In (c, Fault e) (events r)
                /\ error msg
                   = ("Connection to PostgreSQL broken: "
                        ++ formatPostgresMessage (what e))%string)
    /\ (forall (log : list string) (message : string) (st : state D),
           events (processPqNotice D log message st)
           = [(Log lvl_debug log (formatPostgresMessage message), Done)]).
Proof.
  intros D. split; [| split; [| split; [| split]]].
  - intros message. split; [apply single_line_format |].
    split; [apply length_format | apply get_format].
  - intros sql name st msg r Hr. subst r.
    rewrite rollbackPrepared_run in Hr |- *. cbv zeta in Hr |- *.
    cbn [result events] in Hr |- *.
    destruct (fst (respond D _ (world st))) as [| z | e];
      try discriminate Hr.
    injection Hr as <-. split; [apply single_line_format |].
    eexists _, e. split; [left; reflexivity | reflexivity].
  - intros options_str pool_size st msg r Hr. subst r.
    destruct (initPostgresConnection_run D options_str pool_size st)
      as [(Hres & _)
         | [(k & e & before & _ & Hres & Hev & _) | (e & _ & Hthrown)]];
      cbv zeta in *;
      [ rewrite Hres in Hr; discriminate Hr
      | rewrite Hres in Hr
      | rewrite Hthrown in Hr; discriminate Hr ].
    injection Hr as <-. split; [apply single_line_format |].
    exists (Open (pool_at k) options_str), e. rewrite Hev.
    split; [| reflexivity]. apply in_or_app. right. left. reflexivity.
  - intros name options_str st msg r Hr. subst r.
    destruct (createDatabaseIfNotExist_cases D name options_str st)
      as [(a1 & a2 & a3 & Hres & _)
         | [(a1 & a2 & Hres & _) | (before & c & e & Hres & Hev & _)]];
      cbv zeta in *; rewrite Hres in Hr; try discriminate Hr.
    injection Hr as <-. cbn [error makeError]. split.
    + change (single_line
                ("Connection to PostgreSQL broken: "
                   ++ formatPostgresMessage (what e))%string = true).
      rewrite single_line_append, single_line_format. reflexivity.
    + exists c, e. rewrite Hev. split; [| reflexivity].
      apply in_or_app. right. left. reflexivity.
  - intros log message st. unfold processPqNotice, log_at, local.
    rewrite fmt_placeholder. reflexivity.
Qed.

(** C10: the bind operator short-circuits.  On a result that holds an error
    it yields that same error and leaves the state of the transformation
    function untouched, whatever the function is: the function is not
    called.  On a result that holds a value it yields the function's
    outcome on that value, lifted into the result type as the outcome's
    shape asks (an unwrapped value is wrapped, a [Value] is converted, a
    [Result] is passed on).  And [prepareConnectionPool] hands on, as it
    is, the error of [initPostgresConnection] when the pool fails to
    open, making no further call. *)
Theorem bind_short_circuits_on_error :
  (forall (S V E Transformed : Type)
          (TypeHelper : BindReturnType Transformed E)
          (e : Error E) (f : V -> S -> Transformed * S) (s : S),
      operator_bar (V := V) (of_error e) f s = (of_error e, s))
  /\ (forall (S V E Transformed : Type)
             (TypeHelper : BindReturnType Transformed E)
             (v : Value V) (f : V -> S -> Transformed * S) (s : S),
         operator_bar (E := E) (of_value v) f s
         = (makeVaule (fst (f (value v) s)), snd (f (value v) s)))
  /\ (forall (T E : Type) (t : T),
         makeVaule (BindReturnType := BindReturnType_unwrapped T E) t
         = of_value (makeValue t))
  /\ (forall (T E : Type) (v : Value T),
         makeVaule (BindReturnType := BindReturnType_value T E) v
         = of_value v)
  /\ (forall (T E : Type) (r : Result T E),
         makeVaule (BindReturnType := BindReturnType_result T E) r = r)
  /\ (forall (D : Environment) (factory : ReconnectionStrategyFactory)
             (options : PostgresOptions) (pool_size : Z)
             (log_manager : LoggerManagerTree) (st : state D)
             (e : Error string),
         let opened := initPostgresConnection D (optionsString options)
                         (to_size_t pool_size) st in
         let r := prepareConnectionPool D factory options pool_size
                    log_manager st in
         result opened = Normal (of_error e) ->
         result r = Normal (of_error e)
         /\ events r = events opened
         /\ after r = after opened).
Proof.
  split; [| split; [| split; [| split; [| split]]]].
  - intros S V E Transformed TypeHelper [e] f s. reflexivity.
  - intros S V E Transformed TypeHelper v f s. unfold operator_bar, match_.
    destruct (f (value v) s). reflexivity.
  - reflexivity.
  - reflexivity.
  - reflexivity.
  - intros D factory options pool_size log_manager st e opened r Hopened.
    subst r. rewrite prepareConnectionPool_run. cbv zeta. fold opened.
    rewrite Hopened. repeat split; reflexivity.
Qed.

(* ===================================================================== *)
(** ** The properties at work *)
(* ===================================================================== *)

(** C1 and C2 at work: for the pool of no slot the constructor of the
    pool object throws; the exception leaves [initPostgresConnection] and
    then [prepareConnectionPool], and no call was made. *)
Lemma pool_exception_leaves_initPostgresConnection :
  initPostgresConnection Runs.E (optionsString Sample.sample_options) 0
    (Sample.start Sample.valid_options Sample.fresh_server)
  = mkRun (Thrown (std_exception "Invalid pool size")) []
      (Sample.start Sample.valid_options Sample.fresh_server).
Proof. vm_compute. reflexivity. Qed.

Lemma pool_exception_leaves_prepareConnectionPool :
  result (Runs.pool_of Sample.sample_options 0 Sample.fresh_server)
  = Thrown (std_exception "Invalid pool size")
  /\ events (Runs.pool_of Sample.sample_options 0 Sample.fresh_server) = []
  /\ ~ (exists res : Result PoolWrapper string,
          result (Runs.pool_of Sample.sample_options 0 Sample.fresh_server)
          = Normal res).
Proof.
  assert (H : result (Runs.pool_of Sample.sample_options 0
                        Sample.fresh_server)
              = Thrown (std_exception "Invalid pool size"))
    by (vm_compute; reflexivity).
  split; [exact H | split; [vm_compute; reflexivity |]].
  intros (res & Hres). rewrite H in Hres. discriminate Hres.
Qed.

Lemma database_init_runs_once_on_slot_0_witness :
  result (Runs.construction_of 3 Runs.crashed_server) = Normal tt
  /\ execs (events (Runs.construction_of 3 Runs.crashed_server))
     = [(pool_at 0, "ROLLBACK PREPARED 'prepared_blockd1a2b3c4';");
        (pool_at 0, init_ 48 5)].
Proof.
  assert (Hr : result (Runs.construction_of 3 Runs.crashed_server)
               = Normal tt) by (vm_compute; reflexivity).
  split; [exact Hr |].
  destruct (database_init_runs_once_on_slot_0 Runs.E (make_connection_pool 3)
              3 (init_ 48 5) true "prepared_blockd1a2b3c4" ["Storage"]
              make_FailoverCallbackHolder (strategy_factory 0)
              Sample.admin_options
              (Sample.start Sample.valid_options Runs.crashed_server))
    as (_ & Hdone & _).
  exact (proj1 (Hdone Hr)).
Defined.

Lemma initialize_session_steps_in_order_witness :
  result (Runs.construction_of 3 Runs.crashed_server) = Normal tt
  /\ prepared (events (Runs.construction_of 3 Runs.crashed_server))
     = [pool_at 0; pool_at 1; pool_at 2].
Proof.
  assert (Hr : result (Runs.construction_of 3 Runs.crashed_server)
               = Normal tt) by (vm_compute; reflexivity).
  split; [exact Hr |].
  destruct (initialize_session_steps_in_order Runs.E) as (_ & _ & Hpool & _).
  exact (Hpool (make_connection_pool 3) 3 (init_ 48 5) true
           "prepared_blockd1a2b3c4" ["Storage"] make_FailoverCallbackHolder
           (strategy_factory 0) Sample.admin_options
           (Sample.start Sample.valid_options Runs.crashed_server) Hr).
Defined.

(** The [PoolWrapper] the sample server gives for three slots. *)
Lemma capability_flag_is_the_probe_result_witness :
  result (Runs.pool_of Sample.sample_options 3 Sample.fresh_server)
  = Normal (of_value (makeValue
      {| connection_pool_of := make_connection_pool 3;
         failover_callback_holder_of := make_FailoverCallbackHolder;
         enable_prepared_transactions_of := true |}))
  /\ result (preparedTransactionsAvailable Runs.E leased
               (Sample.start Sample.valid_options Sample.fresh_server))
     = Normal true.
Proof.
  destruct (capability_flag_is_the_probe_result Runs.E)
    as (_ & Hflag & Hreturned).
  destruct (Hreturned (strategy_factory 0) Sample.sample_options 3%Z
              ["Storage"]
              (Sample.start Sample.valid_options Sample.fresh_server))
    as (b & Hb & _ & Hpw).
  - vm_compute. reflexivity.
  - vm_compute. reflexivity.
  - vm_compute in Hb. injection Hb as <-.
    assert (Hr : result (Runs.pool_of Sample.sample_options 3
                           Sample.fresh_server)
                 = Normal (of_value (makeValue
                     {| connection_pool_of := make_connection_pool 3;
                        failover_callback_holder_of :=
                          make_FailoverCallbackHolder;
                        enable_prepared_transactions_of := true |}))).
    { apply Hpw. vm_compute. reflexivity. }
    split; [exact Hr |].
    exact (Hflag (strategy_factory 0) Sample.sample_options 3%Z ["Storage"]
             (Sample.start Sample.valid_options Sample.fresh_server) _ Hr).
Defined.




Lemma rollback_names_prepared_block_of_database_witness :
  execs (events (Runs.pool_of Sample.sample_options 3 Runs.crashed_server))
  = [(pool_at 0, "ROLLBACK PREPARED 'prepared_blockd1a2b3c4';");
     (pool_at 0, init_ 48 5)].
Proof.
  destruct (rollback_names_prepared_block_of_database Runs.E) as (_ & Hpool).
  destruct (Hpool (strategy_factory 0) Sample.sample_options 3%Z ["Storage"]
              (Sample.start Sample.valid_options Runs.crashed_server))
    as (_ & Hdone).
  apply (Hdone (makeValue
                  {| connection_pool_of := make_connection_pool 3;
                     failover_callback_holder_of :=
                       make_FailoverCallbackHolder;
                     enable_prepared_transactions_of := true |})).
  - vm_compute. reflexivity.
  - reflexivity.
Defined.

(** On the fresh server there is no prepared transaction to roll back: the
    rollback fails, and the pool is returned all the same. *)
Lemma rollback_failure_is_logged_and_not_fatal_witness :
  In (Exec (pool_at 0) "ROLLBACK PREPARED 'prepared_blockd1a2b3c4';",
      Sample.fault
        "ERROR:  prepared transaction with this identifier does not exist")
    (events (Runs.pool_of Sample.sample_options 3 Sample.fresh_server))
  /\ exists pw : Value PoolWrapper,
       result (Runs.pool_of Sample.sample_options 3 Sample.fresh_server)
       = Normal (of_value pw).
Proof.
  split.
  - vm_compute. do 8 right. left. reflexivity.
  - destruct (rollback_failure_is_logged_and_not_fatal Runs.E
                (strategy_factory 0) Sample.sample_options 3 ["Storage"]
                (Sample.start Sample.valid_options Sample.fresh_server))
      as (_ & _ & _ & Hvalue).
    apply Hvalue.
    + reflexivity.
    + intros c e Hin. vm_compute in Hin.
      repeat (destruct Hin as [Hin | Hin];
              [first [discriminate Hin
                     | injection Hin as <- _; reflexivity] |]).
      destruct Hin.
Defined.

(** C9, as stated, fails: the error [rollbackPrepared] returns keeps the
    horizontal tab of the driver's message, a control character. *)
Lemma sanitizing_keeps_the_other_control_characters :
  result (rollbackPrepared Runs.F leased "prepared_blockd1a2b3c4"
            (Scripted.start Scripted.is_exec Runs.tab_message 1))
  = Normal (of_error (makeError Runs.tab_message))
  /\ has_control Runs.tab_message = true.
Proof. split; reflexivity. Qed.

(** C1 at work once more, and what the amended statement of C9 leaves
    open.  The scratch session is made before the [try] block of
    [prepareConnectionPool]: an exception of its constructor leaves the
    function.  And the [catch]
    block of [prepareConnectionPool] returns the message as it came, line
    breaks included, where the other three functions sanitize it. *)
Lemma lease_exception_leaves_prepareConnectionPool :
  result (prepareConnectionPool Runs.L (strategy_factory 0)
            Sample.sample_options 1 ["Storage"]
            (Scripted.start Scripted.is_lease "connection lost" 1))
  = Thrown (std_exception "connection lost").
Proof. vm_compute. reflexivity. Qed.

Lemma prepareConnectionPool_error_keeps_line_breaks :
  result (prepareConnectionPool Runs.P (strategy_factory 0)
            Sample.sample_options 1 ["Storage"]
            (Scripted.start Scripted.is_prepare Runs.two_lines 1))
  = Normal (of_error (makeError Runs.two_lines))
  /\ single_line Runs.two_lines = false.
Proof. split; vm_compute; reflexivity. Qed.

Lemma errors_and_notices_have_line_breaks_replaced_witness :
  result (rollbackPrepared Runs.E (pool_at 0) "prepared_blockd1a2b3c4"
            (Sample.start Sample.valid_options Sample.fresh_server))
  = Normal (of_error (makeError
      "ERROR:  prepared transaction with this identifier does not exist "))
  /\ single_line
       "ERROR:  prepared transaction with this identifier does not exist "
     = true.
Proof.
  assert (Hr : result (rollbackPrepared Runs.E (pool_at 0)
                         "prepared_blockd1a2b3c4"
                         (Sample.start Sample.valid_options
                            Sample.fresh_server))
               = Normal (of_error (makeError
                   "ERROR:  prepared transaction with this identifier does not exist ")))
    by (vm_compute; reflexivity).
  split; [exact Hr |].
  destruct (errors_and_notices_have_line_breaks_replaced Runs.E)
    as (_ & Hrollback & _).
  exact (proj1 (Hrollback (pool_at 0) "prepared_blockd1a2b3c4"
                  (Sample.start Sample.valid_options Sample.fresh_server)
                  _ Hr)).
Defined.

(** With options the server refuses, the error of the pool's opening is
    the error of [prepareConnectionPool]. *)
Lemma bind_short_circuits_on_error_witness :
  result (initPostgresConnection Runs.E (optionsString Runs.bad_options)
            (to_size_t 10)
            (Sample.start Sample.valid_options Sample.fresh_server))
  = Normal (of_error (makeError "FATAL:  role does not exist "))
  /\ result (Runs.pool_of Runs.bad_options 10 Sample.fresh_server)
     = Normal (of_error (makeError "FATAL:  role does not exist ")).
Proof.
  assert (Hr : result (initPostgresConnection Runs.E
                         (optionsString Runs.bad_options) (to_size_t 10)
                         (Sample.start Sample.valid_options
                            Sample.fresh_server))
               = Normal (of_error (makeError "FATAL:  role does not exist ")))
    by (vm_compute; reflexivity).
  split; [exact Hr |].
  destruct bind_short_circuits_on_error as (_ & _ & _ & _ & _ & Hpass).
  exact (proj1 (Hpass Runs.E (strategy_factory 0) Runs.bad_options 10%Z
                  ["Storage"]
                  (Sample.start Sample.valid_options Sample.fresh_server)
                  _ Hr)).
Defined.

(* ===================================================================== *)
(** ** Further properties: the result type *)
(* ===================================================================== *)

Section ResultLaws.

Local Open Scope list_scope.

(** X1: the bind operator obeys the laws of a monad, whatever the
    transformation functions do to their state.  A value bound to a
    function is the function applied to it; a result bound to the
    function that returns its argument unchanged is that result; and
    binding twice is binding once to the two functions chained. *)
Theorem operator_bar_monad_laws :
  forall (S V U T E : Type),
    (forall (v : V) (f : V -> S -> Result U E * S) (s : S),
        operator_bar (TypeHelper := BindReturnType_result U E)
          (of_value (makeValue v)) f s = f v s)
    /\ (forall (r : Result V E) (s : S),
           operator_bar (TypeHelper := BindReturnType_unwrapped V E)
             r (fun v s' => (v, s')) s = (r, s))
    /\ (forall (r : Result V E) (s : S),
           operator_bar (TypeHelper := BindReturnType_value V E)
             r (fun v s' => (makeValue v, s')) s = (r, s))
    /\ (forall (r : Result V E) (f : V -> S -> Result U E * S)
               (g : U -> S -> Result T E * S) (s : S),
           (let (r1, s1) :=
              operator_bar (TypeHelper := BindReturnType_result U E) r f s in
            operator_bar (TypeHelper := BindReturnType_result T E) r1 g s1)
           = operator_bar (TypeHelper := BindReturnType_result T E) r
               (fun v s0 =>
                  let (r', s') := f v s0 in
                  operator_bar (TypeHelper := BindReturnType_result T E)
                    r' g s')
               s).
Proof.
  intros S V U T E. split; [| split; [| split]].
  - intros v f s. unfold operator_bar, match_. cbn.
    destruct (f v s). reflexivity.
  - intros [[v] | [e]] s; reflexivity.
  - intros [[v] | [e]] s; reflexivity.
  - intros [[v] | [e]] f g s; unfold operator_bar, match_; cbn.
    + destruct (f v s) as [[[u] | [e]] s1]; cbn; [| reflexivity].
      destruct (g u s1). reflexivity.
    + reflexivity.
Qed.

(** X2: a chain of procedures bound one after the other stops at the first
    error.  From a result that holds an error, the chain returns that
    error and leaves the state as it was, however many procedures follow:
    none of them is called.  From a value, the chain is the first
    procedure's result followed by the rest of the chain; a chain of two
    lists is the first list's chain followed by the second's.  And the
    procedure bind is the bind operator for a function that ignores its
    argument. *)
Theorem chain_stops_at_first_error :
  forall (S T E : Type),
    (forall (procedures : list (S -> Result T E * S)) (e : Error E) (s : S),
        chain procedures (of_error e) s = (of_error e, s))
    /\ (forall (procedures : list (S -> Result T E * S))
               (f : S -> Result T E * S) (v : Value T) (s : S),
           chain (f :: procedures) (of_value v) s
           = chain procedures (fst (f s)) (snd (f s)))
    /\ (forall (before after_ : list (S -> Result T E * S))
               (r : Result T E) (s : S),
           chain (before ++ after_) r s
           = chain after_ (fst (chain before r s)) (snd (chain before r s)))
    /\ (forall (r : Result T E) (f : S -> Result T E * S) (s : S),
           operator_bar_procedure r f s
           = operator_bar (TypeHelper := BindReturnType_result T E)
               r (fun _ => f) s).
Proof.
  intros S T E.
  assert (Herr : forall (procedures : list (S -> Result T E * S))
                        (e : Error E) (s : S),
             chain procedures (of_error e) s = (of_error e, s)).
  { induction procedures as [| f rest IH]; intros [e] s; [reflexivity |].
    cbn. apply IH. }
  split; [exact Herr | split; [| split]].
  - intros procedures f v s. cbn. destruct (f s). reflexivity.
  - induction before as [| f rest IH]; intros after_ r s.
    + reflexivity.
    + cbn. destruct (operator_bar_procedure r f s) as [r' s']. apply IH.
  - intros [[v] | [e]] f s; unfold operator_bar_procedure, operator_bar,
      match_; cbn; [destruct (f s) |]; reflexivity.
Qed.

(** X3: [and_res] and [or_res] are the lazy AND and OR of results.  Whether
    the outcome holds a value is the conjunction, or the disjunction, of
    whether the arguments do; both operations are associative and
    idempotent and absorb each other; a value is neutral for [and_res],
    an error for [or_res]. *)
Theorem and_res_or_res_algebra :
  forall (V E : Type) (a b c : Result V E),
    hasValue (and_res a b) = hasValue a && hasValue b
    /\ hasValue (or_res a b) = hasValue a || hasValue b
    /\ and_res (and_res a b) c = and_res a (and_res b c)
    /\ or_res (or_res a b) c = or_res a (or_res b c)
    /\ and_res a a = a
    /\ or_res a a = a
    /\ or_res a (and_res a b) = a
    /\ and_res a (or_res a b) = a
    /\ (forall v : Value V, and_res (of_value v) b = b)
    /\ (forall e : Error E, or_res (of_error e) b = b).
Proof.
  intros V E [va | ea] [vb | eb] [vc | ec]; cbn;
    repeat split; try reflexivity; try discriminate.
Qed.

(** X4: [map_error] changes the error of a result and nothing else.  It
    keeps a value as it is, maps an error through the callback, and obeys
    the laws of a functor: mapping the identity changes nothing, mapping
    twice is mapping the composition. *)
Theorem map_error_functor_laws :
  forall (V E1 E2 E3 : Type) (r : Result V E1) (f : E1 -> E2) (g : E2 -> E3),
    map_error r (fun e => e) = r
    /\ map_error (map_error r f) g = map_error r (fun e => g (f e))
    /\ resultToOptionalValue (map_error r f) = resultToOptionalValue r
    /\ resultToOptionalError (map_error r f)
       = option_map f (resultToOptionalError r)
    /\ hasValue (map_error r f) = hasValue r.
Proof.
  intros V E1 E2 E3 [[v] | [e]] f g; cbn; repeat split; reflexivity.
Qed.

(** X5: the checkers and the converters to optionals agree, and lose
    nothing.  A result holds a value or an error and never both; its
    optional value is there exactly when it holds that value, its optional
    error exactly when it holds that error; so a result is known from its
    two optionals. *)
Theorem result_and_its_optionals :
  forall (V E : Type) (r : Result V E),
    hasError r = negb (hasValue r)
    /\ (forall v, resultToOptionalValue r = Some v
                  <-> r = of_value (makeValue v))
    /\ (forall e, resultToOptionalError r = Some e
                  <-> r = of_error (makeError e))
    /\ (resultToOptionalValue r = None <-> hasError r = true)
    /\ (resultToOptionalError r = None <-> hasValue r = true)
    /\ r = match resultToOptionalValue r, resultToOptionalError r with
           | Some v, _ => of_value (makeValue v)
           | None, Some e => of_error (makeError e)
           | None, None => r
           end.
Proof.
  intros V E r. unfold makeValue, makeError.
  split; [| split; [| split; [| split; [| split]]]].
  - destruct r; reflexivity.
  - intros v. destruct r as [[w] | [e]]; cbn; split; intros H;
      try discriminate H; congruence.
  - intros e. destruct r as [[w] | [e']]; cbn; split; intros H;
      try discriminate H; congruence.
  - destruct r as [[w] | [e]]; cbn; split; intros H;
      try discriminate H; reflexivity.
  - destruct r as [[w] | [e]]; cbn; split; intros H;
      try discriminate H; reflexivity.
  - destruct r as [[w] | [e]]; reflexivity.
Qed.

End ResultLaws.

(* ===================================================================== *)
(** ** Further properties: messages *)
(* ===================================================================== *)

Section MessageLaws.

(** X6: sanitizing a message twice is sanitizing it once; the messages it
    leaves as they are are exactly the single-line ones; and the sanitized
    concatenation of two messages is the concatenation of the sanitized
    messages. *)
Theorem formatPostgresMessage_laws :
  forall a b : string,
    formatPostgresMessage (formatPostgresMessage a) = formatPostgresMessage a
    /\ (formatPostgresMessage a = a <-> single_line a = true)
    /\ formatPostgresMessage (a ++ b)%string
       = (formatPostgresMessage a ++ formatPostgresMessage b)%string.
Proof.
  intros a b. unfold formatPostgresMessage, single_line.
  split; [| split].
  - induction a as [| c a IH]; [reflexivity |].
    cbn [replace_if]. rewrite IH. f_equal.
    destruct (is_any_of CRLF c) eqn:Hc; [reflexivity | rewrite Hc; reflexivity].
  - rewrite negb_true_iff. induction a as [| c a IH]; [split; reflexivity |].
    cbn [replace_if list_ascii_of_string existsb].
    destruct (is_any_of CRLF c) eqn:Hc; cbn [orb].
    + split; [| discriminate]. intros H. injection H as Hc' _.
      rewrite <- Hc' in Hc. discriminate Hc.
    + split.
      * intros H. injection H as H. apply IH. exact H.
      * intros H. f_equal. apply IH. exact H.
  - induction a as [| c a IH]; [reflexivity |].
    cbn [append replace_if]. rewrite IH. reflexivity.
Qed.

End MessageLaws.

(* ===================================================================== *)
(** ** Further properties: the pool *)
(* ===================================================================== *)

Section Counter.

Variable D : Environment.

Local Open Scope list_scope.

Lemma callbacks_app (l1 l2 : list (call * reply)) :
  callbacks (l1 ++ l2) = callbacks l1 ++ callbacks l2.
Proof.
  induction l1 as [| [c r] l1 IH]; simpl; [reflexivity |].
  destruct c; simpl; rewrite ?IH; reflexivity.
Qed.

Lemma calls_made_app (l1 l2 : list (call * reply)) :
  calls_made (l1 ++ l2) = calls_made l1 ++ calls_made l2.
Proof. unfold calls_made. rewrite map_app, filter_app. reflexivity. Qed.

Lemma calls_made_opens (options_str : string) (evs : list (call * reply))
    (first count : nat) :
  map fst evs = opens options_str first count ->
  calls_made evs = opens options_str first count.
Proof.
  unfold calls_made. intros ->. unfold opens.
  induction (seq first count) as [| i l IH]; [reflexivity |].
  cbn [map filter is_log negb]. rewrite IH. reflexivity.
Qed.

Lemma callbacks_opens (options_str : string) (evs : list (call * reply)) :
  forall first count,
    map fst evs = opens options_str first count -> callbacks evs = [].
Proof.
  induction evs as [| [c r] evs IH]; intros first count H; [reflexivity |].
  destruct count as [| count]; [discriminate H |].
  unfold opens in H. cbn [seq map fst] in H. injection H as Hc Hrest.
  subst c. cbn [callbacks]. exact (IH (S first) count Hrest).
Qed.

Variable factory : ReconnectionStrategyFactory.
Variable options : string.
Variable log_manager : LoggerManagerTree.

Let attach : session -> M D unit :=
init_failover_callback D factory options log_manager.

Variable enable : bool.
Variable name : string.
Variable prepare_tables_sql : string.

Let once : session -> M D unit :=
init_db D (try_rollback D enable name log_manager) prepare_tables_sql.

(** The database-level initialisation asks for no callback, leaves the
    counter alone and returns or throws. *)
Lemma once_run (sess : session) (st : state D) :
  callbacks (events (once sess st)) = []
  /\ connection_index (after (once sess st)) = connection_index st
  /\ result (once sess st) <> Aborted
  /\ calls_made (events (once sess st))
     = (if enable
        then [Exec sess ("ROLLBACK PREPARED '" ++ name ++ "';")%string]
        else [])
       ++ [Exec sess prepare_tables_sql].
Proof.
  unfold once. rewrite init_db_run. cbv zeta.
  cbn [events after result connection_index].
  rewrite callbacks_app, calls_made_app, try_rollback_run. cbv zeta.
  split; [| split; [| split]].
  - destruct enable; cbn [events];
      [destruct (fst (respond D _ (world st))) |]; reflexivity.
  - destruct enable; reflexivity.
  - destruct (fst (respond D (Exec sess prepare_tables_sql) _)); discriminate.
  - destruct enable; cbn [events];
      [destruct (fst (respond D _ (world st))) |]; reflexivity.
Qed.

Lemma calls_made_cons (c : call) (r : reply) (l : list (call * reply)) :
  calls_made ((c, r) :: l) = (if is_log c then [] else [c]) ++ calls_made l.
Proof. unfold calls_made. cbn [map fst filter]. destruct (is_log c); reflexivity. Qed.

(** Bringing a slot up asks for exactly one callback, that of the slot at
    the counter's value, and moves the counter by one, however it ends;
    when it returns, its calls are those of [slot_calls]. *)
Lemma slot_run (first : bool) (i : nat) (st : state D) :
  let r := initialize_session D (getLogger log_manager) (pool_at i)
             (if first then once else no_hook D) attach st in
  callbacks (events r)
  = [callback_of factory options log_manager i (connection_index st)]
  /\ connection_index (after r) = S (connection_index st)
  /\ result r <> Aborted
  /\ (result r = Normal tt ->
      calls_made (events r)
      = slot_calls first enable name prepare_tables_sql factory options
          log_manager i (connection_index st)).
Proof.
  cbv zeta. rewrite initialize_session_run. cbv zeta.
  unfold attach. rewrite init_failover_callback_run. cbv zeta.
  cbn [result events after world connection_index].
  set (a := fst (respond D (MakeFailoverCallback (pool_at i) options factory _)
                   (world st))).
  set (st1 := mkState _ (S (connection_index st))).
  assert (Hhook :
    callbacks (events ((if first then once else no_hook D) (pool_at i) st1))
    = []
    /\ connection_index
         (after ((if first then once else no_hook D) (pool_at i) st1))
       = S (connection_index st)
    /\ result ((if first then once else no_hook D) (pool_at i) st1)
       <> Aborted
    /\ calls_made
         (events ((if first then once else no_hook D) (pool_at i) st1))
       = if first
         then (if enable
               then [Exec (pool_at i)
                       ("ROLLBACK PREPARED '" ++ name ++ "';")%string]
               else [])
              ++ [Exec (pool_at i) prepare_tables_sql]
         else []).
  { destruct first.
    - destruct (once_run (pool_at i) st1) as (H1 & H2 & H3 & H4).
      repeat split; assumption.
    - cbn. repeat split. discriminate. }
  destruct Hhook as (Hcb & Hci & Hab & Hcalls).
  set (hook := (if first then once else no_hook D) (pool_at i) st1) in *.
  set (p := fst (respond D (PrepareStatements (pool_at i))
                   (world (after hook)))).
  assert (Hdone :
    forall a', is_fault a' = false ->
    let r := match result hook with
             | Normal _ =>
                 mkRun (D := D)
                   (match p with Fault e => Thrown e | _ => Normal tt end)
                   ((SetNoticeProcessor (pool_at i) (getLogger log_manager),
                     Done)
                      :: [(MakeFailoverCallback (pool_at i) options factory
                             (getLogger (getChild log_manager
                                ("SOCI connection "
                                   ++ to_string (connection_index st))%string)),
                           a');
                          (SetFailoverCallback (pool_at i), Done)]
                      ++ events hook ++ [(PrepareStatements (pool_at i), p)])
                   (mkState (snd (respond D (PrepareStatements (pool_at i))
                                    (world (after hook))))
                      (connection_index (after hook)))
             | Thrown e =>
                 mkRun (Thrown e)
                   ((SetNoticeProcessor (pool_at i) (getLogger log_manager),
                     Done)
                      :: [(MakeFailoverCallback (pool_at i) options factory
                             (getLogger (getChild log_manager
                                ("SOCI connection "
                                   ++ to_string (connection_index st))%string)),
                           a');
                          (SetFailoverCallback (pool_at i), Done)]
                      ++ events hook)
                   (after hook)
             | Aborted =>
                 mkRun Aborted
                   ((SetNoticeProcessor (pool_at i) (getLogger log_manager),
                     Done)
                      :: [(MakeFailoverCallback (pool_at i) options factory
                             (getLogger (getChild log_manager
                                ("SOCI connection "
                                   ++ to_string (connection_index st))%string)),
                           a');
                          (SetFailoverCallback (pool_at i), Done)]
                      ++ events hook)
                   (after hook)
             end in
    callbacks (events r)
    = [callback_of factory options log_manager i (connection_index st)]
    /\ connection_index (after r) = S (connection_index st)
    /\ result r <> Aborted
    /\ (result r = Normal tt ->
        calls_made (events r)
        = slot_calls first enable name prepare_tables_sql factory options
            log_manager i (connection_index st))).
  { intros a' _. cbv zeta.
    destruct (result hook) as [[] | e |] eqn:Hh;
      [| | exfalso; apply Hab; reflexivity];
      cbn [result events after connection_index].
    - split; [| split; [exact Hci | split]].
      + cbn [callbacks app]. rewrite !callbacks_app, Hcb. reflexivity.
      + destruct p; discriminate.
      + intros _. rewrite !calls_made_cons, !calls_made_app, !calls_made_cons.
        rewrite Hcalls. unfold slot_calls. cbn [is_log app calls_made map filter].
        destruct first; reflexivity.
    - split; [| split; [exact Hci | split; [discriminate | discriminate]]].
      cbn [callbacks app]. rewrite !callbacks_app, Hcb. reflexivity. }
  destruct a as [| z | e] eqn:Ha.
  - apply Hdone. reflexivity.
  - apply Hdone. reflexivity.
  - cbn [result events after connection_index callbacks].
    repeat split; discriminate.
Qed.

(** The callbacks of [m] slots from slot [first] on, the counter at [c]. *)
Lemma callbacks_shift (first c m : nat) :
  callback_of factory options log_manager first c
    :: map (fun k => callback_of factory options log_manager
                       (S first + k) (S c + k)) (seq 0 m)
  = map (fun k => callback_of factory options log_manager
                    (first + k) (c + k)) (seq 0 (S m)).
Proof.
  cbn [seq map]. rewrite !Nat.add_0_r. f_equal.
  rewrite <- seq_shift, map_map. apply map_ext. intros k.
  rewrite <- !plus_n_Sm. reflexivity.
Qed.

Lemma rest_run (pool : connection_pool) (count first : nat) (st : state D) :
  let r := for_loop D first count
             (fun i => initialize_session D (getLogger log_manager)
                         (at_ pool i) (no_hook D) attach) st in
  exists m : nat,
    m <= count
    /\ callbacks (events r)
       = map (fun k => callback_of factory options log_manager
                         (first + k) (connection_index st + k)) (seq 0 m)
    /\ connection_index (after r) = connection_index st + m
    /\ result r <> Aborted
    /\ (result r = Normal tt ->
        m = count
        /\ calls_made (events r)
           = rest_calls name prepare_tables_sql factory options log_manager
               first count (connection_index st)).
Proof.
  cbv zeta. revert first st. induction count as [| count IH]; intros first st.
  - exists 0. cbn. rewrite Nat.add_0_r.
    repeat split; try reflexivity; try lia. discriminate.
  - cbn [for_loop]. rewrite result_bind, events_bind, after_bind.
    destruct (slot_run false first st) as (Hcb & Hci & Hab & Hcalls).
    cbv zeta in Hcb, Hci, Hab, Hcalls. change (at_ pool first) with (pool_at first).
    set (r1 := initialize_session D (getLogger log_manager) (pool_at first)
                 (no_hook D) attach st) in *.
    destruct (result r1) as [[] | e |] eqn:Hr1.
    + destruct (IH (S first) (after r1)) as (m & Hm & Hcb' & Hci' & Hab' & Hn').
      rewrite Hci in Hcb', Hci'.
      exists (S m). split; [lia |]. split; [| split; [| split]].
      * rewrite callbacks_app, Hcb, Hcb'. apply callbacks_shift.
      * rewrite Hci'. lia.
      * exact Hab'.
      * intros Hr. destruct (Hn' Hr) as (-> & Hcalls').
        split; [reflexivity |].
        rewrite calls_made_app, (Hcalls eq_refl), Hcalls', Hci.
        reflexivity.
    + exists 1. split; [lia |]. rewrite app_nil_r, Hcb, Hci.
      cbn [seq map]. rewrite !Nat.add_0_r.
      repeat split; try discriminate. lia.
    + exfalso. apply Hab. reflexivity.
Qed.

(** A pool construction asks for the callbacks of the slots in their
    order, numbered from the counter's value, one for each slot it started
    to bring up, and leaves the counter moved by their number; when it
    returns, it has made the calls of every slot. *)
Lemma pool_run_in_full (pool : connection_pool) (pool_size : nat)
    (holder : FailoverCallbackHolder) (st : state D) :
  let r := initializeConnectionPool D pool pool_size prepare_tables_sql
             (try_rollback D enable name log_manager) holder factory options
             log_manager st in
  exists m : nat,
    (m <= pool_size /\ (pool_size <> 0 -> m <> 0))
    /\ callbacks (events r)
       = map (fun k => callback_of factory options log_manager k
                         (connection_index st + k)) (seq 0 m)
    /\ connection_index (after r) = connection_index st + m
    /\ (result r = Normal tt ->
        m = pool_size
        /\ calls_made (events r)
           = slot_calls true enable name prepare_tables_sql factory options
               log_manager 0 (connection_index st)
             ++ rest_calls name prepare_tables_sql factory options
                  log_manager 1 (pool_size - 1) (S (connection_index st))).
Proof.
  cbv zeta. unfold initializeConnectionPool. cbv zeta.
  fold attach. fold once.
  destruct pool_size as [| n]; cbn [Nat.ltb Nat.leb].
  { rewrite assert_false_run. exists 0. cbn. rewrite Nat.add_0_r.
    repeat split; try reflexivity; try lia; discriminate. }
  rewrite assert_true_run. change (at_ pool 0) with (pool_at 0).
  replace (S n - 1) with n by lia.
  rewrite result_bind, events_bind, after_bind.
  destruct (slot_run true 0 st) as (Hcb & Hci & Hab & Hcalls).
  cbv zeta in Hcb, Hci, Hab, Hcalls.
  set (r1 := initialize_session D (getLogger log_manager) (pool_at 0) once
               attach st) in *.
  destruct (result r1) as [[] | e |] eqn:Hr1.
  - destruct (rest_run pool n 1 (after r1))
      as (m & Hm & Hcb' & Hci' & Hab' & Hn').
    cbv zeta in Hcb', Hci', Hab', Hn'. rewrite Hci in Hcb', Hci'.
    exists (S m). split; [lia |]. split; [| split].
    + rewrite callbacks_app, Hcb, Hcb'.
      exact (callbacks_shift 0 (connection_index st) m).
    + rewrite Hci'. lia.
    + intros Hr. destruct (Hn' Hr) as (-> & Hcalls').
      split; [reflexivity |].
      rewrite calls_made_app, (Hcalls eq_refl), Hcalls', Hci. reflexivity.
  - exists 1. split; [lia |]. rewrite app_nil_r, Hcb, Hci.
    cbn [seq map]. rewrite !Nat.add_0_r.
    repeat split; try discriminate. lia.
  - exfalso. apply Hab. reflexivity.
Qed.

End Counter.

(** X7: the failover callbacks of a pool construction are numbered by the
    counter [connection_index], which outlives the call.  A construction
    that starts with the counter at [c] asks for the callbacks of the slots
    0, 1, ..., [m - 1], in that order, the callback of slot [k] with the
    logger ["SOCI connection "] followed by [c + k], each with the
    reconnection options and the strategy factory it was given; it leaves
    the counter at [c + m].  Here [m] is the number of slots it started to
    bring up: all of them when it returns, at least one for a pool that
    has a slot.  The numbers of a second construction in the same process
    therefore go on where those of the first ended. *)
Theorem failover_callbacks_are_numbered_by_the_counter :
  forall (D : Environment) (pool : connection_pool) (pool_size : nat)
         (prepare_tables_sql : string) (enable : bool) (name : string)
         (holder : FailoverCallbackHolder)
         (factory : ReconnectionStrategyFactory) (options : string)
         (log_manager : LoggerManagerTree) (st : state D),
    let r := initializeConnectionPool D pool pool_size prepare_tables_sql
               (try_rollback D enable name log_manager) holder factory
               options log_manager st in
    exists m : nat,
      m <= pool_size
      /\ (pool_size <> 0 -> m <> 0)
      /\ callbacks (events r)
         = map (fun k => callback_of factory options log_manager k
                           (connection_index st + k)) (seq 0 m)
      /\ connection_index (after r) = connection_index st + m
      /\ (result r = Normal tt -> m = pool_size).
Proof.
  intros D pool pool_size prepare_tables_sql enable name holder factory
    options log_manager st r.
  destruct (pool_run_in_full D factory options log_manager enable name
              prepare_tables_sql pool pool_size holder st)
    as (m & (Hm & Hpos) & Hcb & Hci & Hdone).
  exists m. repeat split; try assumption.
  intros Hr. exact (proj1 (Hdone Hr)).
Qed.

(* ===================================================================== *)
(** ** Further properties: the orchestration *)
(* ===================================================================== *)

Section Script.

Variable D : Environment.

Local Open Scope list_scope.

Lemma open_loop_counter (options_str : string) (count first : nat)
    (st : state D) :
  connection_index
    (after (for_loop D first count
              (fun i => driver (Open (pool_at i) options_str) ;; ret tt) st))
  = connection_index st.
Proof.
  revert first st. induction count as [| count IH]; intros first st.
  - reflexivity.
  - cbn [for_loop]. rewrite after_bind, driver_unit_run.
    cbn [result after].
    destruct (fst (respond D _ (world st))); try reflexivity;
      rewrite IH; reflexivity.
Qed.

Lemma initPostgresConnection_counter (options_str : string)
    (pool_size : nat) (st : state D) :
  connection_index (after (initPostgresConnection D options_str pool_size st))
  = connection_index st.
Proof.
  unfold initPostgresConnection, at_.
  rewrite after_bind, make_shared_connection_pool_run.
  destruct (pool_error D pool_size (world st)); cbn [result after];
    [reflexivity |].
  rewrite try_catch_run, bind_run.
  pose proof (open_loop_counter options_str pool_size 0 st) as H.
  destruct (result (for_loop D 0 pool_size _ st)); cbn [result after ret];
    exact H.
Qed.

(** *** Where an exception comes from *)

Lemma stops_at_ret (A : Type) (P : call -> bool) (a : A) :
  stops_at D P (ret (D := D) a).
Proof. intros st e H. discriminate H. Qed.

Lemma stops_at_bind (A B : Type) (P : call -> bool) (m : M D A)
    (k : A -> M D B) :
  stops_at D P m -> (forall a, stops_at D P (k a)) ->
  stops_at D P (bind m k).
Proof.
  intros Hm Hk st e. rewrite result_bind, events_bind.
  destruct (result (m st)) as [a | e' |] eqn:Hr.
  - intros H. destruct (Hk a _ _ H) as (before & c & Hev & Hc).
    exists (events (m st) ++ before), c. rewrite Hev, app_assoc.
    split; [reflexivity | exact Hc].
  - intros H. injection H as ->. rewrite app_nil_r. exact (Hm st e Hr).
  - discriminate.
Qed.

Lemma stops_at_driver (P : call -> bool) (c : call) :
  P c = true -> stops_at D P (driver c).
Proof.
  intros Hc st e. rewrite driver_run. cbn [result events].
  destruct (fst (respond D c (world st))) as [| z | e']; try discriminate.
  intros H. injection H as ->. exists [], c. split; [reflexivity | exact Hc].
Qed.

Lemma stops_at_local (P : call -> bool) (c : call) :
  stops_at D P (local (D := D) c).
Proof. intros st e H. discriminate H. Qed.

Lemma stops_at_for_loop (P : call -> bool) (body : nat -> M D unit) :
  (forall i, stops_at D P (body i)) ->
  forall count first, stops_at D P (for_loop D first count body).
Proof.
  intros Hbody. induction count as [| count IH]; intros first.
  - apply stops_at_ret.
  - cbn [for_loop]. apply stops_at_bind; [apply Hbody |]. intros _. apply IH.
Qed.

Lemma stops_at_init_failover_callback (P : call -> bool) factory options
    log_manager sess :
  (forall s o f l, P (MakeFailoverCallback s o f l) = true) ->
  stops_at D P (init_failover_callback D factory options log_manager sess).
Proof.
  intros HP. unfold init_failover_callback.
  apply stops_at_bind; [intros st e H; discriminate H | intros index].
  apply stops_at_bind; [apply stops_at_driver, HP | intros _].
  apply stops_at_local.
Qed.

Lemma stops_at_initialize_session (P : call -> bool) (log : list string)
    (sess : session) (on_init_db on_init_connection : session -> M D unit) :
  (forall s, P (PrepareStatements s) = true) ->
  stops_at D P (on_init_connection sess) ->
  stops_at D P (on_init_db sess) ->
  stops_at D P
    (initialize_session D log sess on_init_db on_init_connection).
Proof.
  intros HP Hc Hd. unfold initialize_session.
  apply stops_at_bind; [apply stops_at_local | intros _].
  apply stops_at_bind; [exact Hc | intros _].
  apply stops_at_bind; [exact Hd | intros _].
  apply stops_at_bind; [apply stops_at_driver, HP | intros _].
  apply stops_at_ret.
Qed.

Lemma stops_at_initializeConnectionPool pool pool_size prepare_tables_sql
    enable name holder factory options log_manager :
  stops_at D (initialises prepare_tables_sql)
    (initializeConnectionPool D pool pool_size prepare_tables_sql
       (try_rollback D enable name log_manager) holder factory options
       log_manager).
Proof.
  unfold initializeConnectionPool. cbv zeta.
  apply stops_at_bind; [| intros _].
  { intros st e H. unfold assert in H. cbn [result] in H.
    destruct (0 <? pool_size)%nat; discriminate H. }
  apply stops_at_bind; [| intros _].
  - apply stops_at_initialize_session; [reflexivity | |].
    + apply stops_at_init_failover_callback. reflexivity.
    + unfold init_db. apply stops_at_bind; [| intros _].
      { intros st e H. rewrite try_rollback_run in H. cbv zeta in H.
        destruct enable; discriminate H. }
      apply stops_at_bind; [| intros _; apply stops_at_ret].
      apply stops_at_driver. cbn [initialises]. apply String.eqb_refl.
  - apply stops_at_for_loop. intros i.
    apply stops_at_initialize_session; [reflexivity | |].
    + apply stops_at_init_failover_callback. reflexivity.
    + apply stops_at_ret.
Qed.

(** *** The sessions a run touches *)

Lemma every_for_loop_from R (body : nat -> M D unit) :
  extensible R ->
  forall count first,
    (forall i, first <= i < first + count -> every D R (body i)) ->
    every D R (for_loop D first count body).
Proof.
  intros Hext. induction count as [| count IH]; intros first Hbody.
  - apply every_ret.
  - cbn [for_loop]. apply every_bind; [exact Hext | apply Hbody; lia |].
    intros _. apply IH. intros i Hi. apply Hbody. lia.
Qed.

Lemma picked_extensible (P : call -> bool) :
  extensible (fun _ ev => P (fst ev) = true).
Proof. intros l1 l l2 ev H. exact H. Qed.

Lemma every_all_calls (A : Type) (P : call -> bool) (m : M D A) :
  every D (fun _ ev => P (fst ev) = true) m ->
  forall st, all_calls P (events (m st)) = true.
Proof.
  intros H st. unfold all_calls. apply forallb_forall. intros ev Hin.
  exact (H st ev Hin).
Qed.

Lemma within_initialize_session (n i : nat) (log : list string)
    (on_init_db on_init_connection : session -> M D unit) :
  i < n ->
  every D (fun _ ev => within n (fst ev) = true)
    (on_init_connection (pool_at i)) ->
  every D (fun _ ev => within n (fst ev) = true) (on_init_db (pool_at i)) ->
  every D (fun _ ev => within n (fst ev) = true)
    (initialize_session D log (pool_at i) on_init_db on_init_connection).
Proof.
  intros Hi Hc Hd. apply Nat.ltb_lt in Hi. unfold initialize_session.
  apply every_bind; [apply picked_extensible | | intros _].
  { apply every_local. exact Hi. }
  apply every_bind; [apply picked_extensible | exact Hc | intros _].
  apply every_bind; [apply picked_extensible | exact Hd | intros _].
  apply every_bind; [apply picked_extensible | | intros _; apply every_ret].
  apply every_driver. intros r. exact Hi.
Qed.

Lemma within_init_failover_callback (n i : nat) factory options log_manager :
  i < n ->
  every D (fun _ ev => within n (fst ev) = true)
    (init_failover_callback D factory options log_manager (pool_at i)).
Proof.
  intros Hi. apply Nat.ltb_lt in Hi. unfold init_failover_callback.
  apply every_bind; [apply picked_extensible | | intros index].
  { intros st ev []. }
  apply every_bind; [apply picked_extensible | | intros _].
  - apply every_driver. intros r. exact Hi.
  - apply every_local. exact Hi.
Qed.

Lemma within_try_rollback (n i : nat) enable name log_manager :
  i < n ->
  every D (fun _ ev => within n (fst ev) = true)
    (try_rollback D enable name log_manager (pool_at i)).
Proof.
  intros Hi. apply Nat.ltb_lt in Hi. intros st ev.
  rewrite try_rollback_run. cbv zeta. destruct enable; [| intros []].
  cbn [events]. intros [<- | Hin]; [exact Hi |].
  destruct (fst (respond D _ (world st))); try contradiction.
  destruct Hin as [<- | []]. reflexivity.
Qed.

Lemma within_initializeConnectionPool pool pool_size prepare_tables_sql
    enable name holder factory options log_manager :
  every D (fun _ ev => within pool_size (fst ev) = true)
    (initializeConnectionPool D pool pool_size prepare_tables_sql
       (try_rollback D enable name log_manager) holder factory options
       log_manager).
Proof.
  unfold initializeConnectionPool. cbv zeta.
  destruct pool_size as [| n].
  { intros st ev. rewrite assert_false_run. intros []. }
  intros st. cbn [Nat.ltb Nat.leb]. rewrite assert_true_run. revert st.
  change (every D (fun _ ev => within (S n) (fst ev) = true)
    (initialize_session D (getLogger log_manager) (at_ pool 0)
       (init_db D (try_rollback D enable name log_manager)
          prepare_tables_sql)
       (init_failover_callback D factory options log_manager) ;;
     for_loop D 1 (S n - 1)
       (fun i =>
          initialize_session D (getLogger log_manager) (at_ pool i)
            (no_hook D)
            (init_failover_callback D factory options log_manager)))).
  apply every_bind; [apply picked_extensible | | intros _].
  - apply within_initialize_session; [lia | |].
    + apply within_init_failover_callback. lia.
    + unfold init_db.
      apply every_bind; [apply picked_extensible | | intros _].
      { apply within_try_rollback. lia. }
      apply every_bind; [apply picked_extensible | | intros _; apply every_ret].
      apply every_driver. intros r. reflexivity.
  - apply every_for_loop_from; [apply picked_extensible |]. intros i Hi.
    apply within_initialize_session; [lia | |].
    + apply within_init_failover_callback. lia.
    + apply every_ret.
Qed.

End Script.

Section ScriptOutcome.

Variable D : Environment.

Local Open Scope list_scope.

Variable factory : ReconnectionStrategyFactory.
Variable options : PostgresOptions.
Variable pool_size : Z.
Variable log_manager : LoggerManagerTree.

(** The pool construction aborts for the pool of no slot, and only then. *)
Lemma construction_aborts (enable : bool) (pool : connection_pool)
    (st : state D) :
  result (construction D factory options pool_size log_manager enable pool st)
  = Aborted
  <-> to_size_t pool_size = 0.
Proof.
  split.
  - intros H. destruct (Nat.eq_dec (to_size_t pool_size) 0) as [E | N];
      [exact E | exfalso].
    pose proof (construction_sound D factory options pool_size log_manager N
                  enable pool st) as Hs.
    rewrite H in Hs. exact Hs.
  - intros E. unfold construction, initializeConnectionPool. cbv zeta.
    rewrite E. cbn [Nat.ltb Nat.leb]. rewrite assert_false_run. reflexivity.
Qed.

Lemma within_prepareConnectionPool :
  every D (fun _ ev => within (to_size_t pool_size) (fst ev) = true)
    (prepareConnectionPool D factory options pool_size log_manager).
Proof.
  unfold prepareConnectionPool. cbv zeta.
  apply every_bind; [apply picked_extensible | | intros [v | e]].
  - unfold initPostgresConnection. cbv zeta.
    apply every_bind;
      [ apply picked_extensible
      | apply every_make_shared_connection_pool
      | intros pool ].
    apply every_try_catch;
      [apply picked_extensible | | intros e; apply every_ret].
    apply every_bind; [apply picked_extensible | | intros _; apply every_ret].
    apply every_for_loop_from; [apply picked_extensible |]. intros i Hi.
    apply every_bind; [apply picked_extensible | | intros _; apply every_ret].
    apply every_driver. intros r. cbn. apply Nat.ltb_lt. lia.
  - apply every_bind; [apply picked_extensible | | intros _].
    { apply every_driver. intros r. reflexivity. }
    apply every_bind; [apply picked_extensible | | intros enable].
    { unfold preparedTransactionsAvailable.
      apply every_try_catch;
        [apply picked_extensible | | intros e; apply every_ret].
      apply every_bind; [apply picked_extensible | | intros r; apply every_ret].
      apply every_driver. intros r. reflexivity. }
    apply every_try_catch;
      [apply picked_extensible | | intros e; apply every_ret].
    apply every_bind; [apply picked_extensible | | intros _; apply every_ret].
    apply within_initializeConnectionPool.
  - apply every_ret.
Qed.

End ScriptOutcome.

(** X8: the calls of a successful [prepareConnectionPool], in full.  When
    it returns a pool, the calls it made, those to the logger left out,
    are: the opening of the slots 0, ..., [pool_size - 1] with the full
    option string; the lease of the scratch session and the capability
    query on it; on slot 0 the notice processor, the failover callback
    (made, then set), the rollback of ["prepared_block" ++ dbname] when
    the flag of the returned pool is set, the schema text, the prepared
    statements; and on each further slot, in order, the notice processor,
    the callback (made, then set) and the prepared statements.  The pool
    has at least one slot, the wrapper holds the pool of that size, and
    the counter has moved by the number of slots. *)
Theorem prepareConnectionPool_success_script :
  forall (D : Environment) (factory : ReconnectionStrategyFactory)
         (options : PostgresOptions) (pool_size : Z)
         (log_manager : LoggerManagerTree) (st : state D)
         (pw : Value PoolWrapper),
    let r := prepareConnectionPool D factory options pool_size log_manager
               st in
    result r = Normal (of_value pw) ->
    calls_made (events r)
    = opens (optionsString options) 0 (to_size_t pool_size)
      ++ [Lease; Query leased "SHOW max_prepared_transactions;" []]
      ++ slot_calls true (enable_prepared_transactions_of (value pw))
           ("prepared_block" ++ dbname options)%string
           (init_ (RolePermissionSet_size D) (GrantablePermissionSet_size D))
           factory (optionsStringWithoutDbName options) log_manager 0
           (connection_index st)
      ++ rest_calls ("prepared_block" ++ dbname options)%string
           (init_ (RolePermissionSet_size D) (GrantablePermissionSet_size D))
           factory (optionsStringWithoutDbName options) log_manager 1
           (to_size_t pool_size - 1) (S (connection_index st))
    /\ to_size_t pool_size <> 0
    /\ connection_pool_of (value pw)
       = make_connection_pool (to_size_t pool_size)
    /\ connection_index (after r)
       = connection_index st + to_size_t pool_size.
Proof.
  intros D factory options pool_size log_manager st pw r Hr. subst r.
  destruct (prepareConnectionPool_value D factory options pool_size
              log_manager st pw Hr)
    as (Hr0 & Hok & Hl & Hbody & Hpw & Hev).
  cbv zeta in Hr0, Hok, Hl, Hbody, Hpw, Hev.
  assert (Hafter :
    after (prepareConnectionPool D factory options pool_size log_manager st)
    = after (construction D factory options pool_size log_manager
               (reports_support
                  (fst (respond D
                          (Query leased "SHOW max_prepared_transactions;" [])
                          (snd (respond D Lease
                                  (world (after (initPostgresConnection D
                                     (optionsString options)
                                     (to_size_t pool_size) st))))))))
               (make_connection_pool (to_size_t pool_size))
               (mkState
                  (snd (respond D
                          (Query leased "SHOW max_prepared_transactions;" [])
                          (snd (respond D Lease
                                  (world (after (initPostgresConnection D
                                     (optionsString options)
                                     (to_size_t pool_size) st)))))))
                  (connection_index
                     (after (initPostgresConnection D (optionsString options)
                               (to_size_t pool_size) st)))))).
  { rewrite prepareConnectionPool_run. cbv zeta. rewrite Hr0.
    cbn [value makeValue].
    destruct (fst (respond D Lease _)); try discriminate Hl; reflexivity. }
  unfold construction in Hbody, Hafter, Hev.
  destruct (pool_run_in_full D factory (optionsStringWithoutDbName options)
              log_manager
              (reports_support
                 (fst (respond D
                         (Query leased "SHOW max_prepared_transactions;" [])
                         (snd (respond D Lease
                                 (world (after (initPostgresConnection D
                                    (optionsString options)
                                    (to_size_t pool_size) st))))))))
              ("prepared_block" ++ dbname options)%string
              (init_ (RolePermissionSet_size D)
                 (GrantablePermissionSet_size D))
              (make_connection_pool (to_size_t pool_size))
              (to_size_t pool_size) make_FailoverCallbackHolder
              (mkState
                 (snd (respond D
                         (Query leased "SHOW max_prepared_transactions;" [])
                         (snd (respond D Lease
                                 (world (after (initPostgresConnection D
                                    (optionsString options)
                                    (to_size_t pool_size) st)))))))
                 (connection_index
                    (after (initPostgresConnection D (optionsString options)
                              (to_size_t pool_size) st)))))
    as (m & (Hm & Hpos) & Hcb & Hci & Hdone).
  cbv zeta in Hcb, Hci, Hdone.
  destruct (Hdone Hbody) as (-> & Hcalls).
  cbn [connection_index] in Hcalls, Hci.
  split; [| split; [| split]].
  - rewrite Hev, Hpw. cbn [value makeValue enable_prepared_transactions_of].
    rewrite calls_made_app, !calls_made_cons, Hcalls. cbn [is_log app].
    rewrite initPostgresConnection_counter.
    destruct (initPostgresConnection_run D (optionsString options)
                (to_size_t pool_size) st)
      as [(_ & Hopens & _)
         | [(k & e & before & _ & Hres & _) | (e & _ & Hthrown)]];
      cbv zeta in *.
    + rewrite (calls_made_opens _ _ _ _ Hopens). reflexivity.
    + rewrite Hres in Hr0. discriminate Hr0.
    + rewrite Hthrown in Hr0. discriminate Hr0.
  - intros Hzero.
    assert (Hab : result (construction D factory options pool_size
                            log_manager
                            (reports_support
                               (fst (respond D
                                  (Query leased
                                     "SHOW max_prepared_transactions;" [])
                                  (snd (respond D Lease
                                     (world (after (initPostgresConnection D
                                        (optionsString options)
                                        (to_size_t pool_size) st))))))))
                            (make_connection_pool (to_size_t pool_size))
                            (mkState
                               (snd (respond D
                                  (Query leased
                                     "SHOW max_prepared_transactions;" [])
                                  (snd (respond D Lease
                                     (world (after (initPostgresConnection D
                                        (optionsString options)
                                        (to_size_t pool_size) st)))))))
                               (connection_index
                                  (after (initPostgresConnection D
                                     (optionsString options)
                                     (to_size_t pool_size) st)))))
                   = Aborted)
      by (apply construction_aborts; exact Hzero).
    unfold construction in Hab. rewrite Hbody in Hab. discriminate Hab.
  - rewrite Hpw. reflexivity.
  - rewrite Hafter, Hci, initPostgresConnection_counter. reflexivity.
Qed.

(** A pool that is built and whose first slot is refused: one call, and
    the error of it. *)
Lemma initPostgresConnection_refused (D : Environment) (options_str : string)
    (pool_size : nat) (st : state D) :
  pool_error D pool_size (world st) = None ->
  is_fault (fst (respond D (Open (pool_at 0) options_str) (world st))) = true ->
  exists e : exception,
    initPostgresConnection D options_str pool_size st
    = mkRun (Normal (of_error (makeError (formatPostgresMessage (what e)))))
        [(Open (pool_at 0) options_str, Fault e)]
        (mkState (snd (respond D (Open (pool_at 0) options_str) (world st)))
           (connection_index st)).
Proof.
  intros Hbuilt H. unfold initPostgresConnection, at_.
  rewrite bind_run, make_shared_connection_pool_run, Hbuilt.
  destruct pool_size as [| n]; [discriminate Hbuilt |].
  cbn [result events after app].
  rewrite try_catch_run, bind_run. cbn [for_loop].
  rewrite bind_run, driver_unit_run. cbn [result events after].
  destruct (fst (respond D (Open (pool_at 0) options_str) (world st)))
    as [| z | e]; try discriminate H.
  exists e. reflexivity.
Qed.

Lemma snoc_shift (A : Type) (l m : list A) (a b x : A) :
  (l ++ a :: b :: (m ++ [x]) = (l ++ a :: b :: m) ++ [x])%list.
Proof. rewrite <- app_assoc. reflexivity. Qed.

(** X10: an error [prepareConnectionPool] returns is that of the last call
    of the run, and nothing follows the call that failed.  When that call
    was the opening of a slot, the error is the sanitized message of its
    exception; when it was a call of the pool construction (the making of
    a failover callback, the schema text, the prepared statements), the
    error is the message as it is, line breaks included. *)
Theorem prepareConnectionPool_error_is_of_the_last_call :
  forall (D : Environment) (factory : ReconnectionStrategyFactory)
         (options : PostgresOptions) (pool_size : Z)
         (log_manager : LoggerManagerTree) (st : state D)
         (msg : Error string),
    let r := prepareConnectionPool D factory options pool_size log_manager
               st in
    result r = Normal (of_error msg) ->
    exists (before : list (call * reply)) (c : call) (e : exception),
      events r = before ++ [(c, Fault e)]
      /\ ((is_open c = true
           /\ error msg = formatPostgresMessage (what e))
          \/ (initialises
                (init_ (RolePermissionSet_size D)
                   (GrantablePermissionSet_size D)) c = true
              /\ error msg = what e)).
Proof.
  intros D factory options pool_size log_manager st msg r Hr. subst r.
  rewrite prepareConnectionPool_run in Hr |- *. cbv zeta in Hr |- *.
  destruct (initPostgresConnection_run D (optionsString options)
              (to_size_t pool_size) st)
    as [(Hres & _)
       | [(k & e0 & before & _ & Hres & Hev & _) | (e0 & _ & Hthrown)]];
    cbv zeta in *;
    [ | | rewrite Hthrown in Hr; cbn [result] in Hr; discriminate Hr ];
    rewrite Hres in Hr |- *; cbn [value makeValue] in Hr |- *.
  - destruct (fst (respond D Lease _)) as [| z | e'];
      cbn [result events] in Hr |- *; try discriminate Hr.
    all: match goal with
         | |- context [events (construction ?a ?b ?c ?d ?e ?en ?pl ?s)] =>
             pose proof (stops_at_initializeConnectionPool a pl
                           (to_size_t d)
                           (init_ (RolePermissionSet_size a)
                              (GrantablePermissionSet_size a))
                           en ("prepared_block" ++ dbname c)%string
                           make_FailoverCallbackHolder b
                           (optionsStringWithoutDbName c) e s) as Hstop;
             fold (construction a b c d e en pl) in Hstop;
             destruct (result (construction a b c d e en pl s))
               as [[] | e' |]; try discriminate Hr;
             destruct (Hstop e' eq_refl) as (before & c' & Hev & Hc);
             injection Hr as <-; rewrite Hev
         end.
    all: eexists _, c', e';
      split; [apply snoc_shift | right; split; [exact Hc | reflexivity]].
  - cbn [result events] in Hr |- *. injection Hr as <-.
    exists before, (Open (pool_at k) (optionsString options)), e0.
    split; [exact Hev |]. left. split; reflexivity.
Qed.

(** X11: the slots the code touches are slots the pool has.  Every call
    [prepareConnectionPool] makes on a session is on the scratch session
    leased from the pool or on a slot below the pool size:
    [connection_pool.at] is never asked for a slot out of range, and for
    the pool size 0, whose pool object is not built, no call is made at
    all.  And every call
    of [createDatabaseIfNotExist] is on a session of its own: it makes no
    call on the pool and writes nothing to the logger. *)
Theorem sessions_touched_are_in_range :
  forall D : Environment,
    (forall (factory : ReconnectionStrategyFactory)
            (options : PostgresOptions) (pool_size : Z)
            (log_manager : LoggerManagerTree) (st : state D),
        all_calls (within (to_size_t pool_size))
          (events (prepareConnectionPool D factory options pool_size
                     log_manager st)) = true)
    /\ (forall (name options_str : string) (st : state D),
           all_calls on_standalone
             (events (createDatabaseIfNotExist D name options_str st))
           = true).
Proof.
  intros D. split.
  - intros factory options pool_size log_manager.
    apply every_all_calls. apply within_prepareConnectionPool.
  - intros name options_str st. rewrite createDatabaseIfNotExist_run.
    cbv zeta.
    destruct (fst (respond D (Open standalone options_str) (world st)));
      try reflexivity.
    all: destruct (fst (respond D (count_datname name) _)); try reflexivity.
    all: match goal with
         | |- context [if ?b then _ else _] => destruct b
         end; try reflexivity.
    all: destruct (fst (respond D (Exec standalone _) _)); reflexivity.
Qed.

(** X12: the storage test with bad options, for any server that refuses
    them.  When the server answers the opening of a session with an
    exception for the option string without database name as for the full
    one, [createDatabaseIfNotExist] returns the error of the refusal after
    that one call, and [prepareConnectionPool] for a pool size whose pool
    object can be built, called next, returns an error after the refused
    opening of slot 0: no statement is executed, so no database is
    created, nothing is leased and no session is initialised. *)
Theorem refused_options_create_nothing :
  forall (D : Environment) (factory : ReconnectionStrategyFactory)
         (options : PostgresOptions) (pool_size : Z)
         (log_manager : LoggerManagerTree) (st : state D),
    (forall (s : session) (w : W D),
        is_fault (fst (respond D
                         (Open s (optionsStringWithoutDbName options)) w))
        = true) ->
    (forall (s : session) (w : W D),
        is_fault (fst (respond D (Open s (optionsString options)) w))
        = true) ->
    (forall w : W D, pool_error D (to_size_t pool_size) w = None) ->
    let created := createDatabaseIfNotExist D (dbname options)
                     (optionsStringWithoutDbName options) st in
    let pool := prepareConnectionPool D factory options pool_size
                  log_manager (after created) in
    exists e1 e2 : exception,
      result created = Normal (broken e1)
      /\ events created
         = [(Open standalone (optionsStringWithoutDbName options), Fault e1)]
      /\ result pool
         = Normal (of_error (makeError (formatPostgresMessage (what e2))))
      /\ events pool
         = [(Open (pool_at 0) (optionsString options), Fault e2)]
      /\ connection_index (after pool) = connection_index st.
Proof.
  intros D factory options pool_size log_manager st Hno Hfull Hbuilt
    created pool.
  assert (Hc : exists e1,
    result created = Normal (broken e1)
    /\ events created
       = [(Open standalone (optionsStringWithoutDbName options), Fault e1)]
    /\ connection_index (after created) = connection_index st).
  { subst created. rewrite createDatabaseIfNotExist_run. cbv zeta.
    specialize (Hno standalone (world st)).
    destruct (fst (respond D _ (world st))) as [| z | e1];
      try discriminate Hno.
    exists e1. repeat split. }
  destruct Hc as (e1 & Hc1 & Hc2 & Hc3).
  subst pool. rewrite prepareConnectionPool_run. cbv zeta.
  destruct (initPostgresConnection_refused D (optionsString options)
              (to_size_t pool_size) (after created)
              (Hbuilt (world (after created)))
              (Hfull (pool_at 0) (world (after created))))
    as (e2 & ->).
  cbn [result events after connection_index].
  exists e1, e2. repeat split; assumption.
Qed.

(* ===================================================================== *)
(** ** Further properties: the schema text *)
(* ===================================================================== *)

Section Schema.

Local Open Scope string_scope.

Lemma has_char_cons (c a : ascii) (p : string) :
  has_char c (String a p) = false ->
  Ascii.eqb a c = false /\ has_char c p = false.
Proof.
  unfold has_char. cbn [list_ascii_of_string existsb].
  intros H. apply orb_false_elim in H. destruct H as [H1 H2].
  rewrite Ascii.eqb_sym. split; assumption.
Qed.

(** A text that ends with a character the pattern does not have hides no
    beginning of the pattern from what is appended to it. *)
Lemma starts_with_closed (c : ascii) (t : string) :
  forall p u : string,
    last_char u = Some c -> has_char c p = false ->
    starts_with p (u ++ t) = starts_with p u.
Proof.
  induction p as [| a p IH]; intros u Hu Hp.
  - destruct u; reflexivity.
  - destruct u as [| x u]; [discriminate Hu |].
    destruct (has_char_cons _ _ _ Hp) as [Hac Hp'].
    cbn [append starts_with].
    destruct u as [| y u].
    + injection Hu as ->. rewrite Hac. reflexivity.
    + rewrite (IH (String y u) Hu Hp'). reflexivity.
Qed.

Lemma occurrences_closed (p : string) (c : ascii) (t : string) :
  has_char c p = false -> p <> "" ->
  forall s : string,
    last_char s = Some c ->
    occurrences p (s ++ t) = occurrences p s + occurrences p t.
Proof.
  intros Hp Hne. induction s as [| x s IH]; intros Hs; [discriminate Hs |].
  change (String x s ++ t) with (String x (s ++ t)).
  cbn [occurrences].
  change (String x (s ++ t)) with (String x s ++ t).
  rewrite (starts_with_closed c t p (String x s) Hs Hp).
  destruct s as [| y s].
  - cbn [append occurrences]. lia.
  - rewrite (IH Hs). lia.
Qed.

Lemma digit_not_in (c : ascii) :
  is_digit c = true ->
  forall p : string, digit_free p = true -> has_char c p = false.
Proof.
  intros Hc. unfold digit_free, has_char.
  induction p as [| a p IH]; [reflexivity |].
  cbn [list_ascii_of_string existsb]. intros H.
  apply negb_true_iff in H. apply orb_false_elim in H. destruct H as [Ha H].
  apply orb_false_intro.
  - destruct (Ascii.eqb_spec c a) as [-> | _]; [congruence | reflexivity].
  - apply IH. rewrite H. reflexivity.
Qed.

Lemma occurrences_digits (p t : string) :
  digit_free p = true -> p <> "" ->
  forall d : string,
    all_digits d = true -> occurrences p (d ++ t) = occurrences p t.
Proof.
  intros Hp Hne. induction d as [| c d IH]; intros Hd; [reflexivity |].
  unfold all_digits in Hd. cbn [list_ascii_of_string forallb] in Hd.
  apply andb_prop in Hd. destruct Hd as [Hc Hd].
  change (String c d ++ t) with (String c (d ++ t)).
  cbn [occurrences]. rewrite (IH Hd).
  destruct p as [| a p]; [contradiction Hne; reflexivity |].
  destruct (has_char_cons _ _ _ (digit_not_in c Hc _ Hp)) as [Hac _].
  cbn [starts_with]. rewrite Hac. reflexivity.
Qed.

Lemma all_digits_string_of_uint (u : uint) :
  all_digits (NilEmpty.string_of_uint u) = true.
Proof. induction u; cbn; assumption || reflexivity. Qed.

Lemma all_digits_to_string (n : nat) : all_digits (to_string n) = true.
Proof. apply all_digits_string_of_uint. Qed.

(** The beginnings of a pattern in the schema text are those in its three
    pieces, whatever the two widths are, for a pattern without a digit and
    without an opening parenthesis. *)
Lemma occurrences_init_ (p : string) (a b : nat) :
  digit_free p = true -> has_char "("%char p = false -> p <> "" ->
  occurrences p (init_ a b)
  = occurrences p init_head + occurrences p init_middle
    + occurrences p init_tail.
Proof.
  intros Hd Hc Hne. unfold init_.
  rewrite (occurrences_closed p "("%char _ Hc Hne init_head)
    by reflexivity.
  rewrite (occurrences_digits p _ Hd Hne (to_string a)
             (all_digits_to_string a)).
  rewrite (occurrences_closed p "("%char _ Hc Hne init_middle)
    by reflexivity.
  rewrite (occurrences_digits p _ Hd Hne (to_string b)
             (all_digits_to_string b)).
  lia.
Qed.

End Schema.

(** X14: the schema text only creates what is missing, whatever the widths
    of the two permission sets.  [CREATE] begins a statement at seventeen
    places of [init_], sixteen times as [CREATE TABLE IF NOT EXISTS] and
    once as [CREATE INDEX IF NOT EXISTS], so that no creation is
    unconditional; and the text drops, alters, truncates, inserts and
    deletes nothing.  This is what lets [prepareConnectionPool] execute
    the text at every start, on a database that has the schema already. *)
Theorem init_creates_only_what_is_missing :
  forall role_permission_set_size grantable_permission_set_size : nat,
    let schema :=
      init_ role_permission_set_size grantable_permission_set_size in
    occurrences "CREATE " schema = 17
    /\ occurrences "CREATE TABLE IF NOT EXISTS " schema = 16
    /\ occurrences "CREATE INDEX IF NOT EXISTS " schema = 1
    /\ occurrences "DROP " schema = 0
    /\ occurrences "ALTER " schema = 0
    /\ occurrences "TRUNCATE " schema = 0
    /\ occurrences "INSERT " schema = 0
    /\ occurrences "DELETE " schema = 0.
Proof.
  intros a b schema. subst schema.
  repeat split;
    (rewrite occurrences_init_;
     [vm_compute; reflexivity | reflexivity | reflexivity | discriminate]).
Qed.

(* ===================================================================== *)
(** ** Further properties at work *)
(* ===================================================================== *)

Lemma prepareConnectionPool_success_script_witness :
  result (Runs.pool_of Sample.sample_options 2 Sample.fresh_server)
  = Normal (of_value (makeValue
      {| connection_pool_of := make_connection_pool 2;
         failover_callback_holder_of := make_FailoverCallbackHolder;
         enable_prepared_transactions_of := true |}))
  /\ connection_index
       (after (Runs.pool_of Sample.sample_options 2 Sample.fresh_server))
     = 2.
Proof.
  assert (Hr : result (Runs.pool_of Sample.sample_options 2
                         Sample.fresh_server)
               = Normal (of_value (makeValue
                   {| connection_pool_of := make_connection_pool 2;
                      failover_callback_holder_of :=
                        make_FailoverCallbackHolder;
                      enable_prepared_transactions_of := true |})))
    by (vm_compute; reflexivity).
  split; [exact Hr |].
  exact (proj2 (proj2 (proj2
    (prepareConnectionPool_success_script Runs.E (strategy_factory 0)
       Sample.sample_options 2 ["Storage"]
       (Sample.start Sample.valid_options Sample.fresh_server) _ Hr)))).
Defined.

Lemma prepareConnectionPool_error_is_of_the_last_call_witness :
  exists (before : list (call * reply)) (c : call) (e : exception),
    events (prepareConnectionPool Runs.P (strategy_factory 0)
              Sample.sample_options 1 ["Storage"]
              (Scripted.start Scripted.is_prepare Runs.two_lines 1))
    = (before ++ [(c, Fault e)])%list
    /\ ((is_open c = true
         /\ error (makeError Runs.two_lines)
            = formatPostgresMessage (what e))
        \/ (initialises
              (init_ (RolePermissionSet_size Runs.P)
                 (GrantablePermissionSet_size Runs.P)) c = true
            /\ error (makeError Runs.two_lines) = what e)).
Proof.
  apply (prepareConnectionPool_error_is_of_the_last_call Runs.P
           (strategy_factory 0) Sample.sample_options 1 ["Storage"]
           (Scripted.start Scripted.is_prepare Runs.two_lines 1)
           (makeError Runs.two_lines)).
  vm_compute. reflexivity.
Defined.

Lemma refused_options_create_nothing_witness :
  pool_error Runs.E (to_size_t 10) Sample.fresh_server = None
  /\ exists e1 e2 : exception,
       result (createDatabaseIfNotExist Runs.E (dbname Runs.bad_options)
                 (optionsStringWithoutDbName Runs.bad_options)
                 (Sample.start Sample.valid_options Sample.fresh_server))
       = Normal (broken e1)
       /\ result (prepareConnectionPool Runs.E (strategy_factory 0)
                    Runs.bad_options 10 ["Storage"]
                    (after (createDatabaseIfNotExist Runs.E
                              (dbname Runs.bad_options)
                              (optionsStringWithoutDbName Runs.bad_options)
                              (Sample.start Sample.valid_options
                                 Sample.fresh_server))))
          = Normal (of_error (makeError (formatPostgresMessage (what e2)))).
Proof.
  split; [reflexivity |].
  destruct (refused_options_create_nothing Runs.E (strategy_factory 0)
              Runs.bad_options 10 ["Storage"]
              (Sample.start Sample.valid_options Sample.fresh_server)
              (fun s w => eq_refl) (fun s w => eq_refl)
              (fun w => eq_refl))
    as (e1 & e2 & H1 & _ & H2 & _).
  exists e1, e2. split; [exact H1 | exact H2].
Defined.
